(** * st-package-reviewer-action: [lib/run_repo_tests.py]

    A shallow embedding of the package test runner ([run_tests],
    [fetch_package_metadata]) and of the pull-request differ and review
    composer ([test_pull_request]), with the properties of the
    specification stated and settled against it.

    Conventions of the embedding:
    - a Python [str] is a [string]; its characters are the code points
      U+0000..U+00FF;
    - a value loaded by [json.loads] is a [json] (numbers are integers);
      a [dict] is an association list in insertion order;
    - a call that may raise returns a [result]; an exception is its class
      name with its [args], whose text is Python's where the code reads it
      ([clean_message]) and a short one elsewhere;
    - the file system is a finite map from canonical absolute paths to
      nodes; there are no symbolic links;
    - the names of packages and their details links are str: where the
      source would go on with a value of another type, the embedding
      stops with an exception of the class Unmodelled;
    - [run(cmd)], [json.loads], the download of a repository, the
      constructor of [Request], [urlopen] and the order in which Python
      goes through a set are given by the environment of
      [test_pull_request], which returns the requests it has opened
      along with its result. *)

From Stdlib Require Import ZArith Ascii String List Lia.
From stdpp Require Import base option list gmap sets strings pretty sorting.

#[local] Set Warnings "-clear-no-such-hyp".

Local Open Scope Z_scope.

(** ** Python values and exceptions *)

#[warnings="-register-all"]
Inductive json :=
| JNull
| JBool (b : bool)
| JInt (n : Z)
| JStr (s : string)
| JArr (l : list json)
| JObj (d : list (string * json)).

Abbreviation dict := (list (string * json)).

Record exn := Exn { exn_class : string; exn_args : list json }.

Inductive result (A : Type) :=
| Ok (a : A)
| Raise (e : exn).
Arguments Ok {A} a.
Arguments Raise {A} e.

#[global] Instance result_ret : MRet result := λ A a, Ok a.
#[global] Instance result_bind : MBind result := λ A B k m,
  match m with
  | Ok a => k a
  | Raise e => Raise e
  end.

#[global] Instance result_fmap : FMap result := λ A B f m,
  match m with
  | Ok a => Ok (f a)
  | Raise e => Raise e
  end.

Definition raise {A} (cls msg : string) : result A := Raise (Exn cls [JStr msg]).

(** The double quote and the backslash, for the literals that hold them. *)
Definition dq : string := String (ascii_of_nat 34) EmptyString.
Definition backslash : string := String (ascii_of_nat 92) EmptyString.

(** ** [str] methods *)

Module Str.

Definition len (s : string) : Z := Z.of_nat (String.length s).

(** [s.startswith(p)] *)
Fixpoint startswith (s p : string) {struct p} : bool :=
  match p with
  | "" => true
  | String a p' =>
      match s with
      | "" => false
      | String b s' => if Ascii.eqb a b then startswith s' p' else false
      end
  end.

(** [s[n:]] and [s[:n]] for a count [n] of characters *)
Fixpoint drop (n : nat) (s : string) : string :=
  match n, s with
  | O, _ => s
  | S n', String _ s' => drop n' s'
  | S _, "" => ""
  end.

Fixpoint take (n : nat) (s : string) : string :=
  match n, s with
  | O, _ => ""
  | S n', String a s' => String a (take n' s')
  | S _, "" => ""
  end.

(** A slice bound as Python resolves it: negative counts from the end,
    and the result is clamped to [0, len s]. *)
Definition bound (s : string) (i : Z) : nat :=
  let i' := if i <? 0 then i + len s else i in
  Z.to_nat (Z.min (Z.max i' 0) (len s)).

(** [s[lo:hi]], [s[lo:]] *)
Definition slice (s : string) (lo hi : Z) : string :=
  take (bound s hi - bound s lo) (drop (bound s lo) s).
Definition slice_from (s : string) (lo : Z) : string := drop (bound s lo) s.

(** [s.endswith(p)] *)
Definition endswith (s p : string) : bool :=
  (String.length p <=? String.length s)%nat &&
  String.eqb (drop (String.length s - String.length p) s) p.

(** [s.find(sub)]: the lowest index where [sub] occurs, or -1 *)
Fixpoint find_from (s sub : string) (i : Z) {struct s} : Z :=
  if startswith s sub then i
  else match s with
       | "" => -1
       | String _ s' => find_from s' sub (i + 1)
       end.
Definition find (s sub : string) : Z := find_from s sub 0.

(** [s.rfind(sub)]: the highest index where [sub] occurs, or -1 *)
Fixpoint rfind_from (s sub : string) (i : Z) {struct s} : Z :=
  let here := if startswith s sub then i else -1 in
  match s with
  | "" => here
  | String _ s' => let later := rfind_from s' sub (i + 1) in
                   if later <? 0 then here else later
  end.
Definition rfind (s sub : string) : Z := rfind_from s sub 0.

(** [sub in s] *)
Definition contains (s sub : string) : bool := 0 <=? find s sub.

(** [s[0]], which raises IndexError on the empty string *)
Definition head (s : string) : result ascii :=
  match s with
  | "" => raise "IndexError" "string index out of range"
  | String a _ => Ok a
  end.

(** [s.replace(old, new)]: the occurrences of [old] are found from
    left to right and do not overlap. [skip] counts the characters of
    an occurrence that is being passed over. *)
Fixpoint replace_go (old new : string) (skip : nat) (s : string) : string :=
  match s with
  | "" => ""
  | String a s' =>
      match skip with
      | S k => replace_go old new k s'
      | O =>
          if startswith s old
          then new +:+ replace_go old new (String.length old - 1) s'
          else String a (replace_go old new O s')
      end
  end.

Fixpoint intersperse (new s : string) : string :=
  match s with
  | "" => new
  | String a s' => new +:+ String a (intersperse new s')
  end.

Definition replace (s old new : string) : string :=
  match old with
  | "" => intersperse new s
  | _ => replace_go old new O s
  end.

(** [s.rstrip('/')] *)
Fixpoint rstrip_char (c : ascii) (s : string) : string :=
  match s with
  | "" => ""
  | String a s' =>
      match rstrip_char c s' with
      | "" => if Ascii.eqb a c then "" else String a ""
      | r => String a r
      end
  end.

(** [c * n] *)
Fixpoint repeat (c : ascii) (n : nat) : string :=
  match n with
  | O => ""
  | S n' => String c (repeat c n')
  end.

(** [s.split(sep)] for a one-character separator *)
Fixpoint split (sep : ascii) (s : string) : list string :=
  match s with
  | "" => [""]
  | String a s' =>
      if Ascii.eqb a sep then "" :: split sep s'
      else match split sep s' with
           | [] => [String a ""]
           | w :: ws => String a w :: ws
           end
  end.

(** [sep.join(words)] *)
Fixpoint join (sep : string) (ws : list string) : string :=
  match ws with
  | [] => ""
  | [w] => w
  | w :: ws' => w +:+ sep +:+ join sep ws'
  end.

(** [s.lower()] on U+0000..U+00FF: A-Z, and the Latin-1 capitals
    U+00C0..U+00DE except the multiplication sign U+00D7. *)
Definition lower_char (a : ascii) : ascii :=
  let n := nat_of_ascii a in
  if ((65 <=? n) && (n <=? 90))%nat then ascii_of_nat (n + 32)
  else if ((192 <=? n) && (n <=? 222) && negb (n =? 215))%nat
       then ascii_of_nat (n + 32)
  else a.

Fixpoint lower (s : string) : string :=
  match s with
  | "" => ""
  | String a s' => String (lower_char a) (lower s')
  end.

End Str.

Arguments Str.replace : simpl never.
Arguments Str.contains : simpl never.
Arguments Str.find : simpl never.
Arguments Str.endswith : simpl never.
Arguments Str.slice : simpl never.
Arguments Str.slice_from : simpl never.

(** ** [posixpath]

    The functions of Python's [posixpath] module that [run_tests] and
    [package_name] call, as CPython defines them. *)

Module PosixPath.

(** [os.path.join(a, b)] *)
Definition join (a b : string) : string :=
  if Str.startswith b "/" then b
  else if String.eqb a "" || Str.endswith a "/" then a +:+ b
  else a +:+ "/" +:+ b.

(** The loop of [normpath] over the components; [new_comps] is kept in
    reverse, its head being [new_comps[-1]]. *)
Fixpoint normpath_comps (initial_slashes : nat) (new_comps : list string)
    (comps : list string) : list string :=
  match comps with
  | [] => rev new_comps
  | comp :: comps' =>
      if String.eqb comp "" || String.eqb comp "." then
        normpath_comps initial_slashes new_comps comps'
      else if negb (String.eqb comp "..")
              || ((initial_slashes =? 0)%nat && bool_decide (new_comps = []))
              || match new_comps with
                 | last :: _ => String.eqb last ".."
                 | [] => false
                 end
      then normpath_comps initial_slashes (comp :: new_comps) comps'
      else match new_comps with
           | _ :: popped => normpath_comps initial_slashes popped comps'
           | [] => normpath_comps initial_slashes new_comps comps'
           end
  end.

(** [os.path.normpath(path)] *)
Definition normpath (path : string) : string :=
  if String.eqb path "" then "."
  else
    let initial_slashes :=
      if Str.startswith path "/" then
        if Str.startswith path "//" && negb (Str.startswith path "///")
        then 2%nat else 1%nat
      else 0%nat in
    let comps := normpath_comps initial_slashes [] (Str.split "/" path) in
    let path' := Str.repeat "/" initial_slashes +:+ Str.join "/" comps in
    if String.eqb path' "" then "." else path'.

(** [os.path.abspath(path)], with the process's working directory *)
Definition abspath (cwd path : string) : string :=
  normpath (if Str.startswith path "/" then path else join cwd path).

(** [os.path.dirname(p)] *)
Definition dirname (p : string) : string :=
  let i := Str.rfind p "/" + 1 in
  let head := Str.slice p 0 i in
  if negb (String.eqb head "")
     && negb (String.eqb head (Str.repeat "/" (String.length head)))
  then Str.rstrip_char "/" head
  else head.

(** [os.path.basename(p)] *)
Definition basename (p : string) : string :=
  Str.slice_from p (Str.rfind p "/" + 1).

End PosixPath.

(** ** The file system

    Keys are canonical absolute paths. [makedirs], [open_wb] and [write]
    follow [os.makedirs], [open(path, 'wb')] and [f.write]. *)

Module FS.

Abbreviation bytes := (list Byte.byte).

#[global] Instance byte_eq_dec : EqDecision Byte.byte := Byte.byte_eq_dec.

Inductive node :=
| Dir
| File (content : bytes).

(** The process's view of the file system: its working directory and
    the nodes, keyed by canonical absolute path. *)
Record t := Make { cwd : string; nodes : gmap string node }.

(** The path the kernel resolves [path] to (no symbolic links). *)
Definition resolve (fs : t) (path : string) : string :=
  PosixPath.abspath (cwd fs) path.

Definition lookup_node (fs : t) (path : string) : option node :=
  nodes fs !! resolve fs path.

Definition set_node (fs : t) (path : string) (n : node) : t :=
  Make (cwd fs) (<[resolve fs path := n]> (nodes fs)).

(** [os.path.exists(path)] *)
Definition exists_ (fs : t) (path : string) : bool :=
  bool_decide (is_Some (lookup_node fs path)).

(** [os.mkdir(path)] *)
Definition mkdir (fs : t) (path : string) : result t :=
  if exists_ fs path then raise "FileExistsError" path
  else match lookup_node fs (PosixPath.dirname (resolve fs path)) with
       | Some Dir => Ok (set_node fs path Dir)
       | Some (File _) => raise "NotADirectoryError" path
       | None => raise "FileNotFoundError" path
       end.

(** [os.path.split(p)] *)
Definition split (p : string) : string * string :=
  (PosixPath.dirname p, PosixPath.basename p).

(** [os.makedirs(name)]: the missing ancestors are made first, a
    FileExistsError of the recursive call is passed over, and a final
    component [.] is not made. The source recurses on the head of the
    name, which gets shorter; [fuel] is that bound. *)
Fixpoint makedirs_go (fuel : nat) (fs : t) (name : string) : result t :=
  let '(head, tail) := split name in
  let '(head, tail) :=
    if String.eqb tail "" then split head else (head, tail) in
  if negb (String.eqb head "") && negb (String.eqb tail "")
     && negb (exists_ fs head)
  then
    match fuel with
    | O => raise "RecursionError" name
    | S fuel' =>
        fs' ← match makedirs_go fuel' fs head with
              | Ok fs' => Ok fs'
              | Raise e =>
                  if String.eqb (exn_class e) "FileExistsError"
                  then Ok fs else Raise e
              end;
        if String.eqb tail "." then Ok fs' else mkdir fs' name
    end
  else mkdir fs name.

Definition makedirs (fs : t) (name : string) : result t :=
  makedirs_go (String.length name) fs name.

(** [open(path, 'wb')]: the file is created, or emptied when it exists *)
Definition open_wb (fs : t) (path : string) : result t :=
  match lookup_node fs path with
  | Some Dir => raise "IsADirectoryError" path
  | Some (File _) => Ok (set_node fs path (File []))
  | None =>
      match lookup_node fs (PosixPath.dirname (resolve fs path)) with
      | Some Dir => Ok (set_node fs path (File []))
      | Some (File _) => raise "NotADirectoryError" path
      | None => raise "FileNotFoundError" path
      end
  end.

(** [f.write(content)] on the file opened at [path] *)
Definition write (fs : t) (path : string) (content : bytes) : t :=
  set_node fs path (File content).

(** [path] is [root] or lies in the tree below it *)
Definition within (root path : string) : bool :=
  String.eqb path root || Str.startswith path (root +:+ "/").

(** [shutil.rmtree(root)] *)
Definition rmtree (fs : t) (root : string) : t :=
  Make (cwd fs)
       (filter (λ kv, within (resolve fs root) kv.1 = false) (nodes fs)).

End FS.

(** ** Operations on loaded JSON values *)

Module Py.

(** [bool(v)] *)
Definition truthy (v : json) : bool :=
  match v with
  | JNull => false
  | JBool b => b
  | JInt n => negb (n =? 0)
  | JStr s => negb (String.eqb s "")
  | JArr l => negb (bool_decide (l = []))
  | JObj d => negb (bool_decide (d = []))
  end.

(** [type(v).__name__] *)
Definition type_name (v : json) : string :=
  match v with
  | JNull => "NoneType"
  | JBool _ => "bool"
  | JInt _ => "int"
  | JStr _ => "str"
  | JArr _ => "list"
  | JObj _ => "dict"
  end.

(** [isinstance(v, str)] *)
Definition is_str (v : json) : bool :=
  match v with
  | JStr _ => true
  | _ => false
  end.

Fixpoint lookup (key : string) (d : dict) : option json :=
  match d with
  | [] => None
  | (k, v) :: d' => if String.eqb k key then Some v else lookup key d'
  end.

(** [key in d] and [d[key]] on a dict *)
Definition has_key (key : string) (d : dict) : bool :=
  bool_decide (is_Some (lookup key d)).

Definition getitem (d : dict) (key : string) : result json :=
  match lookup key d with
  | Some v => Ok v
  | None => raise "KeyError" key
  end.

(** [v == key] for a str [key] *)
Definition eq_str (v : json) (key : string) : bool :=
  match v with
  | JStr s => String.eqb s key
  | _ => false
  end.

(** [key in v] for a str [key]: a key of a dict, an element of a list,
    a substring of a str *)
Definition contains (key : string) (v : json) : result bool :=
  match v with
  | JObj d => Ok (has_key key d)
  | JArr l => Ok (existsb (λ x, eq_str x key) l)
  | JStr s => Ok (Str.contains s key)
  | _ => raise "TypeError" "argument is not iterable"
  end.

(** [v.get(key, default)] *)
Definition get (v : json) (key : string) (dflt : json) : result json :=
  match v with
  | JObj d => Ok (from_option id dflt (lookup key d))
  | _ => raise "AttributeError" "object has no attribute 'get'"
  end.

Fixpoint chars (s : string) : list json :=
  match s with
  | "" => []
  | String a s' => JStr (String a "") :: chars s'
  end.

(** [iter(v)]: the elements of a list, the keys of a dict, the
    characters of a str *)
Definition iter (v : json) : result (list json) :=
  match v with
  | JArr l => Ok l
  | JObj d => Ok (map (λ kv, JStr kv.1) d)
  | JStr s => Ok (chars s)
  | _ => raise "TypeError" "object is not iterable"
  end.

Definition hashable (v : json) : bool :=
  match v with
  | JArr _ | JObj _ => false
  | _ => true
  end.

(** [set(v) == {k1, ..., kn}] for str keys: [set(v)] raises when [v] is
    not iterable or has an unhashable element. *)
Definition set_eq_strs (v : json) (keys : list string) : result bool :=
  elems ← iter v;
  if forallb hashable elems
  then Ok (forallb (λ x, existsb (eq_str x) keys) elems
           && forallb (λ k, existsb (λ x, eq_str x k) elems) keys)
  else raise "TypeError" "unhashable type".

End Py.

(** ** [run_repo_tests]: the package test runner *)

(** The dict [format_report] builds. *)
Record report := Report { message : string; details : list string }.

(** What a checker puts in its [failures] and [warnings]: a str, or an
    object with a [message] and [details]. *)
Inductive check_report :=
| ReportStr (s : string)
| ReportObj (message : string) (details : list string).

(** An element of the [errors] and [warnings] lists of [run_tests]. *)
Inductive finding :=
| Raw (s : string)
| Formatted (r : report).

(** The dict [build_result] returns. *)
Record TestResult := TestResult_ {
  tr_result : string;
  tr_errors : list finding;
  tr_warnings : list finding
}.

Definition build_result (errors warnings : list finding) : TestResult :=
  let result :=
    if negb (bool_decide (errors = [])) then "errors"
    else if negb (bool_decide (warnings = [])) then "warnings"
    else "success" in
  TestResult_ result errors warnings.

Definition format_report (report : check_report) : finding :=
  match report with
  | ReportStr s => Formatted (Report s [])
  | ReportObj message details => Formatted (Report message details)
  end.

(** *** The collaborators of [run_tests] *)

(** The record of a package that the provider yields: the keys
    [run_tests] reads. *)
Record Release := Release_ { release_url : json; release_sublime_text : json }.

Record PackageRecord := PackageRecord_ {
  info_name : json;
  info_releases : list Release;
  info_readme : option string
}.

(** What the loop over [provider.get_packages()] meets first: a yielded
    pair, the end of the generator (with the provider's [failed_sources]
    and [broken_packages], in insertion order), or an exception. *)
Inductive provider_run :=
| Yields (name : string) (info : PackageRecord)
| Exhausted (failed_sources broken_packages : list (string * exn))
| ProviderRaises (e : exn).

(** [manager.fetch(url, ...)]: the bytes, a DownloaderException [e] (with
    [str(e)]), or another exception. *)
Inductive fetch_outcome :=
| Fetched (data : FS.bytes)
| DownloaderException (str_e : string)
| FetchRaises (e : exn).

(** An opened [zipfile.ZipFile]. *)
Record ZipFile := ZipFile_ {
  namelist : list string;
  read : string → result FS.bytes
}.

(** How [run_tests] configures a checker before [perform_check]. *)
Inductive checker_class := CheckMessages | CheckHasSublimeSyntax | OtherChecker.

Inductive checker_config :=
| NoConfig
| Prefixes (tags : list string)
| Selector (sublime_text : json).

Record Checker := Checker_ {
  checker_is : checker_class;
  perform_check :
    FS.t → string → checker_config → result (list check_report * list check_report)
}.

Record Env := Env_ {
  provider : dict → provider_run;
  mkdtemp : string;
  fetch : string → fetch_outcome;
  open_zip : FS.bytes → result ZipFile;
  get_checkers : list Checker
}.

(** *** [fetch_package_metadata] *)

Definition placeholder : string := "https://example.com".

Definition clean_message (exception : exn) : result string :=
  match exn_args exception with
  | [] => raise "IndexError" "tuple index out of range"
  | JStr error :: _ =>
      Ok (Str.replace error " in the repository https://example.com" "")
  | error :: _ =>
      raise "AttributeError"
            ("'" +:+ Py.type_name error +:+ "' object has no attribute 'replace'")
  end.

(** What [fetch_package_metadata] returns: [(True, info)],
    [(False, message)], or [None] when the function's end is reached. *)
Inductive metadata :=
| ReturnsNone
| Success (info : PackageRecord)
| Failure (message : string).

Definition fetch_package_metadata (env : Env) (spec : dict) : result metadata :=
  let try_block : result metadata :=
    match provider env spec with
    | Yields name info => Ok (Success info)
    | ProviderRaises e => Raise e
    | Exhausted failed_sources broken_packages =>
        match last failed_sources with
        | Some (source, e) => Failure <$> clean_message e
        | None =>
            match last broken_packages with
            | Some (name, e) => Failure <$> clean_message e
            | None => Ok ReturnsNone
            end
        end
    end in
  match try_block with
  | Ok r => Ok r
  | Raise e => Failure <$> clean_message e
  end.

(** *** [run_tests] *)

Definition msg (s : string) : finding := format_report (ReportStr s).

Definition traversal_error (path : string) : finding :=
  msg ("The path " +:+ dq +:+ path +:+ dq
       +:+ " appears to be attempting to access other parts of the filesystem").

(** A loop body either goes on with its state or leaves the function
    with a result. *)
Inductive control (R A : Type) :=
| Continue (a : A)
| Return (r : R).
Arguments Continue {R A} a.
Arguments Return {R A} r.

(** The rules on one release source of the spec (the body of the loop
    over [spec['releases']]). *)
Definition release_source_rules (release_source : json)
    (errors warnings : list finding) : result (list finding * list finding) :=
  has_branch ← Py.contains "branch" release_source;
  let errors :=
    if (has_branch : bool)
    then errors ++ [msg ("Branch-based releases are not supported for new packages; please use "
                         +:+ dq +:+ "tags" +:+ dq +:+ ": true")]
    else errors in
  platforms ← Py.get release_source "platforms" (JArr []);
  all_platforms ← Py.set_eq_strs platforms ["windows"; "osx"; "linux"];
  let star := match platforms with
              | JArr [JStr "*"] => true
              | _ => false
              end in
  let warnings :=
    if (all_platforms : bool) || star
    then warnings ++ [msg ("The " +:+ dq +:+ "platforms" +:+ dq
                           +:+ " key may be omitted instead of specifying all platform")]
    else warnings in
  Ok (errors, warnings).

Fixpoint release_sources_rules (release_sources : list json)
    (errors warnings : list finding) : result (list finding * list finding) :=
  match release_sources with
  | [] => Ok (errors, warnings)
  | release_source :: rest =>
      '(errors, warnings) ← release_source_rules release_source errors warnings;
      release_sources_rules rest errors warnings
  end.

(** The rules on the name, the releases and the readme: the [errors] and
    [warnings] lists when the test of [info['releases']] is reached. *)
Definition structural_rules (spec : dict) (info : PackageRecord) (name : string)
  : result (list finding * list finding) :=
  let errors := [] in
  let warnings := [] in
  let errors :=
    if Str.contains (Str.lower name) "sublime"
    then errors ++ [Raw ("Package name contains the word " +:+ dq +:+ "sublime" +:+ dq)]
    else errors in
  '(errors, warnings) ←
    match info_releases info with
    | [] =>
        spec_releases ← Py.getitem spec "releases";
        if Py.truthy spec_releases
        then Ok (errors ++ [msg "No releases found; check to ensure you have created a valid semver tag"],
                 warnings)
        else Ok (errors ++ [msg "No releases specified"], warnings)
    | _ :: _ =>
        spec_releases ← Py.getitem spec "releases";
        release_sources ← Py.iter spec_releases;
        release_sources_rules release_sources errors warnings
    end;
  let warnings :=
    match info_readme info with
    | None => warnings ++ [msg "Creating a readme for your package will help users understand what it does and how to use it"]
    | Some _ => warnings
    end in
  Ok (errors, warnings).

(** The first loop over [package_zip.namelist()]: the root-level paths
    and the last path, unless a path is refused. *)
Fixpoint scan_namelist (errors warnings : list finding) (names : list string)
    (root_level_paths : list string) (last_path : option string)
  : result (control TestResult (list string * option string)) :=
  match names with
  | [] => Ok (Continue (root_level_paths, last_path))
  | path :: names' =>
      let path := Str.replace path backslash "/" in
      let last_path := Some path in
      let root_level_paths :=
        if bool_decide (Str.find path "/" ∈ [Str.len path - 1; -1])
        then root_level_paths ++ [path]
        else root_level_paths in
      path_0 ← Str.head path;
      if Ascii.eqb path_0 "/" || Str.contains path "../"
      then Ok (Return (build_result (errors ++ [traversal_error path]) warnings))
      else scan_namelist errors warnings names' root_level_paths last_path
  end.

(** [root_level_paths] after the first loop and the statement that
    follows it. *)
Definition root_level (errors warnings : list finding) (names : list string)
  : result (control TestResult (list string)) :=
  r ← scan_namelist errors warnings names [] None;
  match r with
  | Return res => Ok (Return res)
  | Continue (root_level_paths, last_path) =>
      match last_path with
      | Some last_path =>
          if negb (String.eqb last_path "") && (length root_level_paths =? 0)%nat
          then Ok (Continue (root_level_paths
                             ++ [Str.slice last_path 0 (Str.find last_path "/" + 1)]))
          else Ok (Continue root_level_paths)
      | None => Ok (Continue root_level_paths)
      end
  end.

Definition skip_root_dir (root_level_paths : list string) : bool :=
  match root_level_paths with
  | [root] => Str.endswith root "/"
  | _ => false
  end.

(** Where the second loop puts the entry [path]. *)
Definition destination (cwd tmp_package_dir : string)
    (root_level_paths : list string) (path : string) : result string :=
  let dest := Str.replace path backslash "/" in
  dest ← (if skip_root_dir root_level_paths
          then match root_level_paths with
               | root :: _ => Ok (Str.slice_from dest (Str.len root))
               | [] => raise "IndexError" "list index out of range"
               end
          else Ok dest);
  let dest := PosixPath.join tmp_package_dir dest in
  Ok (PosixPath.abspath cwd dest).

(** [package_zip.read(path)]: the archive is read from the file that was
    downloaded, so the read fails once that file has been overwritten. *)
Definition zip_read (fs : FS.t) (tmp_package_path : string) (archive : FS.bytes)
    (package_zip : ZipFile) (path : string) : result FS.bytes :=
  match FS.lookup_node fs tmp_package_path with
  | Some (FS.File content) =>
      if bool_decide (content = archive) then read package_zip path
      else raise "BadZipFile" "Bad magic number for file header"
  | _ => raise "BadZipFile" "Bad magic number for file header"
  end.

(** One entry of the second loop, past the test of its destination. *)
Definition extract_entry (tmp_package_path : string) (archive : FS.bytes)
    (package_zip : ZipFile) (path dest : string) (fs : FS.t) : FS.t * result unit :=
  if Str.endswith path "/" then
    if negb (FS.exists_ fs dest) then
      match FS.makedirs fs dest with
      | Ok fs' => (fs', Ok ())
      | Raise e => (fs, Raise e)
      end
    else (fs, Ok ())
  else
    let dest_dir := PosixPath.dirname dest in
    match (if negb (FS.exists_ fs dest_dir) then FS.makedirs fs dest_dir else Ok fs) with
    | Raise e => (fs, Raise e)
    | Ok fs1 =>
        match FS.open_wb fs1 dest with
        | Raise e => (fs1, Raise e)
        | Ok fs2 =>
            match zip_read fs2 tmp_package_path archive package_zip path with
            | Raise e => (fs2, Raise e)
            | Ok content => (FS.write fs2 dest content, Ok ())
            end
        end
    end.

(** The second loop over [package_zip.namelist()]. *)
Fixpoint extract (tmp_package_dir tmp_package_path : string) (archive : FS.bytes)
    (package_zip : ZipFile) (root_level_paths : list string)
    (errors warnings : list finding) (names : list string) (fs : FS.t)
  : FS.t * result (control TestResult unit) :=
  match names with
  | [] => (fs, Ok (Continue ()))
  | path :: names' =>
      match destination (FS.cwd fs) tmp_package_dir root_level_paths path with
      | Raise e => (fs, Raise e)
      | Ok dest =>
          if negb (Str.startswith dest tmp_package_dir)
          then (fs, Ok (Return (build_result (errors ++ [traversal_error path]) warnings)))
          else
            match extract_entry tmp_package_path archive package_zip path dest fs with
            | (fs', Raise e) => (fs', Raise e)
            | (fs', Ok _) =>
                extract tmp_package_dir tmp_package_path archive package_zip
                        root_level_paths errors warnings names' fs'
            end
      end
  end.

(** The prefixes [run_tests] adds to the CheckMessages checker: the
    [tags] of the release sources that are a str. *)
Fixpoint tag_prefixes (release_sources : list json) : result (list string) :=
  match release_sources with
  | [] => Ok []
  | release_source :: rest =>
      tags ← Py.get release_source "tags" JNull;
      prefixes ← tag_prefixes rest;
      Ok (match tags with
          | JStr prefix => prefix :: prefixes
          | _ => prefixes
          end)
  end.

Definition configure (spec : dict) (info : PackageRecord) (checker : Checker)
  : result checker_config :=
  match checker_is checker with
  | CheckMessages =>
      spec_releases ← Py.getitem spec "releases";
      release_sources ← Py.iter spec_releases;
      Prefixes <$> tag_prefixes release_sources
  | CheckHasSublimeSyntax =>
      match info_releases info with
      | release :: _ => Ok (Selector (release_sublime_text release))
      | [] => raise "IndexError" "list index out of range"
      end
  | OtherChecker => Ok NoConfig
  end.

(** The loop over [file_checkers.get_checkers()]. *)
Fixpoint run_checkers (spec : dict) (info : PackageRecord) (fs : FS.t)
    (tmp_package_dir : string) (checkers : list Checker)
    (errors warnings : list finding) : result (list finding * list finding) :=
  match checkers with
  | [] => Ok (errors, warnings)
  | checker :: rest =>
      config ← configure spec info checker;
      '(failures, checker_warnings) ← perform_check checker fs tmp_package_dir config;
      run_checkers spec info fs tmp_package_dir rest
                   (errors ++ map format_report failures)
                   (warnings ++ map format_report checker_warnings)
  end.

(** The block under [with zipfile.ZipFile(...) as package_zip]. *)
Definition test_archive (env : Env) (spec : dict) (info : PackageRecord)
    (tmp_package_dir tmp_package_path : string) (archive : FS.bytes)
    (package_zip : ZipFile) (errors warnings : list finding) (fs : FS.t)
  : FS.t * result TestResult :=
  match root_level errors warnings (namelist package_zip) with
  | Raise e => (fs, Raise e)
  | Ok (Return res) => (fs, Ok res)
  | Ok (Continue root_level_paths) =>
      match extract tmp_package_dir tmp_package_path archive package_zip
                    root_level_paths errors warnings (namelist package_zip) fs with
      | (fs', Raise e) => (fs', Raise e)
      | (fs', Ok (Return res)) => (fs', Ok res)
      | (fs', Ok (Continue _)) =>
          (fs', '(errors, warnings) ←
                  run_checkers spec info fs' tmp_package_dir (get_checkers env)
                               errors warnings;
                Ok (build_result errors warnings))
      end
  end.

(** [run_tests] from [tempfile.mkdtemp()] to the end of the [try] block:
    the download and the archive. *)
Definition test_download (env : Env) (spec : dict) (info : PackageRecord)
    (name url : string) (errors warnings : list finding) (fs : FS.t)
  : FS.t * result TestResult :=
  let tmpdir := mkdtemp env in
  if String.eqb tmpdir "" then
    (fs, Ok (build_result [msg "Could not create temp dir"] []))
  else
    let fs := FS.set_node fs tmpdir FS.Dir in
    let tmp_package_path := PosixPath.join tmpdir (name +:+ ".sublime-package") in
    let tmp_package_dir := PosixPath.join tmpdir name in
    match FS.mkdir fs tmp_package_dir with
    | Raise e => (fs, Raise e)
    | Ok fs =>
        match FS.open_wb fs tmp_package_path with
        | Raise e => (fs, Raise e)
        | Ok fs =>
            match fetch env url with
            | FetchRaises e => (fs, Raise e)
            | DownloaderException str_e =>
                (fs, Ok (build_result (errors ++ [msg str_e]) warnings))
            | Fetched archive =>
                let fs := FS.write fs tmp_package_path archive in
                match open_zip env archive with
                | Raise e => (fs, Raise e)
                | Ok package_zip =>
                    test_archive env spec info tmp_package_dir tmp_package_path
                                 archive package_zip errors warnings fs
                end
            end
        end
    end.

(** The [finally] clause of [run_tests]. *)
Definition cleanup (tmpdir : string) (fs : FS.t) : FS.t :=
  if negb (String.eqb tmpdir "") && FS.exists_ fs tmpdir
  then FS.rmtree fs tmpdir
  else fs.

(** [run_tests(spec)], started on the file system [fs]: the file system
    it leaves and what it returns or raises. *)
Definition run_tests (env : Env) (spec : dict) (fs : FS.t) : FS.t * result TestResult :=
  match fetch_package_metadata env spec with
  | Raise e => (fs, Raise e)
  | Ok ReturnsNone =>
      (fs, raise "TypeError" "cannot unpack non-iterable NoneType object")
  | Ok (Failure info) => (fs, Ok (build_result [msg info] []))
  | Ok (Success info) =>
      let invalid := (fs, Ok (build_result [msg "Invalid package name"] [])) in
      match info_name info with
      | JStr name =>
          if Str.contains name "/" || Str.contains name backslash then invalid
          else
            match structural_rules spec info name with
            | Raise e => (fs, Raise e)
            | Ok (errors, warnings) =>
                match info_releases info with
                | [] => (fs, Ok (build_result errors warnings))
                | release :: _ =>
                    match release_url release with
                    | JStr url =>
                        if negb (Str.startswith url "https://") then
                          (fs, Ok (build_result
                                     [msg "Primary release URL does not begin with https://"] []))
                        else
                          let '(fs', r) :=
                            test_download env spec info name url errors warnings fs in
                          (cleanup (mkdtemp env) fs', r)
                    | _ =>
                        (fs, Ok (build_result
                                   [msg "Primary release URL does not begin with https://"] []))
                    end
                end
            end
      | _ => invalid
      end
  end.

(** ** [run_repo_tests]: the pull-request differ *)

(** *** [json.dumps], with its default separators and [ensure_ascii] *)

Module Json.

Definition hex_digit (n : nat) : string :=
  Str.take 1 (Str.drop n "0123456789abcdef").

Definition escape_char (a : ascii) : string :=
  let n := nat_of_ascii a in
  if (n =? 34)%nat then backslash +:+ dq
  else if (n =? 92)%nat then backslash +:+ backslash
  else if (n =? 8)%nat then backslash +:+ "b"
  else if (n =? 12)%nat then backslash +:+ "f"
  else if (n =? 10)%nat then backslash +:+ "n"
  else if (n =? 13)%nat then backslash +:+ "r"
  else if (n =? 9)%nat then backslash +:+ "t"
  else if ((32 <=? n) && (n <=? 126))%nat then String a ""
  else backslash +:+ "u00" +:+ hex_digit (n / 16) +:+ hex_digit (n mod 16).

Fixpoint escape (s : string) : string :=
  match s with
  | "" => ""
  | String a s' => escape_char a +:+ escape s'
  end.

Definition quote (s : string) : string := dq +:+ escape s +:+ dq.

Fixpoint dumps (v : json) : string :=
  match v with
  | JNull => "null"
  | JBool true => "true"
  | JBool false => "false"
  | JInt n => pretty n
  | JStr s => quote s
  | JArr l => "[" +:+ Str.join ", " (map dumps l) +:+ "]"
  | JObj d =>
      "{" +:+ Str.join ", " (map (λ kv, quote kv.1 +:+ ": " +:+ dumps kv.2) d) +:+ "}"
  end.

End Json.

(** *** The pattern of [re.match] that filters the changed files

    A pattern without repetition, run on a string: the rests of the
    string after each way the pattern matches at its start, in the order
    a backtracking matcher tries them. *)

Module Re.

Inductive pattern :=
| Chr (c : ascii)
| Word
| Seq (p q : pattern)
| Alt (p q : pattern)
| Dollar
| Empty.

(** [\w] on U+0000..U+00FF: the ASCII letters and digits, the
    underscore, and the Latin-1 letters and numeric characters. *)
Definition is_word (a : ascii) : bool :=
  let n := nat_of_ascii a in
  ((48 <=? n) && (n <=? 57) || (65 <=? n) && (n <=? 90) || (n =? 95)
   || (97 <=? n) && (n <=? 122)
   || (n =? 170) || (n =? 178) || (n =? 179) || (n =? 181) || (n =? 185)
   || (n =? 186) || (188 <=? n) && (n <=? 190)
   || (192 <=? n) && (n <=? 214) || (216 <=? n) && (n <=? 246)
   || (248 <=? n) && (n <=? 255))%nat.

Fixpoint run (p : pattern) (s : string) : list string :=
  match p with
  | Chr c =>
      match s with
      | String a s' => if Ascii.eqb a c then [s'] else []
      | "" => []
      end
  | Word =>
      match s with
      | String a s' => if is_word a then [s'] else []
      | "" => []
      end
  | Seq p q => s' ← run p s; run q s'
  | Alt p q => run p s ++ run q s
  | Dollar => if String.eqb s "" || String.eqb s (String (ascii_of_nat 10) "") then [s] else []
  | Empty => [s]
  end.

(** The pattern of a literal text *)
Fixpoint lit (text : string) : pattern :=
  match text with
  | "" => Empty
  | String c text' => Seq (Chr c) (lit text')
  end.

(** [re.match(p, s)] as a truth value *)
Definition match_ (p : pattern) (s : string) : bool :=
  negb (bool_decide (run p s = [])).

End Re.

(** [r'repository/(\w|0-9)\.json$'] *)
Definition shard_pattern : Re.pattern :=
  Re.Seq (Re.lit "repository/")
         (Re.Seq (Re.Alt Re.Word (Re.lit "0-9"))
                 (Re.Seq (Re.lit ".json") Re.Dollar)).

(** [str.splitlines()] and [re.split(r'\s+', line, 1)] *)
Module Lines.

(** The line boundaries of [splitlines] on U+0000..U+00FF; a carriage
    return followed by a line feed is one boundary. *)
Definition is_boundary (a : ascii) : bool :=
  let n := nat_of_ascii a in
  ((10 <=? n) && (n <=? 13) || (28 <=? n) && (n <=? 30) || (n =? 133))%nat.

Fixpoint splitlines_go (cur : option string) (s : string) : list string :=
  match s with
  | "" => match cur with
          | Some line => [String.rev line]
          | None => []
          end
  | String a s' =>
      if is_boundary a then
        String.rev (default "" cur)
        :: match s' with
           | String b s'' =>
               if ((nat_of_ascii a =? 13) && (nat_of_ascii b =? 10))%nat
               then splitlines_go None s''
               else splitlines_go None s'
           | "" => []
           end
      else splitlines_go (Some (String a (default "" cur))) s'
  end.

Definition splitlines : string → list string := splitlines_go None.

(** [\s] on U+0000..U+00FF *)
Definition is_space (a : ascii) : bool :=
  let n := nat_of_ascii a in
  ((9 <=? n) && (n <=? 13) || (28 <=? n) && (n <=? 32) || (n =? 133) || (n =? 160))%nat.

Fixpoint lstrip (s : string) : string :=
  match s with
  | String a s' => if is_space a then lstrip s' else s
  | "" => ""
  end.

(** [re.split(r'\s+', line, 1)]: one part when the line has no white
    space, else the text before its first run of white space and the
    text after that run. *)
Fixpoint split_ws (line : string) : list string :=
  match line with
  | "" => [""]
  | String a rest =>
      if is_space a then [""; lstrip rest]
      else match split_ws rest with
           | [part] => [String a part]
           | part :: parts => String a part :: parts
           | [] => []
           end
  end.

End Lines.

(** *** [test_pull_request] *)

(** The dicts [test_pull_request] returns. *)
Record PullRequestResult := PullRequestResult_ {
  status_code : option Z;
  pr_result : string;
  pr_message : string
}.

Definition error_500 (message : string) : PullRequestResult :=
  PullRequestResult_ (Some 500) "error" message.

(** The loop over the lines of [git diff --name-status]: the manifest
    files to compare, unless the function returns from the loop. *)
Fixpoint changed_manifests (files_changed : string) (lines : list string)
    (filenames : list string) : control PullRequestResult (list string) :=
  match lines with
  | [] => Continue filenames
  | line :: lines' =>
      match Lines.split_ws line with
      | [status; filename] =>
          if negb (Str.endswith filename ".json") then
            changed_manifests files_changed lines' filenames
          else if negb (Re.match_ shard_pattern filename)
                  && negb (String.eqb filename "repository.json")
                  && negb (String.eqb filename "channel.json") then
            changed_manifests files_changed lines' filenames
          else if negb (String.eqb status "M") then
            Return (error_500 "Unsure how to test a change that adds or removes a file, aborting")
          else changed_manifests files_changed lines' (filenames ++ [filename])
      | _ =>
          Return (error_500
                    ("git diff output included a line without status and filename"
                     +:+ String (ascii_of_nat 10) (String (ascii_of_nat 10) files_changed)))
      end
  end.

Definition filter_changed_files (files_changed : string)
  : control PullRequestResult (list string) :=
  changed_manifests files_changed (Lines.splitlines files_changed) [].

(** [package_name(data)] *)
Definition package_name (data : json) : result json :=
  match data with
  | JObj d =>
      if Py.has_key "name" d then Py.getitem d "name"
      else
        details ← Py.getitem d "details";
        match details with
        | JStr details => Ok (JStr (PosixPath.basename details))
        | _ => raise "TypeError" "expected str, bytes or os.PathLike object"
        end
  | JArr _ | JStr _ => raise "TypeError" "indices must be integers"
  | _ => raise "TypeError" "argument is not iterable"
  end.

Arguments package_name : simpl never.

(** The sets and dicts of package names hold str names here. A list or
    a dict is refused by Python as unhashable; with a name that is a
    number, a boolean or null the source goes on, and this embedding
    stops with the class Unmodelled. *)
Definition str_key (name : json) : result string :=
  match name with
  | JStr s => Ok s
  | JArr _ | JObj _ => raise "TypeError" "unhashable type"
  | _ => raise "Unmodelled" "a package name that is not a str"
  end.

(** What the loop over the changed manifest files builds up. *)
Record DiffSet := DiffSet_ {
  modified_pkgs : gset string;
  added_pkgs : gset string;
  removed_pkgs : gset string;
  pkg_links : gmap string string;
  added_pkg_data : gmap string json
}.

Definition empty_diff : DiffSet := DiffSet_ ∅ ∅ ∅ ∅ ∅.

(** [l.index(x)] and [l[i]] *)
Fixpoint index (l : list string) (x : string) : result nat :=
  match l with
  | [] => raise "ValueError" "is not in list"
  | y :: l' => if String.eqb y x then Ok O else S <$> index l' x
  end.

Definition item (l : list json) (i : nat) : result json :=
  match l !! i with
  | Some v => Ok v
  | None => raise "IndexError" "list index out of range"
  end.

(** [for x in l: body], with the state of the loop passed along *)
Fixpoint for_each {A S} (l : list A) (body : A → S → result S) (st : S) : result S :=
  match l with
  | [] => Ok st
  | x :: l' => st' ← body x st; for_each l' body st'
  end.

Definition add_modified (packages : list json) (index : nat) (st : DiffSet)
  : result DiffSet :=
  data ← item packages index;
  name ← package_name data;
  name ← str_key name;
  Ok (DiffSet_ ({[name]} ∪ modified_pkgs st) (added_pkgs st) (removed_pkgs st)
               (pkg_links st) (added_pkg_data st)).

Definition add_added (packages : list json) (index : nat) (st : DiffSet)
  : result DiffSet :=
  data ← item packages index;
  pkg_name ← package_name data;
  pkg_name ← str_key pkg_name;
  let added_pkg_data := <[pkg_name := data]> (added_pkg_data st) in
  has_details ← Py.contains "details" data;
  pkg_links ←
    (if (has_details : bool) then
       match data with
       | JObj d =>
           details ← Py.getitem d "details";
           match details with
           | JStr link => Ok (<[pkg_name := link]> (pkg_links st))
           | _ => raise "Unmodelled" "a details link that is not a str"
           end
       | _ => raise "TypeError" "indices must be integers"
       end
     else Ok (pkg_links st));
  Ok (DiffSet_ (modified_pkgs st) ({[pkg_name]} ∪ added_pkgs st) (removed_pkgs st)
               pkg_links added_pkg_data).

Definition add_removed (packages : list json) (index : nat) (st : DiffSet)
  : result DiffSet :=
  data ← item packages index;
  name ← package_name data;
  name ← str_key name;
  Ok (DiffSet_ (modified_pkgs st) (added_pkgs st) ({[name]} ∪ removed_pkgs st)
               (pkg_links st) (added_pkg_data st)).

(** The reconciliation of one repository manifest: [old_json_packages]
    is [old_json['packages']] and [new_json_packages] is
    [new_json['packages']]. The sets [deleted] and [added] are gone
    through in the order of [elements]. *)
Definition reconcile (old_json_packages new_json_packages : list json)
    (st : DiffSet) : result DiffSet :=
  let old_packages := Json.dumps <$> old_json_packages in
  let new_packages := Json.dumps <$> new_json_packages in
  let deleted : gset string := list_to_set old_packages ∖ list_to_set new_packages in
  let added : gset string := list_to_set new_packages ∖ list_to_set old_packages in
  deleted_indexes ← mapM (index old_packages) (elements deleted);
  added_indexes ← mapM (index new_packages) (elements added);
  if (length deleted_indexes =? length added_indexes)%nat then
    for_each added_indexes (add_modified new_json_packages) st
  else if (length deleted_indexes =? 0)%nat then
    for_each added_indexes (add_added new_json_packages) st
  else
    for_each deleted_indexes (add_removed old_json_packages) st.

(** The lines of one list of findings in the report. *)
Fixpoint report_lines (label : string) (reports : list finding) : result (list string) :=
  match reports with
  | [] => Ok []
  | Raw _ :: _ => raise "TypeError" "string indices must be integers"
  | Formatted report :: rest =>
      rest_lines ← report_lines label rest;
      Ok (("  - " +:+ label +:+ ": " +:+ message report)
          :: map (λ detail, "    - " +:+ detail) (details report)
          ++ rest_lines)
  end.

(** The flags and the report of [test_pull_request]. *)
Record Review := Review_ {
  output : list string;
  errors : bool;
  warnings : bool
}.

(** The body of the loop over [sorted(added_pkgs)], after [run_tests]
    has returned [test_results] for the package [name]. *)
Definition add_test_results (name : string) (test_results : TestResult)
    (st : Review) : result Review :=
  let output :=
    output st ++ [""; "Processing package " +:+ dq +:+ name +:+ dq] in
  if String.eqb (tr_result test_results) "success" then
    Ok (Review_ (output ++ ["  - All checks passed"]) (errors st) (warnings st))
  else
    '(output, errors) ←
      (if negb (bool_decide (tr_errors test_results = [])) then
         lines ← report_lines "ERROR" (tr_errors test_results);
         Ok (output ++ lines, true)
       else Ok (output, errors st));
    '(output, warnings) ←
      (if negb (bool_decide (tr_warnings test_results = [])) then
         lines ← report_lines "WARNING" (tr_warnings test_results);
         Ok (output ++ lines, true)
       else Ok (output, warnings st));
    Ok (Review_ output errors warnings).

(** The local variables [event] and [review_status]. *)
Record Verdict := Verdict_ { event : string; review_status : string }.

Definition verdict (errors warnings : bool) : Verdict :=
  if errors then Verdict_ "REQUEST_CHANGES" "ERROR"
  else if warnings then Verdict_ "COMMENT" "WARNING"
  else Verdict_ "APPROVE" "SUCCESS".

(** The list [comment]. *)
Definition comment (v : Verdict) (pkg_links : gmap string string)
    (added_pkgs : gset string) (st : Review) : list string :=
  let comment := ["### Automated testing result: " +:+ review_status v; ""] in
  let comment :=
    if negb (size pkg_links =? 0)%nat then
      match map_to_list pkg_links with
      | [(name, link)] =>
          comment ++ ["Repo link: [" +:+ name +:+ "](" +:+ link +:+ ")"]
      | _ =>
          comment ++ ["Repo links:"; ""]
          ++ omap (λ name, (λ link, "  - [" +:+ name +:+ "](" +:+ link +:+ ")")
                           <$> pkg_links !! name)
                  (merge_sort String.le (elements added_pkgs))
          ++ [""]
      end
    else comment in
  let comment :=
    if errors st || warnings st
    then comment ++ ["[Results help](https://github.com/packagecontrol/st_package_reviewer/wiki/Package-checks)"; ""]
    else comment in
  if negb (bool_decide (output st = []))
  then comment ++ ["```"] ++ output st ++ ["```"]
  else comment.

(** The data posted to the review endpoint of the pull request. *)
Record ReviewData := ReviewData_ { body : string; review_event : string }.

Definition review_data (v : Verdict) (pkg_links : gmap string string)
    (added_pkgs : gset string) (st : Review) : ReviewData :=
  ReviewData_ (Str.join (String (ascii_of_nat 10) "") (comment v pkg_links added_pkgs st))
              "REQUEST_CHANGES".

(** What the request to the review endpoint meets: a response with
    what its [getcode()] gives (an int, or None for a response that is
    not one of HTTP), a URLError (HTTPError is one) with the text the
    handler builds, or an exception of another class (one that
    [http.client] raises while it reads the response, a timeout), which
    no handler of [test_pull_request] catches. *)
Inductive post_outcome :=
| Response (code : option Z)
| URLError (error : string)
| OtherException (e : exn).

(** [test_pull_request] from the computation of [review_status] on.
    The code None of a response differs from 200 and cannot be
    formatted with [%d]. *)
Definition publish (post : string → ReviewData → post_outcome) (pr_url : string)
    (pkg_links : gmap string string) (added_pkgs : gset string) (st : Review)
  : result PullRequestResult :=
  let v := verdict (errors st) (warnings st) in
  let comment_url := pr_url +:+ "/reviews" in
  match post comment_url (review_data v pkg_links added_pkgs st) with
  | Response (Some code) =>
      if negb (code =? 200)
      then Ok (error_500 ("Error posting review to PR - " +:+ pretty code))
      else Ok (PullRequestResult_ None "completed" "Checks ran successfully")
  | Response None =>
      raise "TypeError" "%d format: a real number is required, not NoneType"
  | URLError error => Ok (error_500 ("Error posting review to PR - " +:+ error))
  | OtherException e => Raise e
  end.

(** *** [test_pull_request]: from the changed files to the review *)

(** [v[key]] for a str [key] *)
Definition subscript (v : json) (key : string) : result json :=
  match v with
  | JObj d => Py.getitem d key
  | JArr _ | JStr _ => raise "TypeError" "indices must be integers"
  | _ => raise "TypeError" "object is not subscriptable"
  end.

(** [set(v)], whose elements are str here (see [str_key]). *)
Definition set_of (v : json) : result (gset string) :=
  elems ← Py.iter v;
  keys ← mapM str_key elems;
  Ok (list_to_set keys).

(** The value of [packages] in a manifest, which is a list here: a
    str or a dict, which Python would go through, is left out. *)
Definition package_list (v : json) : result (list json) :=
  match v with
  | JArr l => Ok l
  | JStr _ | JObj _ => raise "Unmodelled" "packages that are not a list"
  | _ => raise "TypeError" "object is not iterable"
  end.

(** What [manager.fetch(repo, ...)] and [raw_data.decode('utf-8')]
    give for an added repository: the text, a UnicodeDecodeError, a
    DownloaderException [e] (with [str(e)]), or another exception. *)
Inductive repository_data :=
| RepositoryText (raw_data : string)
| NotUtf8
| RepositoryUnavailable (str_e : string)
| RepositoryRaises (e : exn).

(** The arguments of [Request(url, data=data, headers=headers,
    method=method)] in [github_api_request], and the request made of
    them. *)
Record Request := Request_ {
  req_url : string;
  req_data : option string;
  req_headers : list (string * json);
  req_method : string
}.

(** The collaborators of [test_pull_request]: the settings of the
    downloader, [tempfile.mkdtemp()], [run(cmd)] with the code and the
    output of the command, [json.loads], the order in which a set of
    str is gone through, the download of a repository, the collaborators
    of [run_tests], the exception that the constructor of [Request]
    raises for its arguments when it raises one (a ValueError for a URL
    without a scheme, or with a host it cannot read), and [urlopen]. *)
Record PullRequestEnv := PullRequestEnv_ {
  downloader_settings : dict;
  pr_mkdtemp : string;
  run : list string → result (Z * string);
  json_loads : string → result json;
  set_order : gset string → list string;
  fetch_repository : string → repository_data;
  tests : Env;
  request_raises : Request → option exn;
  urlopen : Request → post_outcome
}.

(** The lines 274 to 288 of [github_api_request]: the request, which
    the function then opens. [new_request] is the constructor of
    [Request], which gives the request or raises. *)
Definition github_api_request (new_request : Request → option exn)
    (settings : dict) (token url : string) (data : option json) : result Request :=
  user_agent ← Py.getitem settings "user_agent";
  let headers :=
    [("Authorization", JStr ("Bearer " +:+ token)); ("User-Agent", user_agent)] in
  let req :=
    match data with
    | Some data =>
        Request_ url (Some (Json.dumps data))
                 (headers ++ [("Content-Type", JStr "application/vnd.github.v3+json")])
                 "POST"
    | None => Request_ url None headers "GET"
    end in
  match new_request req with
  | Some e => Raise e
  | None => Ok req
  end.

(** What the loop over the changed manifests builds up. *)
Record Changes := Changes_ {
  pkgs : DiffSet;
  added_repositories : gset string;
  removed_repositories : gset string
}.

Definition no_changes : Changes := Changes_ empty_diff ∅ ∅.

(** [run(['git', 'show', '%s:%s' % (rev, filename)])], whose code is not
    looked at. *)
Definition git_show (env : PullRequestEnv) (rev filename : string) : result string :=
  '(code, version) ← run env ["git"; "show"; rev +:+ ":" +:+ filename];
  Ok version.

(** The body of the loop over [filenames]. *)
Definition compare_manifest (env : PullRequestEnv) (old_rev current_rev filename : string)
    (st : Changes) : result Changes :=
  old_version ← git_show env old_rev filename;
  new_version ← git_show env current_rev filename;
  old_json ← json_loads env old_version;
  new_json ← json_loads env new_version;
  if String.eqb filename "channel.json" then
    old_repositories ← subscript old_json "repositories" ≫= set_of;
    new_repositories ← subscript new_json "repositories" ≫= set_of;
    Ok (Changes_ (pkgs st)
                 (new_repositories ∖ old_repositories)
                 (old_repositories ∖ new_repositories))
  else
    old_packages ← subscript old_json "packages" ≫= package_list;
    new_packages ← subscript new_json "packages" ≫= package_list;
    packages ← reconcile old_packages new_packages (pkgs st);
    Ok (Changes_ packages (added_repositories st) (removed_repositories st)).

(** [sorted(names)] and the lines that list them. *)
Definition sorted (names : gset string) : list string :=
  merge_sort String.le (elements names).

Definition bullets (names : gset string) : list string :=
  (λ name, "  - " +:+ name) <$> sorted names.

(** A part of the report with its title, after an empty line when the
    report has lines already; nothing when there are no names. *)
Definition listing (title : string) (names : gset string) (output : list string)
  : list string :=
  if bool_decide (names = ∅) then output
  else (if bool_decide (output = []) then output else output ++ [""])
       ++ [title] ++ bullets names.

(** The package of an added repository (the body of the loop over
    [repo_json['packages']]). *)
Definition add_repository_package (pkg_info : json) (st : DiffSet * Z)
  : result (DiffSet * Z) :=
  let '(packages, num_pkgs) := st in
  pkg_name ← package_name pkg_info;
  pkg_name ← str_key pkg_name;
  Ok (DiffSet_ (modified_pkgs packages) ({[pkg_name]} ∪ added_pkgs packages)
               (removed_pkgs packages) (pkg_links packages)
               (<[pkg_name := pkg_info]> (added_pkg_data packages)),
      num_pkgs + 1).

(** The body of the loop over [added_repositories]. An exception that
    [json.loads] raises is a ValueError, which the loop handles, when
    its class is ValueError or JSONDecodeError. *)
Definition process_repository (env : PullRequestEnv) (repo : string)
    (st : Review * DiffSet) : result (Review * DiffSet) :=
  let '(review, packages) := st in
  if negb (Str.startswith repo "http://") && negb (Str.startswith repo "https://")
  then Ok st
  else
    let output :=
      output review ++ [""; "Processing repository " +:+ dq +:+ repo +:+ dq] in
    let '(output, errors) :=
      if Str.startswith repo "http://"
      then (output ++ ["  - ERROR: External repositories added to the default channel must be served over HTTPS"],
            true)
      else (output, errors review) in
    let failed line := Ok (Review_ (output ++ [line]) true (warnings review), packages) in
    match fetch_repository env repo with
    | RepositoryRaises e => Raise e
    | RepositoryUnavailable str_e => failed ("  - ERROR: " +:+ str_e)
    | NotUtf8 => failed "  - ERROR: Unable to decode JSON as UTF-8"
    | RepositoryText raw_data =>
        match json_loads env raw_data with
        | Raise e =>
            if String.eqb (exn_class e) "ValueError"
               || String.eqb (exn_class e) "JSONDecodeError"
            then failed "  - ERROR: Unable to parse JSON"
            else Raise e
        | Ok repo_json =>
            has_schema_version ← Py.contains "schema_version" repo_json;
            has_packages ← Py.contains "packages" repo_json;
            let missing key :=
              "  - ERROR: Top-level key " +:+ dq +:+ key +:+ dq +:+ " is missing" in
            let output :=
              output ++ (if (has_schema_version : bool) then [] else [missing "schema_version"])
                     ++ (if (has_packages : bool) then [] else [missing "packages"]) in
            if negb has_schema_version || negb has_packages
            then Ok (Review_ output true (warnings review), packages)
            else
              schema_version ← subscript repo_json "schema_version";
              if negb (Py.eq_str schema_version "3.0.0")
              then failed ("  - ERROR: " +:+ dq +:+ "schema_version" +:+ dq
                           +:+ " must be " +:+ dq +:+ "3.0.0" +:+ dq)
              else
                pkg_infos ← subscript repo_json "packages" ≫= Py.iter;
                '(packages, num_pkgs) ←
                  for_each pkg_infos add_repository_package (packages, 0);
                Ok (Review_ (output ++ ["  - Found " +:+ pretty num_pkgs +:+ " package"
                                        +:+ (if negb (num_pkgs =? 1) then "s" else "")])
                            errors (warnings review),
                    packages)
        end
    end.

(** The loop over [sorted(added_pkgs)]: [run_tests] on the data of
    each added package, one run after the other on the file system. *)
Fixpoint test_packages (env : Env) (added_pkg_data : gmap string json)
    (names : list string) (fs : FS.t) (st : Review) : FS.t * result Review :=
  match names with
  | [] => (fs, Ok st)
  | name :: names' =>
      match added_pkg_data !! name with
      | None => (fs, raise "KeyError" name)
      | Some (JObj data) =>
          match run_tests env data fs with
          | (fs', Raise e) => (fs', Raise e)
          | (fs', Ok test_results) =>
              match add_test_results name test_results st with
              | Raise e => (fs', Raise e)
              | Ok st' => test_packages env added_pkg_data names' fs' st'
              end
          end
      | Some _ => (fs, raise "Unmodelled" "the data of a package that are not a dict")
      end
  end.

(** [test_pull_request] from the report of the changes to the end of
    the loop over the added packages: the review, and the packages as
    the added repositories have completed them. *)
Definition review_changes (env : PullRequestEnv) (changes : Changes) (fs : FS.t)
  : FS.t * result (Review * DiffSet) :=
  let output := [] in
  let output :=
    if bool_decide (removed_repositories changes = ∅) then output
    else output ++ ["Repositories removed:"] ++ bullets (removed_repositories changes) in
  let output := listing "Repositories added:" (added_repositories changes) output in
  match (if bool_decide (added_repositories changes = ∅)
         then Ok (Review_ output false false, pkgs changes)
         else for_each (set_order env (added_repositories changes))
                       (process_repository env)
                       (Review_ output false false, pkgs changes)) with
  | Raise e => (fs, Raise e)
  | Ok (Review_ output errors warnings, packages) =>
      let output := listing "Packages removed:" (removed_pkgs packages) output in
      let output := listing "Packages modified:" (modified_pkgs packages) output in
      let output := listing "Packages added:" (added_pkgs packages) output in
      match test_packages (tests env) (added_pkg_data packages)
                          (sorted (added_pkgs packages)) fs
                          (Review_ output errors warnings) with
      | (fs', Raise e) => (fs', Raise e)
      | (fs', Ok review) => (fs', Ok (review, packages))
      end
  end.

(** The data of the review as [json.dumps] gets them. *)
Definition review_json (data : ReviewData) : json :=
  JObj [("body", JStr (body data)); ("event", JStr (review_event data))].

(** The [try] block of [test_pull_request], with the requests it has
    opened. The request is made of the URL and the data that [publish]
    posts, and [publish] gets what [urlopen] gives for it; nothing is
    opened when the request cannot be made. *)
Definition review_pull_request (env : PullRequestEnv)
    (pr_url old_rev current_rev token : string) (fs : FS.t)
  : FS.t * list Request * result PullRequestResult :=
  match run env ["git"; "diff"; "--name-status"; old_rev; current_rev] with
  | Raise e => (fs, [], Raise e)
  | Ok (code, files_changed) =>
      if negb (code =? 0) then
        (fs, [], Ok (error_500 ("Unable to diff " +:+ old_rev +:+ ".." +:+ current_rev)))
      else
        match filter_changed_files files_changed with
        | Return r => (fs, [], Ok r)
        | Continue filenames =>
            match for_each filenames (compare_manifest env old_rev current_rev)
                           no_changes with
            | Raise e => (fs, [], Raise e)
            | Ok changes =>
                match review_changes env changes fs with
                | (fs', Raise e) => (fs', [], Raise e)
                | (fs', Ok (review, packages)) =>
                    let v := verdict (errors review) (warnings review) in
                    let data :=
                      review_data v (pkg_links packages) (added_pkgs packages) review in
                    match github_api_request (request_raises env)
                                             (downloader_settings env) token
                                             (pr_url +:+ "/reviews")
                                             (Some (review_json data)) with
                    | Raise e => (fs', [], Raise e)
                    | Ok req =>
                        (fs', [req],
                         publish (λ _ _, urlopen env req) pr_url
                                 (pkg_links packages) (added_pkgs packages) review)
                    end
                end
            end
        end
  end.

(** [test_pull_request(pr_url, old_rev, current_rev, token)], started on
    the file system [fs]: the file system it leaves, the requests it has
    opened, and what it returns or raises. *)
Definition test_pull_request (env : PullRequestEnv)
    (pr_url old_rev current_rev token : string) (fs : FS.t)
  : FS.t * list Request * result PullRequestResult :=
  let tmpdir := pr_mkdtemp env in
  if String.eqb tmpdir "" then (fs, [], raise "OSError" "Unable to create tmpdir")
  else
    let '(fs', sent, r) :=
      review_pull_request env pr_url old_rev current_rev token
                          (FS.set_node fs tmpdir FS.Dir) in
    (cleanup tmpdir fs', sent, r).

(** ** Notions of the specification *)

(** A finding is a dict that [format_report] has built. *)
Definition formatted (f : finding) : Prop := ∃ r, f = Formatted r.

(** A result is one that [build_result] builds. *)
Definition built (r : TestResult) : Prop :=
  r = build_result (tr_errors r) (tr_warnings r).

(** The entries that the first loop of [run_tests] takes for root-level
    ones: after the separators are made uniform, a path without a slash,
    or with its only slash at its end. *)
Definition normalize (path : string) : string := Str.replace path backslash "/".

Definition is_root_level (path : string) : bool :=
  bool_decide (Str.find path "/" ∈ [Str.len path - 1; -1]).

Definition seen_root_level (names : list string) : list string :=
  filter (λ path, is_root_level path = true) (normalize <$> names).

(** C2's condition, as the specification words it: exactly one distinct
    root-level entry is seen and it is a directory. *)
Definition one_distinct_root_directory (names : list string) : Prop :=
  ∃ root, list_to_set (seen_root_level names) = ({[root]} : gset string)
          ∧ Str.endswith root "/" = true.

(** A release source as the manifests have them: a dict whose
    [platforms], when it has any, is a list of str. *)
Definition well_formed_release_source (release_source : json) : Prop :=
  ∃ d, release_source = JObj d
       ∧ ∀ platforms, Py.lookup "platforms" d = Some platforms →
           ∃ l, platforms = JArr l ∧ Forall (λ x, ∃ s, x = JStr s) l.

(** The phrase that [clean_message] removes. *)
Definition phrase : string := " in the repository https://example.com".

(** The resolution of [spec] fails with the exception [e]: the provider
    raises it, or it ends with [e] as the last of its [failed_sources]
    or, when it has none, as the last of its [broken_packages]. *)
Definition fails_with (env : Env) (spec : dict) (e : exn) : Prop :=
  provider env spec = ProviderRaises e
  ∨ (∃ failed_sources source broken_packages,
       provider env spec = Exhausted (failed_sources ++ [(source, e)]) broken_packages)
  ∨ (∃ broken_packages name,
       provider env spec = Exhausted [] (broken_packages ++ [(name, e)])).

(** [old] has no border: none of its proper prefixes is also a suffix. *)
Definition borderless (old : string) : Prop :=
  ∀ k, (0 < k < String.length old)%nat →
       Str.take k old ≠ Str.drop (String.length old - k) old.

(** The name under which the differ files a package entry. *)
Definition name_of (data : json) : result string := package_name data ≫= str_key.

(** The value of the [details] key of a package entry. *)
Definition details_of (data : json) : option json :=
  match data with
  | JObj d => Py.lookup "details" d
  | _ => None
  end.

(** A package entry as the manifests have them: it has a str name (its
    own, or the last part of its [details]) and its [details], when it
    has any, are a str. *)
Definition well_formed_entry (data : json) : Prop :=
  (∃ name, name_of data = Ok name)
  ∧ ∀ v, details_of data = Some v → ∃ link, v = JStr link.

(** The serialized entries of [packages] that [others] does not have. *)
Definition serialized_only_in (packages others : list json) : gset string :=
  list_to_set (Json.dumps <$> packages) ∖ list_to_set (Json.dumps <$> others).

(** The entry that a serialized entry stands for: the first entry of the
    list with that serialized form. *)
Definition first_serialized (packages : list json) (s : string) : option json :=
  snd <$> list_find (λ data, Json.dumps data = s) packages.

(** [data] is one of the entries of [packages] that is classified when
    the serialized entries [serialized] are. *)
Definition classified (packages : list json) (serialized : gset string)
    (data : json) : Prop :=
  ∃ s, s ∈ serialized ∧ first_serialized packages s = Some data.

(** [name] is the name of an entry classified for [serialized]. *)
Definition named (packages : list json) (serialized : gset string)
    (name : string) : Prop :=
  ∃ data, classified packages serialized data ∧ name_of data = Ok name.

(** The classification of C3 for the old and the new package lists of
    a manifest: [st'] is what the differ has when it started from [st].
    With D removed and A added serialized entries, the added entries are
    the modifications when D = A; else they are the additions when
    D = 0, each recorded with its spec and its link; else the removed
    entries are the removals and the added ones are left out. *)
Definition classification (old new : list json) (st st' : DiffSet) : Prop :=
  let deleted := serialized_only_in old new in
  let added := serialized_only_in new old in
  (size deleted = size added →
     (∀ n, n ∈ modified_pkgs st' ↔ n ∈ modified_pkgs st ∨ named new added n)
     ∧ added_pkgs st' = added_pkgs st
     ∧ removed_pkgs st' = removed_pkgs st
     ∧ pkg_links st' = pkg_links st
     ∧ added_pkg_data st' = added_pkg_data st)
  ∧ (size deleted ≠ size added → size deleted = 0%nat →
       (∀ n, n ∈ added_pkgs st' ↔ n ∈ added_pkgs st ∨ named new added n)
       ∧ modified_pkgs st' = modified_pkgs st
       ∧ removed_pkgs st' = removed_pkgs st
       ∧ (∀ n, named new added n →
            ∃ data, added_pkg_data st' !! n = Some data
                    ∧ classified new added data ∧ name_of data = Ok n)
       ∧ (∀ n data link,
            classified new added data → name_of data = Ok n →
            details_of data = Some (JStr link) →
            ∃ data' link',
              pkg_links st' !! n = Some link'
              ∧ classified new added data' ∧ name_of data' = Ok n
              ∧ details_of data' = Some (JStr link'))
       ∧ (∀ n, ¬ named new added n →
            added_pkg_data st' !! n = added_pkg_data st !! n
            ∧ pkg_links st' !! n = pkg_links st !! n))
  ∧ (size deleted ≠ size added → size deleted ≠ 0%nat →
       (∀ n, n ∈ removed_pkgs st' ↔ n ∈ removed_pkgs st ∨ named old deleted n)
       ∧ modified_pkgs st' = modified_pkgs st
       ∧ added_pkgs st' = added_pkgs st
       ∧ pkg_links st' = pkg_links st
       ∧ added_pkg_data st' = added_pkg_data st).

(** ** Notions of the further properties *)

(** A name without a slash. *)
Definition slashless (s : string) : Prop := Str.contains s "/" = false.

(** A component of a canonical path: a name without a slash that is not
    empty, [.] or [..]. *)
Definition plain (comp : string) : Prop :=
  comp ≠ "" ∧ comp ≠ "." ∧ comp ≠ ".." ∧ Str.contains comp "/" = false.

(** The absolute path of the components [comps]. *)
Definition path_of (comps : list string) : string := "/" +:+ Str.join "/" comps.

(** A canonical absolute path other than the root, such as
    [tempfile.mkdtemp()] returns: a slash, and plain components joined by
    slashes. *)
Definition canonical (p : string) : Prop :=
  ∃ comps, comps ≠ [] ∧ Forall plain comps ∧ p = path_of comps.

(** The text before the slash of the last component of a path. *)
Definition before_last (cs : list string) : string :=
  match cs with
  | [] => ""
  | _ => path_of cs
  end.

(** [fs'] is [fs] with nodes added or replaced within [root]: the
    working directory is the same, no node is gone, and the nodes
    outside of [root] are as they were. *)
Definition changed_within (root : string) (fs fs' : FS.t) : Prop :=
  FS.cwd fs' = FS.cwd fs
  ∧ (∀ k, is_Some (FS.nodes fs !! k) → is_Some (FS.nodes fs' !! k))
  ∧ (∀ k, FS.within root k = false → FS.nodes fs' !! k = FS.nodes fs !! k).

(** No node of [fs] lies within [root]. *)
Definition fresh (root : string) (fs : FS.t) : Prop :=
  ∀ path, FS.within root path = true → FS.nodes fs !! path = None.

(** An entry of an archive that the first loop of [run_tests] lets
    through. *)
Definition accepted (path : string) : Prop :=
  normalize path ≠ ""
  ∧ Str.startswith (normalize path) "/" = false
  ∧ Str.contains (normalize path) "../" = false.

(** The result [r] holds the errors [errors] and possibly more, after
    them. *)
Definition keeps (errors : list finding) (r : TestResult) : Prop :=
  ∃ more, tr_errors r = errors ++ more.

(** The manifest files that the differ compares. *)
Definition manifest (filename : string) : Prop :=
  filename = "repository.json" ∨ filename = "channel.json"
  ∨ filename = "repository/0-9.json"
  ∨ ∃ c, Re.is_word c = true ∧ filename = "repository/" +:+ String c ".json".

(** The test that the loop over the changed files makes of a file
    name. *)
Definition is_manifest (filename : string) : bool :=
  Str.endswith filename ".json"
  && (Re.match_ shard_pattern filename
      || String.eqb filename "repository.json" || String.eqb filename "channel.json").

(** The file names of the lines that name a manifest, in their order;
    a line is given by its status and its file name. *)
Definition manifests_of (entries : list (string * string)) : list string :=
  filter (λ filename, is_manifest filename = true) (snd <$> entries).

(** The invariant of the differ: every added package has its data, a
    dict, and every link is the link of an added package. *)
Definition coherent (packages : DiffSet) : Prop :=
  (∀ name, name ∈ added_pkgs packages →
     ∃ data, added_pkg_data packages !! name = Some (JObj data))
  ∧ (∀ name, is_Some (pkg_links packages !! name) → name ∈ added_pkgs packages).

(** ** Concrete runs

    The collaborators and inputs that the examples below are run on. *)

Module Sample.

(** A file system with the usual directories; the process runs in
    [/home/runner]. *)
Definition fs : FS.t :=
  FS.Make "/home/runner"
          (list_to_map [("/", FS.Dir); ("/tmp", FS.Dir); ("/home", FS.Dir);
                        ("/home/runner", FS.Dir)]).

(** An archive given by its entries, in order; [read] gives the data
    of the last entry of a name. *)
Definition zip (entries : list (string * FS.bytes)) : ZipFile :=
  ZipFile_ (map fst entries)
           (λ name, match list_find (λ e, e.1 = name) (reverse entries) with
                    | Some (_, e) => Ok e.2
                    | None => raise "KeyError" name
                    end).

Definition archive : FS.bytes := [Byte.x50; Byte.x4b; Byte.x03; Byte.x04].

(** The provider yields [info]; the download gives [archive], which
    opens as the entries [entries]; no checker is registered. *)
Definition env (info : PackageRecord) (entries : list (string * FS.bytes)) : Env :=
  Env_ (λ _, Yields "Foo" info) "/tmp/tmpab12cd34" (λ _, Fetched archive)
       (λ _, Ok (zip entries)) [].

(** The provider as it ends in [run]. *)
Definition env_of (run : provider_run) : Env :=
  Env_ (λ _, run) "/tmp/tmpab12cd34" (λ _, Fetched archive) (λ _, Ok (zip [])) [].

Definition release (url : string) : Release := Release_ (JStr url) (JStr "*").

Definition info (name : string) (releases : list Release) (readme : option string)
  : PackageRecord :=
  PackageRecord_ (JStr name) releases readme.

Definition spec (releases : list json) : dict :=
  [("details", JStr "https://github.com/someone/Foo"); ("releases", JArr releases)].

Definition tags : json := JObj [("sublime_text", JStr "*"); ("tags", JBool true)].

Definition tab : string := String (ascii_of_nat 9) "".

Definition package (name : string) : json :=
  JObj [("name", JStr name); ("details", JStr ("https://github.com/someone/" +:+ name));
        ("releases", JArr [tags])].

End Sample.

(** The collaborators of a pull request whose manifests are [old] at
    the old revision and [new] at the current one, [git diff] giving
    [files_changed]: [git show] gives the revision and the file name,
    which [json.loads] takes for the manifest of that revision; an added
    repository holds [new]; [Request] takes a URL whose first colon
    comes after its start and before any slash, and refuses the others;
    the packages are tested with [tests] and the review endpoint answers
    [answer]. *)
Module SampleReview.

Definition has_scheme (url : string) : bool :=
  let colon := Str.find url ":" in
  let slash := Str.find url "/" in
  (0 <? colon) && ((slash =? -1) || (colon <? slash)).

Definition env_of (tests : Env) (answer : post_outcome)
    (old new : json) (files_changed : string) : PullRequestEnv :=
  PullRequestEnv_
    [("user_agent", JStr "Package Control Tests")]
    "/tmp/tmpzz99yy88"
    (λ cmd, match cmd with
            | ["git"; "diff"; _; _; _] => Ok (0, files_changed)
            | ["git"; "show"; version] => Ok (0, version)
            | _ => raise "FileNotFoundError" "No such file or directory"
            end)
    (λ text, if Str.startswith text "old:" then Ok old
             else if Str.startswith text "new:" then Ok new
             else raise "JSONDecodeError" "Expecting value")
    elements
    (λ repo, RepositoryText "new:")
    tests
    (λ req, if has_scheme (req_url req) then None
            else Some (Exn "ValueError" [JStr "unknown url type"]))
    (λ req, answer).

(** The provider yields a package Foo without releases or readme, and
    the review endpoint answers 200. *)
Definition env : json → json → string → PullRequestEnv :=
  env_of (Sample.env (Sample.info "Foo" [] None) []) (Response (Some 200)).

Definition repository (packages : list json) : json :=
  JObj [("schema_version", JStr "3.0.0"); ("packages", JArr packages)].

Definition channel (repositories : list string) : json :=
  JObj [("schema_version", JStr "3.0.0"); ("repositories", JArr (JStr <$> repositories));
        ("packages", JArr [Sample.package "Foo"])].

Definition pr_url : string := "https://api.github.com/repos/wbond/channel/pulls/1".

End SampleReview.

(** * Properties *)

(** ** The primitives on examples *)

Example startswith_ex : Str.startswith "https://x" "https://" = true.
Proof. reflexivity. Qed.
Example endswith_ex : Str.endswith "foo/" "/" = true ∧ Str.endswith "" "/" = false.
Proof. split; reflexivity. Qed.
Example find_ex :
  Str.find "foo/a.txt" "/" = 3 ∧ Str.find "a.txt" "/" = -1 ∧ Str.find "" "/" = -1.
Proof. repeat split; reflexivity. Qed.
Example rfind_ex : Str.rfind "/a/b" "/" = 2 ∧ Str.rfind "ab" "/" = -1.
Proof. split; reflexivity. Qed.
Example slice_ex :
  Str.slice "foo/a.txt" 0 4 = "foo/" ∧ Str.slice_from "foo/a.txt" 4 = "a.txt"
  ∧ Str.slice_from "ab" 5 = "".
Proof. repeat split; reflexivity. Qed.
Example replace_ex :
  Str.replace "a--b--c" "--" "+" = "a+b+c" ∧ Str.replace "aaa" "aa" "" = "a"
  ∧ Str.replace "ab" "" "-" = "-a-b-".
Proof. repeat split; reflexivity. Qed.
Example split_ex :
  Str.split "/" "/a//b" = [""; "a"; ""; "b"] ∧ Str.split "/" "" = [""].
Proof. split; reflexivity. Qed.
Example lower_ex : Str.lower "SubLime Text_9" = "sublime text_9".
Proof. reflexivity. Qed.
Example join_ex :
  PosixPath.join "/tmp/t" "Foo" = "/tmp/t/Foo"
  ∧ PosixPath.join "/tmp/t/Foo" "" = "/tmp/t/Foo/"
  ∧ PosixPath.join "/tmp/t/Foo" "/etc/passwd" = "/etc/passwd".
Proof. repeat split; reflexivity. Qed.
Example normpath_ex :
  PosixPath.normpath "/tmp/t/Foo/" = "/tmp/t/Foo"
  ∧ PosixPath.normpath "/tmp/t/Foo/a/./b//c/.." = "/tmp/t/Foo/a/b"
  ∧ PosixPath.normpath "/tmp/t/Foo/.." = "/tmp/t"
  ∧ PosixPath.normpath "/../x" = "/x"
  ∧ PosixPath.normpath "//x" = "//x"
  ∧ PosixPath.normpath "///x" = "/x"
  ∧ PosixPath.normpath "a/../.." = ".."
  ∧ PosixPath.normpath "" = ".".
Proof. repeat split; reflexivity. Qed.
Example dirname_ex :
  PosixPath.dirname "/tmp/t/Foo/a.txt" = "/tmp/t/Foo"
  ∧ PosixPath.dirname "/x" = "/" ∧ PosixPath.dirname "x" = ""
  ∧ PosixPath.basename "https://github.com/u/Pkg" = "Pkg"
  ∧ PosixPath.basename "a/" = "".
Proof. repeat split; reflexivity. Qed.

Example dumps_ex :
  Json.dumps (JArr [JInt 1; JInt (-20); JBool true; JNull; JObj []; JArr []])
  = "[1, -20, true, null, {}, []]"
  ∧ Json.dumps (JObj [("name", JStr "A"); ("labels", JArr [JStr "x"; JStr "y"])])
    = "{" +:+ dq +:+ "name" +:+ dq +:+ ": " +:+ dq +:+ "A" +:+ dq +:+ ", "
      +:+ dq +:+ "labels" +:+ dq +:+ ": [" +:+ dq +:+ "x" +:+ dq +:+ ", "
      +:+ dq +:+ "y" +:+ dq +:+ "]}"
  ∧ Json.dumps (JStr (String (ascii_of_nat 233) (String (ascii_of_nat 10) backslash)))
    = dq +:+ backslash +:+ "u00e9" +:+ backslash +:+ "n" +:+ backslash +:+ backslash
      +:+ dq.
Proof. repeat split; vm_compute; reflexivity. Qed.

Example reconcile_removals_ex :
  reconcile [Sample.package "A"; Sample.package "B"; Sample.package "C"]
            [Sample.package "A"; Sample.package "D"] empty_diff
  = Ok (DiffSet_ ∅ ∅ {["B"; "C"]} ∅ ∅).
Proof. vm_compute. reflexivity. Qed.

Example splitlines_ex :
  Lines.splitlines ("M" +:+ Sample.tab +:+ "channel.json" +:+ String (ascii_of_nat 10)
                    ("A" +:+ Sample.tab +:+ "x" +:+ String (ascii_of_nat 13)
                       (String (ascii_of_nat 10) "")))
  = ["M" +:+ Sample.tab +:+ "channel.json"; "A" +:+ Sample.tab +:+ "x"]
  ∧ Lines.splitlines "" = []
  ∧ Lines.split_ws ("M" +:+ Sample.tab +:+ " a b") = ["M"; "a b"]
  ∧ Lines.split_ws "M" = ["M"]
  ∧ Lines.split_ws " M" = [""; "M"]
  ∧ Lines.split_ws "" = [""].
Proof. repeat split; reflexivity. Qed.

(** The removal of one occurrence of the phrase can bring about another. *)
Example clean_message_ex :
  clean_message (Exn "ProviderException"
                     [JStr (" in the repository https://exam" +:+ phrase +:+ "ple.com")])
  = Ok phrase
  ∧ clean_message (Exn "KeyError" []) = raise "IndexError" "tuple index out of range"
  ∧ fetch_package_metadata (Sample.env_of (Exhausted [("https://example.com", Exn "OSError" [JInt 2])] []))
                           (Sample.spec [])
    = Ok (Failure "'int' object has no attribute 'replace'").
Proof. repeat split; reflexivity. Qed.

(** ** The verdict of a run *)

Lemma build_result_verdict errors warnings :
  tr_result (build_result errors warnings) =
    if bool_decide (errors = []) then
      if bool_decide (warnings = []) then "success" else "warnings"
    else "errors".
Proof. unfold build_result. by repeat case_bool_decide. Qed.

Lemma build_result_errors errors warnings :
  tr_errors (build_result errors warnings) = errors
  ∧ tr_warnings (build_result errors warnings) = warnings.
Proof. done. Qed.

Lemma built_build_result errors warnings : built (build_result errors warnings).
Proof. done. Qed.

#[local] Hint Resolve built_build_result : core.

Lemma scan_namelist_built errors warnings names root_level_paths last_path r :
  scan_namelist errors warnings names root_level_paths last_path = Ok (Return r) →
  built r.
Proof.
  revert root_level_paths last_path.
  induction names as [|path names IH]; intros rlp lp; simpl; [done|].
  destruct (Str.head _) as [c|]; simpl; [|done].
  case_match; [intros; simplify_eq; done|]. apply IH.
Qed.

Lemma root_level_built errors warnings names r :
  root_level errors warnings names = Ok (Return r) → built r.
Proof.
  unfold root_level.
  destruct (scan_namelist _ _ _ _ _) as [[[rlp lp]|r']|] eqn:Hscan; simpl; [| |done].
  - repeat case_match; done.
  - intros; simplify_eq. by eapply scan_namelist_built.
Qed.

Lemma extract_built dir zipname archive package_zip rlp errors warnings names fs fs' r :
  extract dir zipname archive package_zip rlp errors warnings names fs
    = (fs', Ok (Return r)) →
  built r.
Proof.
  revert fs. induction names as [|path names IH]; intros fs; simpl; [done|].
  destruct (destination _ _ _ _); [|done].
  case_match; [intros; simplify_eq; done|].
  destruct (extract_entry _ _ _ _ _ _) as [fs1 [[]|]]; [apply IH|done].
Qed.

Lemma test_archive_built env spec info dir zipname archive package_zip errors warnings
    fs fs' r :
  test_archive env spec info dir zipname archive package_zip errors warnings fs
    = (fs', Ok r) →
  built r.
Proof.
  unfold test_archive.
  destruct (root_level _ _ _) as [[rlp|r']|] eqn:Hroot; [| |done].
  - destruct (extract _ _ _ _ _ _ _ _ _) as [fs1 [[[]|r']|]] eqn:Hextract; [| |done].
    + destruct (run_checkers _ _ _ _ _ _ _) as [[errors' warnings']|]; simpl; [|done].
      intros; simplify_eq; done.
    + intros; simplify_eq. by eapply extract_built.
  - intros; simplify_eq. by eapply root_level_built.
Qed.

Lemma test_download_built env spec info name url errors warnings fs fs' r :
  test_download env spec info name url errors warnings fs = (fs', Ok r) → built r.
Proof.
  unfold test_download. case_match; [intros; simplify_eq; done|].
  destruct (FS.mkdir _ _); [|done].
  destruct (FS.open_wb _ _); [|done].
  destruct (fetch _ _); [|intros; simplify_eq; done|done].
  destruct (open_zip _ _); [|done].
  apply test_archive_built.
Qed.

Lemma run_tests_built env spec fs fs' r :
  run_tests env spec fs = (fs', Ok r) → built r.
Proof.
  unfold run_tests.
  destruct (fetch_package_metadata _ _) as [[|info|message]|]; [done| |by intros; simplify_eq|done].
  destruct (info_name info); try by (intros; simplify_eq).
  case_match; [by intros; simplify_eq|].
  destruct (structural_rules _ _ _) as [[errors warnings]|]; [|done].
  destruct (info_releases info) as [|release rest]; [by intros; simplify_eq|].
  destruct (release_url release); try by (intros; simplify_eq).
  case_match; [by intros; simplify_eq|].
  destruct (test_download _ _ _ _ _ _ _ _) as [fs1 r1] eqn:Hdl.
  intros; simplify_eq. by eapply test_download_built.
Qed.

Lemma report_lines_formatted label reports :
  Forall formatted reports →
  ∃ lines, report_lines label reports = Ok lines.
Proof.
  induction 1 as [|f reports [r ->] _ [lines IH]]; simpl; [by eexists|].
  rewrite IH. simpl. by eexists.
Qed.

(** The results of a package are added to the review when its findings
    are formatted. *)
Lemma add_test_results_total name r st :
  Forall formatted (tr_errors r) →
  Forall formatted (tr_warnings r) →
  ∃ st', add_test_results name r st = Ok st'.
Proof.
  intros [errors_lines Herrors]%(report_lines_formatted "ERROR")
         [warnings_lines Hwarnings]%(report_lines_formatted "WARNING").
  unfold add_test_results. rewrite Herrors, Hwarnings.
  destruct (String.eqb _ _); [by eexists|].
  destruct (bool_decide (tr_errors r = [])), (bool_decide (tr_warnings r = []));
    simpl; by eexists.
Qed.

(** The flags after the results of one package are added. *)
Lemma add_test_results_flags name r st st' :
  built r →
  add_test_results name r st = Ok st' →
  errors st' = errors st || negb (bool_decide (tr_errors r = []))
  ∧ warnings st' = warnings st || negb (bool_decide (tr_warnings r = [])).
Proof.
  intros Hbuilt. unfold add_test_results.
  assert (Hres := build_result_verdict (tr_errors r) (tr_warnings r)).
  rewrite <- Hbuilt in Hres. rewrite Hres.
  destruct (bool_decide (tr_errors r = [])), (bool_decide (tr_warnings r = []));
    simpl; intros H.
  - simplify_eq; simpl. by rewrite !orb_false_r.
  - destruct (report_lines _ _); simplify_eq/=. by rewrite orb_false_r, orb_true_r.
  - destruct (report_lines _ _); simplify_eq/=. by rewrite orb_false_r, orb_true_r.
  - destruct (report_lines "ERROR" _); simplify_eq/=.
    destruct (report_lines "WARNING" _); simplify_eq/=. by rewrite !orb_true_r.
Qed.

(** The verdict of a run whose findings are formatted. A result that
    [run_tests] returns is "errors" when it holds an error, whatever its
    warnings, "warnings" when it holds warnings only, and "success" when
    it holds neither; and its findings, when they are formatted, are
    added to the review, whose status is then ERROR when an error was
    found, WARNING when only warnings were, and SUCCESS when nothing
    was. *)
Theorem verdict_of_findings env spec fs fs' r name st :
  run_tests env spec fs = (fs', Ok r) →
  Forall formatted (tr_errors r ++ tr_warnings r) →
  ∃ st',
    add_test_results name r st = Ok st'
    ∧ (tr_errors r ≠ [] →
         tr_result r = "errors"
         ∧ review_status (verdict (errors st') (warnings st')) = "ERROR")
    ∧ (tr_errors r = [] → tr_warnings r ≠ [] →
         tr_result r = "warnings"
         ∧ (errors st = false →
            review_status (verdict (errors st') (warnings st')) = "WARNING"))
    ∧ (tr_errors r = [] → tr_warnings r = [] →
         tr_result r = "success"
         ∧ (errors st = false → warnings st = false →
            review_status (verdict (errors st') (warnings st')) = "SUCCESS")).
Proof.
  intros Hrun [Herrors Hwarnings]%Forall_app.
  destruct (add_test_results_total name r st Herrors Hwarnings) as [st' Hadd].
  exists st'. split; [done|].
  assert (Hbuilt := run_tests_built _ _ _ _ _ Hrun).
  destruct (add_test_results_flags _ _ _ _ Hbuilt Hadd) as [-> ->].
  assert (Hres := build_result_verdict (tr_errors r) (tr_warnings r)).
  rewrite <- Hbuilt in Hres. rewrite Hres. clear.
  destruct (tr_errors r), (tr_warnings r); simpl;
    repeat split; intros; simplify_eq; try done;
    destruct (errors st), (warnings st); done.
Qed.

Lemma verdict_of_findings_witness :
  let env := Sample.env (Sample.info "Foo" [] None) [] in
  let st := Review_ [] false false in
  let r := build_result
             [msg "No releases specified"]
             [msg "Creating a readme for your package will help users understand what it does and how to use it"] in
  run_tests env (Sample.spec []) Sample.fs = (Sample.fs, Ok r)
  ∧ ∃ st', add_test_results "Foo" r st = Ok st'
           ∧ tr_result r = "errors"
           ∧ review_status (verdict (errors st') (warnings st')) = "ERROR".
Proof.
  intros env st r.
  assert (Hrun : run_tests env (Sample.spec []) Sample.fs = (Sample.fs, Ok r))
    by reflexivity.
  split; [exact Hrun|].
  destruct (verdict_of_findings env (Sample.spec []) Sample.fs Sample.fs r "Foo" st Hrun)
    as (st' & Hadd & Herrors & _).
  { repeat constructor; by eexists. }
  exists st'. split; [exact Hadd|]. by apply Herrors.
Defined.

(** The error of the rule on the word sublime is a str, not a formatted
    finding: [run_tests] returns it, and the report of the pull request
    cannot be written. *)
Example sublime_error_is_not_formatted :
  let env := Sample.env (Sample.info "Sublime Foo" [] (Some "README.md")) [] in
  let r := build_result
             [Raw ("Package name contains the word " +:+ dq +:+ "sublime" +:+ dq);
              msg "No releases specified"] [] in
  run_tests env (Sample.spec []) Sample.fs = (Sample.fs, Ok r)
  ∧ add_test_results "Sublime Foo" r (Review_ [] false false)
    = raise "TypeError" "string indices must be integers".
Proof. split; reflexivity. Qed.

(** C4 does not hold of the code: a run with an error finding can end
    without any verdict. The rule on the word sublime appends its error
    as a bare str (line 73), where the rules next to it append
    [format_report(...)]. For a pull request that adds the package
    Sublime Foo, [run_tests] returns a result with two errors and the
    verdict "errors"; [test_pull_request] then reads [report['message']]
    on the str and raises a TypeError: no review status is computed, and
    no review is posted. *)
Theorem unformatted_error_gives_no_verdict :
  let name := "Sublime Foo" in
  let data := [("name", JStr name);
               ("details", JStr "https://github.com/someone/Sublime Foo");
               ("releases", JArr [Sample.tags])] in
  let tests := Sample.env (Sample.info name [] (Some "README.md")) [] in
  let r := build_result
             [Raw ("Package name contains the word " +:+ dq +:+ "sublime" +:+ dq);
              msg "No releases found; check to ensure you have created a valid semver tag"]
             [] in
  let old := SampleReview.repository [Sample.package "A"] in
  let new := SampleReview.repository [Sample.package "A"; Sample.package name] in
  let env := SampleReview.env_of tests (Response (Some 200)) old new
               ("M" +:+ Sample.tab +:+ "repository/s.json") in
  Sample.package name = JObj data
  ∧ run_tests tests data Sample.fs = (Sample.fs, Ok r)
  ∧ tr_result r = "errors"
  ∧ add_test_results name r (Review_ [] false false)
    = raise "TypeError" "string indices must be integers"
  ∧ test_pull_request env SampleReview.pr_url "old" "new" "TOKEN" Sample.fs
    = (Sample.fs, [], raise "TypeError" "string indices must be integers").
Proof. repeat split; reflexivity. Qed.

(** ** The review event *)

(** C5. Whatever the verdict (ERROR, WARNING or SUCCESS), the data
    posted to the review endpoint carries the event REQUEST_CHANGES: the
    event derived from the verdict is not read when the data are built,
    which stay the same when that event is replaced by any other. *)
Theorem review_event_always_request_changes
    (post : string → ReviewData → post_outcome) pr_url pkg_links added_pkgs st :
  let v := verdict (errors st) (warnings st) in
  let data := review_data v pkg_links added_pkgs st in
  review_event data = "REQUEST_CHANGES"
  ∧ (∀ other_event,
       review_data (Verdict_ other_event (review_status v)) pkg_links added_pkgs st = data)
  ∧ publish post pr_url pkg_links added_pkgs st =
      match post (pr_url +:+ "/reviews") data with
      | Response (Some code) =>
          if negb (code =? 200)
          then Ok (error_500 ("Error posting review to PR - " +:+ pretty code))
          else Ok (PullRequestResult_ None "completed" "Checks ran successfully")
      | Response None =>
          raise "TypeError" "%d format: a real number is required, not NoneType"
      | URLError error => Ok (error_500 ("Error posting review to PR - " +:+ error))
      | OtherException e => Raise e
      end.
Proof. by destruct st as [? [] []]. Qed.

(** ** [fetch_package_metadata] falling through *)

(** C8. When the provider yields no package and both its
    [failed_sources] and its [broken_packages] are empty,
    [fetch_package_metadata] reaches its end and returns None, and
    [run_tests], which unpacks that value into two names, raises a
    TypeError instead of returning a result. *)
Theorem fetch_falls_through env spec fs :
  provider env spec = Exhausted [] [] →
  fetch_package_metadata env spec = Ok ReturnsNone
  ∧ ∃ e, run_tests env spec fs = (fs, Raise e) ∧ exn_class e = "TypeError".
Proof.
  intros Hrun. unfold run_tests, fetch_package_metadata. rewrite Hrun. simpl.
  split; [done|]. by eexists.
Qed.

Lemma fetch_falls_through_witness :
  let env := Sample.env_of (Exhausted [] []) in
  provider env (Sample.spec []) = Exhausted [] []
  ∧ fetch_package_metadata env (Sample.spec []) = Ok ReturnsNone
  ∧ ∃ e, run_tests env (Sample.spec []) Sample.fs = (Sample.fs, Raise e)
         ∧ exn_class e = "TypeError".
Proof.
  intros env. split; [reflexivity|].
  apply (fetch_falls_through env (Sample.spec []) Sample.fs). reflexivity.
Defined.

(** ** The structural rules of [run_tests] *)

(** What [run_tests] does once the provider has yielded [info] with the
    valid name [name]. *)
Lemma run_tests_valid_name env spec fs yielded info name :
  provider env spec = Yields yielded info →
  info_name info = JStr name →
  Str.contains name "/" = false →
  Str.contains name backslash = false →
  run_tests env spec fs =
    match structural_rules spec info name with
    | Raise e => (fs, Raise e)
    | Ok (errors, warnings) =>
        match info_releases info with
        | [] => (fs, Ok (build_result errors warnings))
        | release :: _ =>
            match release_url release with
            | JStr url =>
                if negb (Str.startswith url "https://") then
                  (fs, Ok (build_result
                             [msg "Primary release URL does not begin with https://"] []))
                else
                  let '(fs', r) :=
                    test_download env spec info name url errors warnings fs in
                  (cleanup (mkdtemp env) fs', r)
            | _ =>
                (fs, Ok (build_result
                           [msg "Primary release URL does not begin with https://"] []))
            end
        end
    end.
Proof.
  intros Hrun Hname Hslash Hback.
  unfold run_tests, fetch_package_metadata. rewrite Hrun. simpl.
  by rewrite Hname, Hslash, Hback.
Qed.

(** The structural rules raise no exception on a spec whose [releases]
    is a list of well-formed release sources. *)
Lemma release_sources_rules_total release_sources errors warnings :
  Forall well_formed_release_source release_sources →
  ∃ errors' warnings',
    release_sources_rules release_sources errors warnings = Ok (errors', warnings').
Proof.
  intros Hwf. revert errors warnings.
  induction Hwf as [|release_source rest (d & -> & Hplatforms) _ IH];
    intros errors warnings; [by eexists _, _|].
  cbn [release_sources_rules]. unfold release_source_rules. simpl.
  assert (∃ all_platforms,
            Py.set_eq_strs (from_option id (JArr []) (Py.lookup "platforms" d))
                           ["windows"; "osx"; "linux"] = Ok all_platforms)
    as [all_platforms ->].
  { destruct (Py.lookup "platforms" d) as [platforms|]; [|by eexists].
    destruct (Hplatforms platforms eq_refl) as (l & -> & Hstrs).
    unfold Py.set_eq_strs. simpl.
    rewrite (proj2 (forallb_forall Py.hashable l)); [by eexists|].
    intros x Hx%list_elem_of_In. rewrite Forall_forall in Hstrs.
    by destruct (Hstrs x Hx) as [s' ->]. }
  simpl. apply IH.
Qed.

Lemma structural_rules_total spec info name release_sources :
  Py.lookup "releases" spec = Some (JArr release_sources) →
  Forall well_formed_release_source release_sources →
  ∃ errors warnings, structural_rules spec info name = Ok (errors, warnings).
Proof.
  intros Hspec Hwf. unfold structural_rules, Py.getitem. rewrite Hspec.
  destruct (info_releases info) as [|release releases]; simpl.
  - repeat case_match; by eexists _, _.
  - edestruct release_sources_rules_total as (errors & warnings & ->); [done|].
    simpl. by eexists _, _.
Qed.

(** C7, as the specification states it, fails on a record without a
    readme: the result holds the error and a warning about the readme. *)
Lemma no_releases_counterexample :
  let info := Sample.info "Foo" [] None in
  let spec := Sample.spec [] in
  info_releases info = []
  ∧ Py.lookup "releases" spec = Some (JArr [])
  ∧ ∃ r, run_tests (Sample.env info []) spec Sample.fs = (Sample.fs, Ok r)
         ∧ tr_errors r = [msg "No releases specified"]
         ∧ tr_warnings r =
             [msg "Creating a readme for your package will help users understand what it does and how to use it"]
         ∧ tr_warnings r ≠ [].
Proof. repeat split. eexists. repeat split. discriminate. Qed.

(** C7, amended. For a spec whose resolved record has a valid name
    without the word sublime, a readme and no releases, and whose own
    [releases] value is empty, [run_tests] returns the verdict "errors"
    with the one error "No releases specified" and no warning; nothing is
    downloaded, extracted or checked: the file system is left as it was,
    whatever the download, the archive and the checkers would give. *)
Theorem no_releases_specified env spec fs yielded info name declared readme :
  provider env spec = Yields yielded info →
  info_name info = JStr name →
  Str.contains name "/" = false →
  Str.contains name backslash = false →
  Str.contains (Str.lower name) "sublime" = false →
  info_readme info = Some readme →
  info_releases info = [] →
  Py.lookup "releases" spec = Some declared →
  Py.truthy declared = false →
  run_tests env spec fs =
    (fs, Ok (TestResult_ "errors" [msg "No releases specified"] [])).
Proof.
  intros Hrun Hname Hslash Hback Hsublime Hreadme Hreleases Hspec Hfalsy.
  rewrite (run_tests_valid_name _ _ _ _ _ _ Hrun Hname Hslash Hback).
  unfold structural_rules, Py.getitem.
  by rewrite Hsublime, Hreleases, Hspec, Hreadme; simpl; rewrite Hfalsy.
Qed.

Lemma no_releases_specified_witness :
  let info := Sample.info "Foo" [] (Some "README.md") in
  let spec := Sample.spec [] in
  provider (Sample.env info []) spec = Yields "Foo" info
  ∧ Py.lookup "releases" spec = Some (JArr [])
  ∧ run_tests (Sample.env info []) spec Sample.fs =
      (Sample.fs, Ok (TestResult_ "errors" [msg "No releases specified"] [])).
Proof.
  intros info spec. split; [reflexivity|]. split; [reflexivity|].
  apply (no_releases_specified (Sample.env info []) spec Sample.fs "Foo" info "Foo"
           (JArr []) "README.md"); reflexivity.
Defined.

(** C9, as stated, fails on a record whose name is not valid: the only
    error returned is the one about the name. *)
Lemma insecure_url_counterexample :
  let info := Sample.info "Foo/Bar" [Sample.release "http://example.org/Foo.zip"] None in
  let spec := Sample.spec [Sample.tags] in
  (∃ release rest, info_releases info = release :: rest
     ∧ release_url release = JStr "http://example.org/Foo.zip"
     ∧ Str.startswith "http://example.org/Foo.zip" "https://" = false)
  ∧ run_tests (Sample.env info []) spec Sample.fs =
      (Sample.fs, Ok (TestResult_ "errors" [msg "Invalid package name"] []))
  ∧ [msg "Invalid package name"]
      ≠ [msg "Primary release URL does not begin with https://"].
Proof. split; [by eexists _, _|]. split; [reflexivity|discriminate]. Qed.

(** C9, amended. For a spec whose resolved record has a valid name and
    at least one release, whose primary release url is not a str that
    starts with https://, and on which the structural rules raise no
    exception, [run_tests] returns the single error about the url and no
    warning: the errors and warnings that the structural rules had
    collected are not in the result. *)
Theorem insecure_url_discards_findings
    env spec fs yielded info name release rest errors warnings :
  provider env spec = Yields yielded info →
  info_name info = JStr name →
  Str.contains name "/" = false →
  Str.contains name backslash = false →
  info_releases info = release :: rest →
  (∀ url, release_url release = JStr url → Str.startswith url "https://" = false) →
  structural_rules spec info name = Ok (errors, warnings) →
  run_tests env spec fs =
    (fs, Ok (TestResult_ "errors"
               [msg "Primary release URL does not begin with https://"] [])).
Proof.
  intros Hrun Hname Hslash Hback Hreleases Hurl Hrules.
  rewrite (run_tests_valid_name _ _ _ _ _ _ Hrun Hname Hslash Hback).
  rewrite Hrules, Hreleases.
  destruct (release_url release) as [| | |url| |] eqn:Hrelease; try done.
  by rewrite (Hurl url).
Qed.

Lemma insecure_url_discards_findings_witness :
  let release := Sample.release "http://example.org/Foo.zip" in
  let info := Sample.info "Sublime Foo" [release] None in
  let spec := Sample.spec [JObj [("branch", JStr "master"); ("platforms", JArr [JStr "*"])]] in
  (∃ errors warnings,
     structural_rules spec info "Sublime Foo" = Ok (errors, warnings)
     ∧ length errors = 2%nat ∧ length warnings = 2%nat)
  ∧ run_tests (Sample.env info []) spec Sample.fs =
      (Sample.fs, Ok (TestResult_ "errors"
                        [msg "Primary release URL does not begin with https://"] [])).
Proof.
  intros release info spec. split; [by eexists _, _|].
  refine (insecure_url_discards_findings (Sample.env info []) spec Sample.fs "Foo" info
            "Sublime Foo" release [] _ _ _ _ _ _ _ _ _);
    [reflexivity..| |reflexivity].
  intros url [= <-]. reflexivity.
Defined.

(** ** Facts about [str] *)

Section str_facts.
Implicit Types (s p r : string) (a : ascii).

Lemma str_app_cons a s r : String a s +:+ r = String a (s +:+ r).
Proof. done. Qed.

Lemma str_app_nil_l s : "" +:+ s = s.
Proof. done. Qed.

Lemma str_app_nil_r s : s +:+ "" = s.
Proof. induction s as [|a s IH]; [done|]. by rewrite str_app_cons, IH. Qed.

Lemma str_app_assoc s p r : (s +:+ p) +:+ r = s +:+ (p +:+ r).
Proof. induction s as [|a s IH]; [done|]. by rewrite !str_app_cons, IH. Qed.

Lemma str_length_app s r :
  String.length (s +:+ r) = (String.length s + String.length r)%nat.
Proof. induction s as [|a s IH]; [done|]. rewrite str_app_cons. simpl. by rewrite IH. Qed.

Lemma startswith_app p r : Str.startswith (p +:+ r) p = true.
Proof.
  induction p as [|a p IH]; [done|]. rewrite str_app_cons. simpl.
  by rewrite Ascii.eqb_refl.
Qed.

Lemma startswith_spec s p : Str.startswith s p = true ↔ ∃ r, s = p +:+ r.
Proof.
  split; [|intros [r ->]; apply startswith_app].
  revert s. induction p as [|a p IH]; intros s; simpl; [by exists s|].
  destruct s as [|b s]; [done|].
  destruct (Ascii.eqb_spec a b) as [->|]; [|done].
  intros [r ->]%IH. by exists r.
Qed.

Lemma str_drop_app p r : Str.drop (String.length p) (p +:+ r) = r.
Proof. induction p as [|a p IH]; [by destruct r|]. by rewrite str_app_cons. Qed.

Lemma str_take_app p r : Str.take (String.length p) (p +:+ r) = p.
Proof. induction p as [|a p IH]; [by destruct r|]. rewrite str_app_cons. simpl. by rewrite IH. Qed.

Lemma str_app_inv_tail s p r : s +:+ r = p +:+ r → s = p.
Proof.
  revert p. induction s as [|a s IH]; intros [|b p] Heq; [done| | |].
  - apply (f_equal String.length) in Heq.
    rewrite str_app_nil_l, str_length_app in Heq. simpl in Heq. lia.
  - apply (f_equal String.length) in Heq.
    rewrite str_app_nil_l, str_length_app in Heq. simpl in Heq. lia.
  - rewrite !str_app_cons in Heq. injection Heq as -> Heq. f_equal. by apply IH.
Qed.

End str_facts.

Section find_facts.
Implicit Types (s sub pre post : string).

Lemma find_from_spec s sub i :
  Str.find_from s sub i = -1
  ∨ ∃ pre post, s = pre +:+ sub +:+ post ∧ Str.find_from s sub i = i + Str.len pre.
Proof.
  revert i. induction s as [|a s IH]; intros i; simpl.
  - destruct (Str.startswith "" sub) eqn:Hstart; [|by left].
    apply startswith_spec in Hstart as [r Hr]. right. exists "", r.
    split; [done|]. unfold Str.len. simpl. lia.
  - destruct (Str.startswith (String a s) sub) eqn:Hstart.
    + apply startswith_spec in Hstart as [r Hr]. right. exists "", r.
      split; [done|]. unfold Str.len. simpl. lia.
    + destruct (IH (i + 1)) as [Hnone|(pre & post & -> & Hfind)]; [by left|].
      right. exists (String a pre), post. split; [done|].
      rewrite Hfind. unfold Str.len. simpl. lia.
Qed.

Lemma find_from_lower s sub i : Str.find_from s sub i = -1 ∨ i ≤ Str.find_from s sub i.
Proof.
  destruct (find_from_spec s sub i) as [|(pre & post & _ & ->)]; [by left|right].
  unfold Str.len. lia.
Qed.

Lemma find_from_none s sub i pre post :
  0 ≤ i → Str.find_from s sub i = -1 → s ≠ pre +:+ sub +:+ post.
Proof.
  intros Hi Hfind ->. revert i Hi Hfind.
  induction pre as [|a pre IH]; intros i Hi.
  - rewrite str_app_nil_l. destruct (sub +:+ post) eqn:Heq; simpl;
      rewrite <- Heq, startswith_app; lia.
  - rewrite str_app_cons. simpl. case_match; [lia|]. apply IH. lia.
Qed.

Lemma contains_spec s sub :
  Str.contains s sub = true ↔ ∃ pre post, s = pre +:+ sub +:+ post.
Proof.
  unfold Str.contains, Str.find. split.
  - intros Hfind%Z.leb_le.
    destruct (find_from_spec s sub 0) as [Hnone|(pre & post & -> & _)]; [lia|eauto].
  - intros (pre & post & ->). apply Z.leb_le.
    destruct (find_from_lower (pre +:+ sub +:+ post) sub 0) as [Hnone|]; [|done].
    by destruct (find_from_none _ _ 0 pre post ltac:(done) Hnone).
Qed.

Lemma bound_nonneg s i :
  0 ≤ i → Str.bound s i = (Z.to_nat i `min` String.length s)%nat.
Proof. intros Hi. unfold Str.bound, Str.len. destruct (Z.ltb_spec i 0); lia. Qed.

Lemma slice_to_found s sub :
  Str.find s sub ≠ -1 →
  ∃ pre post, s = pre +:+ sub +:+ post
              ∧ Str.slice s 0 (Str.find s sub + Str.len sub) = pre +:+ sub.
Proof.
  unfold Str.find. intros Hfound.
  destruct (find_from_spec s sub 0) as [|(pre & post & -> & ->)]; [done|].
  exists pre, post. split; [done|].
  unfold Str.slice. rewrite !bound_nonneg by (unfold Str.len; lia).
  rewrite Nat.min_0_l, Nat.sub_0_r. simpl.
  replace (_ `min` _)%nat with (String.length (pre +:+ sub))
    by (unfold Str.len; rewrite !str_length_app; lia).
  rewrite <- str_app_assoc. apply str_take_app.
Qed.

Lemma endswith_app s p : Str.endswith (s +:+ p) p = true.
Proof.
  unfold Str.endswith. rewrite str_length_app.
  replace (String.length s + String.length p - String.length p)%nat
    with (String.length s) by lia.
  rewrite str_drop_app, String.eqb_refl. apply andb_true_iff. split; [|done].
  apply Nat.leb_le. lia.
Qed.

End find_facts.

(** ** The fuel of [makedirs] *)

Section makedirs_facts.
Implicit Types (s p name : string) (fs : FS.t).

Lemma str_length_take n s :
  String.length (Str.take n s) = (n `min` String.length s)%nat.
Proof. revert s. induction n as [|n IH]; intros [|a s]; simpl; auto. Qed.

Lemma str_length_drop n s :
  String.length (Str.drop n s) = (String.length s - n)%nat.
Proof. revert s. induction n as [|n IH]; intros [|a s]; simpl; auto. Qed.

Lemma str_length_rstrip c s :
  (String.length (Str.rstrip_char c s) ≤ String.length s)%nat.
Proof.
  induction s as [|a s IH]; simpl; [done|].
  destruct (Str.rstrip_char c s); [destruct (Ascii.eqb a c)|]; simpl in *; lia.
Qed.

Lemma bound_le s i : (Str.bound s i ≤ String.length s)%nat.
Proof. unfold Str.bound, Str.len. destruct (i <? 0); lia. Qed.

Lemma dirname_length p :
  (String.length (PosixPath.dirname p) ≤ String.length p)%nat.
Proof.
  unfold PosixPath.dirname.
  assert (String.length (Str.slice p 0 (Str.rfind p "/" + 1)) ≤ String.length p)%nat as Hle.
  { unfold Str.slice. rewrite str_length_take, str_length_drop.
    pose proof (bound_le p (Str.rfind p "/" + 1)). lia. }
  destruct (_ && _); [|done].
  etrans; [apply str_length_rstrip|done].
Qed.

Lemma rfind_from_lower s sub i : -1 ≤ i → -1 ≤ Str.rfind_from s sub i.
Proof.
  revert i. induction s as [|a s IH]; intros i Hi; simpl.
  - destruct (Str.startswith "" sub); lia.
  - destruct (Str.rfind_from s sub (i + 1) <? 0) eqn:Hlater.
    + destruct (Str.startswith _ sub); lia.
    + apply IH. lia.
Qed.

Lemma str_length_zero s : String.length s = 0%nat → s = "".
Proof. by destruct s. Qed.

Lemma dirname_shorter p :
  PosixPath.basename p ≠ "" →
  (String.length (PosixPath.dirname p) < String.length p)%nat.
Proof.
  unfold PosixPath.basename, PosixPath.dirname, Str.slice_from, Str.slice.
  set (i := Str.rfind p "/" + 1). intros Htail.
  assert (Str.bound p i < String.length p)%nat as Hlt.
  { destruct (decide (Str.bound p i < String.length p)%nat) as [|Hge]; [done|].
    destruct Htail. apply str_length_zero. rewrite str_length_drop. lia. }
  assert (String.length (Str.take (Str.bound p i - Str.bound p 0)
                           (Str.drop (Str.bound p 0) p)) < String.length p)%nat as Hhead.
  { rewrite str_length_take, str_length_drop. lia. }
  destruct (_ && _); [|done].
  eapply Nat.le_lt_trans; [apply str_length_rstrip|done].
Qed.

(** With the length of the name for fuel, [makedirs_go] does not run out
    of it: the error it may raise is one of [os.mkdir]. *)
Lemma makedirs_go_fuel fuel fs name e :
  (String.length name ≤ fuel)%nat →
  FS.makedirs_go fuel fs name = Raise e →
  exn_class e ≠ "RecursionError".
Proof.
  assert (∀ fs name e, FS.mkdir fs name = Raise e → exn_class e ≠ "RecursionError")
    as Hmkdir.
  { intros fs' name' e'. unfold FS.mkdir, raise.
    repeat case_match; intros; by simplify_eq. }
  revert fs name e. induction fuel as [|fuel IH]; intros fs name e Hlen.
  - destruct name; [|simpl in Hlen; lia]. apply Hmkdir.
  - cbn [FS.makedirs_go]. unfold FS.split.
    destruct (String.eqb (PosixPath.basename name) "") eqn:Htail.
    + destruct (negb _ && negb (String.eqb (PosixPath.basename (PosixPath.dirname name)) "")
                && _) eqn:Hcond; [|apply Hmkdir].
      apply andb_prop in Hcond as [[_ Htail'%negb_true_iff%String.eqb_neq]%andb_prop _].
      pose proof (dirname_shorter _ Htail'). pose proof (dirname_length name).
      destruct (FS.makedirs_go fuel fs _) as [fs'|e'] eqn:Hrec; simpl.
      * case_match; [done|apply Hmkdir].
      * destruct (String.eqb (exn_class e') "FileExistsError"); simpl.
        -- case_match; [done|apply Hmkdir].
        -- intros [= <-]. eapply IH; [|done]. lia.
    + destruct (negb _ && negb (String.eqb (PosixPath.basename name) "") && _) eqn:Hcond;
        [|apply Hmkdir].
      apply String.eqb_neq in Htail. pose proof (dirname_shorter _ Htail).
      destruct (FS.makedirs_go fuel fs _) as [fs'|e'] eqn:Hrec; simpl.
      * case_match; [done|apply Hmkdir].
      * destruct (String.eqb (exn_class e') "FileExistsError"); simpl.
        -- case_match; [done|apply Hmkdir].
        -- intros [= <-]. eapply IH; [|done]. lia.
Qed.

(** [os.makedirs] on the model does not fail for want of fuel. *)
Lemma makedirs_fuel fs name e :
  FS.makedirs fs name = Raise e → exn_class e ≠ "RecursionError".
Proof. by apply makedirs_go_fuel. Qed.

End makedirs_facts.

(** ** Extraction of the archive *)

(** The first loop refuses a path that begins with a slash or holds
    [../], whatever comes after it in the archive: the second loop is
    not entered. *)
Lemma scan_namelist_refuses errors warnings names root_level_paths last_path path :
  path ∈ names →
  Str.startswith (normalize path) "/" || Str.contains (normalize path) "../" = true →
  ∀ paths, scan_namelist errors warnings names root_level_paths last_path
           ≠ Ok (Continue paths).
Proof.
  intros Hin Hbad. revert root_level_paths last_path.
  induction names as [|path' names IH]; intros rlp lp paths; [by inversion Hin|].
  simpl. fold (normalize path').
  destruct (Str.head (normalize path')) as [c|] eqn:Hhead; simpl; [|done].
  apply elem_of_cons in Hin as [<-|Hin].
  - destruct (normalize path) as [|c' rest]; [done|]. simpl in Hhead. simplify_eq.
    cbn [Str.startswith] in Hbad. rewrite (Ascii.eqb_sym "/" c) in Hbad.
    destruct (Ascii.eqb c "/"); simpl in *; [done|]. by rewrite Hbad.
  - case_match; [done|]. by apply IH.
Qed.

Lemma root_level_refuses errors warnings names path :
  path ∈ names →
  Str.startswith (normalize path) "/" || Str.contains (normalize path) "../" = true →
  ∀ paths, root_level errors warnings names ≠ Ok (Continue paths).
Proof.
  intros Hin Hbad paths. unfold root_level.
  destruct (scan_namelist _ _ _ _ _) as [[[rlp lp]|r]|] eqn:Hscan; simpl; [|done..].
  by destruct (scan_namelist_refuses _ _ _ _ _ _ Hin Hbad _ Hscan).
Qed.

(** Once a destination is refused, the loop stops: the file system is
    the one the loop had reached and the entries that follow are not
    looked at. *)
Lemma extract_stops_at_refusal dir zipname archive package_zip rlp errors warnings
    path names fs dest :
  destination (FS.cwd fs) dir rlp path = Ok dest →
  Str.startswith dest dir = false →
  extract dir zipname archive package_zip rlp errors warnings (path :: names) fs
    = (fs, Ok (Return (build_result (errors ++ [traversal_error path]) warnings))).
Proof. intros Hdest Hout. simpl. by rewrite Hdest, Hout. Qed.

(** An archive with such a path is not extracted at all: [run_tests]
    leaves the block of the archive with the file system as it was. *)
Lemma test_archive_refuses env spec info dir zipname archive package_zip errors warnings
    fs path :
  path ∈ namelist package_zip →
  Str.startswith (normalize path) "/" || Str.contains (normalize path) "../" = true →
  ∃ r, test_archive env spec info dir zipname archive package_zip errors warnings fs
       = (fs, r).
Proof.
  intros Hin Hbad. unfold test_archive.
  destruct (root_level errors warnings (namelist package_zip)) as [[paths|res]|e] eqn:Hroot.
  - by destruct (root_level_refuses _ _ _ _ Hin Hbad _ Hroot).
  - by eexists.
  - by eexists.
Qed.

(** C1 does not hold of the code: the test of a destination is a test
    on the characters of the path, [dest.startswith(tmp_package_dir)],
    which a sibling of the destination directory passes. The archive
    with the one entry [b//tmp/tmpab12cd34/Foobar], extracted for the
    package Foo in the temporary directory [/tmp/tmpab12cd34], is taken
    for single-rooted; the path left after the root is absolute, and the
    entry is written to [/tmp/tmpab12cd34/Foobar], outside of the
    destination directory [/tmp/tmpab12cd34/Foo]. No error is reported. *)
Theorem extraction_writes_outside_destination :
  let data := [Byte.x65; Byte.x76; Byte.x69; Byte.x6c] in
  let entries := [("b//tmp/tmpab12cd34/Foobar", data)] in
  let url := "https://codeload.github.com/someone/Foo/zip/1.0.0" in
  let info := Sample.info "Foo" [Sample.release url] (Some "README.md") in
  let env := Sample.env info entries in
  let spec := Sample.spec [Sample.tags] in
  let tmp_package_dir := PosixPath.join (mkdtemp env) "Foo" in
  let written := "/tmp/tmpab12cd34/Foobar" in
  root_level [] [] (namelist (Sample.zip entries)) = Ok (Continue ["b/"])
  ∧ destination "/home/runner" tmp_package_dir ["b/"] "b//tmp/tmpab12cd34/Foobar"
    = Ok written
  ∧ tmp_package_dir = "/tmp/tmpab12cd34/Foo"
  ∧ FS.within tmp_package_dir written = false
  ∧ FS.lookup_node Sample.fs written = None
  ∧ (∃ fs', test_download env spec info "Foo" url [] [] Sample.fs
              = (fs', Ok (build_result [] []))
            ∧ FS.lookup_node fs' written = Some (FS.File data))
  ∧ run_tests env spec Sample.fs = (Sample.fs, Ok (build_result [] [])).
Proof.
  repeat split; try reflexivity. eexists. split; [vm_compute; reflexivity|reflexivity].
Qed.

(** ** Single-root detection *)

Lemma seen_root_level_cons path names :
  seen_root_level (path :: names) =
    if is_root_level (normalize path)
    then normalize path :: seen_root_level names
    else seen_root_level names.
Proof.
  unfold seen_root_level. rewrite fmap_cons, filter_cons.
  destruct (is_root_level (normalize path)); by case_decide.
Qed.

(** What the first loop has collected when it ends without a refusal. *)
Lemma scan_namelist_continue errors warnings names root_level_paths last_path paths last :
  scan_namelist errors warnings names root_level_paths last_path
    = Ok (Continue (paths, last)) →
  paths = root_level_paths ++ seen_root_level names
  ∧ last = from_option Some last_path (normalize <$> list.last names)
  ∧ Forall (λ path, normalize path ≠ "") names.
Proof.
  revert root_level_paths last_path.
  induction names as [|path names IH]; intros rlp lp; simpl.
  - intros [= <- <-]. by rewrite app_nil_r.
  - fold (normalize path).
    destruct (Str.head (normalize path)) as [c|] eqn:Hhead; simpl; [|done].
    case_match; [done|]. intros (-> & -> & Hall)%IH.
    rewrite seen_root_level_cons. fold (is_root_level (normalize path)).
    split; [|split].
    + destruct (is_root_level (normalize path)); [|done]. by rewrite <- app_assoc.
    + rewrite last_cons. by destruct (list.last names).
    + constructor; [|done]. by destruct (normalize path).
Qed.

Lemma root_level_continue errors warnings names paths :
  root_level errors warnings names = Ok (Continue paths) →
  paths = match seen_root_level names, list.last names with
          | [], Some last_path =>
              [Str.slice (normalize last_path) 0 (Str.find (normalize last_path) "/" + 1)]
          | seen, _ => seen
          end
  ∧ Forall (λ path, normalize path ≠ "") names.
Proof.
  unfold root_level.
  destruct (scan_namelist _ _ _ _ _) as [[[rlp lp]|r]|] eqn:Hscan; simpl; [|done..].
  apply scan_namelist_continue in Hscan as (-> & -> & Hall). simpl.
  intros Hpaths. split; [|done].
  destruct (list.last names) as [last_path|] eqn:Hlast; simpl in *.
  - assert (normalize last_path ≠ "") as Hne%String.eqb_neq.
    { apply last_Some in Hlast as [names' ->].
      by apply Forall_app in Hall as [_ [? _]%Forall_cons]. }
    rewrite Hne in Hpaths. simpl in Hpaths.
    destruct (seen_root_level names); simpl in *; by simplify_eq.
  - simplify_eq. by destruct (seen_root_level names).
Qed.

Lemma skip_root_dir_spec paths :
  skip_root_dir paths = true ↔ ∃ root, paths = [root] ∧ Str.endswith root "/" = true.
Proof.
  split.
  - destruct paths as [|root [|root' paths]]; simpl; [done| |done]. by exists root.
  - by intros (root & -> & Hdir).
Qed.

Lemma destination_spec cwd dir paths path :
  destination cwd dir paths path =
    Ok (PosixPath.abspath cwd
          (PosixPath.join dir
             (if skip_root_dir paths
              then Str.slice_from (normalize path) (Str.len (hd "" paths))
              else normalize path))).
Proof.
  unfold destination. fold (normalize path).
  destruct (skip_root_dir paths) eqn:Hskip; [|done].
  by apply skip_root_dir_spec in Hskip as (root & -> & _).
Qed.

(** The prefix that the fallback takes from a path that is not
    root-level ends with a slash. *)
Lemma fallback_root_is_directory path :
  is_root_level path = false →
  Str.endswith (Str.slice path 0 (Str.find path "/" + 1)) "/" = true.
Proof.
  intros Hroot. apply bool_decide_eq_false in Hroot.
  destruct (slice_to_found path "/") as (pre & post & _ & Hslice).
  { intros Hnone. apply Hroot. rewrite Hnone. set_solver. }
  change (Str.len "/") with 1 in Hslice. rewrite Hslice. apply endswith_app.
Qed.

(** An archive without an entry for its directory: no root-level entry
    is seen in [foo/a.txt]; the root is taken from the last path, and
    [foo/] is stripped. *)
Lemma single_root_counterexample :
  let names := ["foo/a.txt"] in
  seen_root_level names = []
  ∧ ¬ one_distinct_root_directory names
  ∧ root_level [] [] names = Ok (Continue ["foo/"])
  ∧ skip_root_dir ["foo/"] = true
  ∧ destination "/home/runner" "/tmp/tmpab12cd34/Foo" ["foo/"] "foo/a.txt"
    = Ok "/tmp/tmpab12cd34/Foo/a.txt".
Proof.
  repeat split; try reflexivity.
  intros (root & Hseen & _). change (seen_root_level ["foo/a.txt"]) with (@nil string) in Hseen.
  set_solver.
Qed.

(** What the code takes for a single-rooted archive. When the first
    loop ends without a refusal, the archive is taken for single-rooted
    exactly when one root-level entry was seen, entries seen twice
    counting twice, and it ends with a slash, or when no root-level
    entry was seen in an archive that is not empty, the root being then
    the part of the last path up to its first slash. A single-rooted
    archive loses as many characters as the root has at the start of
    every path; any other archive is extracted with its paths as they
    are. So [foo/] with [foo/a.txt] gives [a.txt] under the destination
    directory, and two root-level entries are extracted unmodified. *)
Theorem single_root_detection :
  (∀ errors warnings names paths,
     root_level errors warnings names = Ok (Continue paths) →
     (skip_root_dir paths = true ↔
        (∃ root, seen_root_level names = [root] ∧ Str.endswith root "/" = true)
        ∨ (seen_root_level names = [] ∧ names ≠ []))
     ∧ (seen_root_level names ≠ [] → paths = seen_root_level names)
     ∧ (seen_root_level names = [] →
        ∀ last_path, last names = Some last_path →
          paths = [Str.slice (normalize last_path) 0
                             (Str.find (normalize last_path) "/" + 1)])
     ∧ (∀ cwd dir path,
          destination cwd dir paths path =
            Ok (PosixPath.abspath cwd
                  (PosixPath.join dir
                     (if skip_root_dir paths
                      then Str.slice_from (normalize path) (Str.len (hd "" paths))
                      else normalize path)))))
  ∧ (∀ cwd dir,
       root_level [] [] ["foo/"; "foo/a.txt"] = Ok (Continue ["foo/"])
       ∧ skip_root_dir ["foo/"] = true
       ∧ destination cwd dir ["foo/"] "foo/a.txt"
         = Ok (PosixPath.abspath cwd (PosixPath.join dir "a.txt")))
  ∧ (∀ cwd dir,
       root_level [] [] ["a.txt"; "b/"; "b/c.txt"] = Ok (Continue ["a.txt"; "b/"])
       ∧ skip_root_dir ["a.txt"; "b/"] = false
       ∧ destination cwd dir ["a.txt"; "b/"] "a.txt"
         = Ok (PosixPath.abspath cwd (PosixPath.join dir "a.txt"))
       ∧ destination cwd dir ["a.txt"; "b/"] "b/"
         = Ok (PosixPath.abspath cwd (PosixPath.join dir "b/"))
       ∧ destination cwd dir ["a.txt"; "b/"] "b/c.txt"
         = Ok (PosixPath.abspath cwd (PosixPath.join dir "b/c.txt"))).
Proof.
  split; [|by split].
  intros errors warnings names paths [Hpaths Hall]%root_level_continue.
  split; [|split; [|split; [|intros; apply destination_spec]]].
  - rewrite skip_root_dir_spec.
    destruct (seen_root_level names) as [|root [|root' seen]] eqn:Hseen.
    + destruct (list.last names) as [last_path|] eqn:Hlast.
      * split; [intros _; right; split; [done|by intros ->]|intros _].
        eexists. split; [done|]. apply fallback_root_is_directory.
        apply last_Some in Hlast as [names' ->].
        destruct (is_root_level (normalize last_path)) eqn:Hroot; [|done].
        assert (normalize last_path ∈ seen_root_level (names' ++ [last_path])) as Hin.
        { apply list_elem_of_filter. split; [done|]. apply list_elem_of_fmap.
          exists last_path. split; [done|]. set_solver. }
        rewrite Hseen in Hin. by inversion Hin.
      * apply last_None in Hlast as ->. split; [by intros (root & -> & _)|].
        by intros [(root & ? & _)|[_ ?]].
    + split.
      * intros (root0 & -> & Hdir); simplify_eq. left. by eexists.
      * intros [(root0 & ? & Hdir)|[? _]]; simplify_eq. by eexists.
    + split; [by intros (root0 & -> & _)|]. by intros [(root0 & ? & _)|[? _]].
  - intros Hseen. by destruct (seen_root_level names).
  - intros Hseen last_path Hlast. by rewrite Hseen, Hlast in Hpaths.
Qed.

Lemma single_root_detection_witness :
  root_level [] [] ["Foo-1.0.0/"; "Foo-1.0.0/Foo.py"] = Ok (Continue ["Foo-1.0.0/"])
  ∧ seen_root_level ["Foo-1.0.0/"; "Foo-1.0.0/Foo.py"] = ["Foo-1.0.0/"]
  ∧ skip_root_dir ["Foo-1.0.0/"] = true
  ∧ destination "/home/runner" "/tmp/tmpab12cd34/Foo" ["Foo-1.0.0/"] "Foo-1.0.0/Foo.py"
    = Ok "/tmp/tmpab12cd34/Foo/Foo.py".
Proof.
  assert (Hroot : root_level [] [] ["Foo-1.0.0/"; "Foo-1.0.0/Foo.py"]
                  = Ok (Continue ["Foo-1.0.0/"])) by reflexivity.
  destruct (proj1 single_root_detection [] [] _ _ Hroot) as (Hskip & _ & _ & Hdest).
  split; [exact Hroot|]. split; [reflexivity|]. split.
  - apply Hskip. left. by eexists.
  - rewrite Hdest. reflexivity.
Defined.

(** Two directories whose entries come without an entry of their own:
    the root is taken from the last path, and as many characters are
    dropped from the paths of the other directory. *)
Example two_directories_without_entries :
  root_level [] [] ["foo/a.txt"; "bar/b.txt"] = Ok (Continue ["bar/"])
  ∧ destination "/home/runner" "/tmp/tmpab12cd34/Foo" ["bar/"] "foo/a.txt"
    = Ok "/tmp/tmpab12cd34/Foo/a.txt"
  ∧ destination "/home/runner" "/tmp/tmpab12cd34/Foo" ["bar/"] "bar/b.txt"
    = Ok "/tmp/tmpab12cd34/Foo/b.txt".
Proof. repeat split; reflexivity. Qed.

(** C2 does not hold of the code, in either direction. The archive with
    the entries [longname/a.txt] and [b/c.txt] has two directories at
    its top level and no root-level entry is seen in it; the code takes
    [b/], from the last path, for its single root and drops two
    characters from every path, so that [longname/a.txt] is written to
    [ngname/a.txt]. The archive with the entries [foo/], [foo/] and
    [foo/a.txt] has one distinct root-level entry, a directory; the code
    counts it twice and extracts [foo/a.txt] with its path as it is.
    The comments of the code say that the top-level directory is
    skipped when there is only a single directory at the top level. *)
Theorem single_root_misdetection :
  let dir := "/tmp/tmpab12cd34/Foo" in
  let data := [Byte.x61] in
  let url := "https://codeload.github.com/someone/Foo/zip/1.0.0" in
  let info := Sample.info "Foo" [Sample.release url] (Some "README.md") in
  let spec := Sample.spec [Sample.tags] in
  let two := [("longname/a.txt", data); ("b/c.txt", data)] in
  let twice := [("foo/", []); ("foo/", []); ("foo/a.txt", data)] in
  (seen_root_level (namelist (Sample.zip two)) = []
   ∧ ¬ one_distinct_root_directory (namelist (Sample.zip two))
   ∧ root_level [] [] (namelist (Sample.zip two)) = Ok (Continue ["b/"])
   ∧ skip_root_dir ["b/"] = true
   ∧ destination "/home/runner" dir ["b/"] "longname/a.txt"
     = Ok "/tmp/tmpab12cd34/Foo/ngname/a.txt"
   ∧ ∃ fs', test_download (Sample.env info two) spec info "Foo" url [] [] Sample.fs
            = (fs', Ok (build_result [] []))
          ∧ FS.lookup_node fs' "/tmp/tmpab12cd34/Foo/ngname/a.txt" = Some (FS.File data)
          ∧ FS.lookup_node fs' "/tmp/tmpab12cd34/Foo/c.txt" = Some (FS.File data)
          ∧ FS.lookup_node fs' "/tmp/tmpab12cd34/Foo/longname/a.txt" = None
          ∧ FS.lookup_node fs' "/tmp/tmpab12cd34/Foo/b/c.txt" = None)
  ∧ (one_distinct_root_directory (namelist (Sample.zip twice))
     ∧ root_level [] [] (namelist (Sample.zip twice)) = Ok (Continue ["foo/"; "foo/"])
     ∧ skip_root_dir ["foo/"; "foo/"] = false
     ∧ ∃ fs', test_download (Sample.env info twice) spec info "Foo" url [] [] Sample.fs
              = (fs', Ok (build_result [] []))
            ∧ FS.lookup_node fs' "/tmp/tmpab12cd34/Foo/foo/a.txt" = Some (FS.File data)
            ∧ FS.lookup_node fs' "/tmp/tmpab12cd34/Foo/a.txt" = None).
Proof.
  split.
  - split; [reflexivity|]. split.
    { intros (root & Hseen & _).
      change (seen_root_level _) with (@nil string) in Hseen. set_solver. }
    split; [reflexivity|]. split; [reflexivity|]. split; [reflexivity|].
    eexists. split; [vm_compute; reflexivity|]. repeat split; reflexivity.
  - split.
    { exists "foo/". split; [|reflexivity].
      change (seen_root_level _) with ["foo/"; "foo/"]. set_solver. }
    split; [reflexivity|]. split; [reflexivity|].
    eexists. split; [vm_compute; reflexivity|]. repeat split; reflexivity.
Qed.

(** ** The filter on the changed files *)

Section pattern_facts.
Implicit Types (p q : Re.pattern) (s rest : string).

Lemma elem_of_run_lit text s rest : rest ∈ Re.run (Re.lit text) s ↔ s = text +:+ rest.
Proof.
  revert s. induction text as [|c text IH]; intros s.
  - simpl. rewrite list_elem_of_singleton. by split.
  - cbn [Re.lit Re.run]. rewrite list_elem_of_bind. split.
    + intros (m & Hrest%IH & Hm). destruct s as [|a s]; [by inversion Hm|].
      destruct (Ascii.eqb_spec a c) as [->|]; [|by inversion Hm].
      apply list_elem_of_singleton in Hm as ->. by rewrite Hrest.
    + intros ->. exists (text +:+ rest). split; [by apply IH|].
      rewrite str_app_cons, Ascii.eqb_refl. by apply list_elem_of_singleton.
Qed.

Lemma elem_of_run_word s rest :
  rest ∈ Re.run Re.Word s ↔ ∃ c, Re.is_word c = true ∧ s = String c rest.
Proof.
  cbn [Re.run]. destruct s as [|a s].
  - split; [by inversion 1|by intros (c & _ & ?)].
  - destruct (Re.is_word a) eqn:Hword.
    + rewrite list_elem_of_singleton. split; [intros ->; by exists a|].
      by intros (c & _ & [= -> ->]).
    + split; [by inversion 1|]. intros (c & Hc & [= -> ->]). congruence.
Qed.

Lemma elem_of_run_dollar s rest :
  rest ∈ Re.run Re.Dollar s ↔ rest = s ∧ (s = "" ∨ s = String (ascii_of_nat 10) "").
Proof.
  cbn [Re.run].
  destruct (String.eqb_spec s "") as [->|Hne]; simpl.
  { rewrite list_elem_of_singleton. split; [by auto|by intros [-> _]]. }
  destruct (String.eqb_spec s (String (ascii_of_nat 10) "")) as [->|Hne'].
  { rewrite list_elem_of_singleton. split; [by auto|by intros [-> _]]. }
  split; [by inversion 1|]. by intros [_ [?|?]].
Qed.

Lemma elem_of_run_seq p q s rest :
  rest ∈ Re.run (Re.Seq p q) s ↔ ∃ m, m ∈ Re.run p s ∧ rest ∈ Re.run q m.
Proof.
  cbn [Re.run]. rewrite list_elem_of_bind. split; intros (m & ? & ?); by exists m.
Qed.

Lemma elem_of_run_alt p q s rest :
  rest ∈ Re.run (Re.Alt p q) s ↔ rest ∈ Re.run p s ∨ rest ∈ Re.run q s.
Proof. cbn [Re.run]. apply elem_of_app. Qed.

Lemma match_spec p s : Re.match_ p s = true ↔ ∃ rest, rest ∈ Re.run p s.
Proof.
  unfold Re.match_. rewrite negb_true_iff, bool_decide_eq_false.
  destruct (Re.run p s) as [|rest rests].
  - split; [done|]. intros [rest Hrest]. by inversion Hrest.
  - split; [|done]. intros _. exists rest. by left.
Qed.

End pattern_facts.

Lemma startswith_drop s text :
  Str.startswith s text = true → s = text +:+ Str.drop (String.length text) s.
Proof. intros [r ->]%startswith_spec. by rewrite str_drop_app. Qed.

Lemma str_take_drop n s : Str.take n s +:+ Str.drop n s = s.
Proof.
  revert s. induction n as [|n IH]; intros [|a s]; simpl; try done.
  by rewrite str_app_cons, IH.
Qed.

Lemma endswith_spec s p : Str.endswith s p = true ↔ ∃ r, s = r +:+ p.
Proof.
  split; [|intros [r ->]; apply endswith_app].
  unfold Str.endswith. intros [_ Heq%String.eqb_eq]%andb_true_iff.
  exists (Str.take (String.length s - String.length p) s).
  rewrite <- (str_take_drop (String.length s - String.length p) s) at 1.
  by rewrite Heq.
Qed.

Lemma str_app_inv_last s r a b : s +:+ String a "" = r +:+ String b "" → a = b.
Proof.
  revert r. induction s as [|c s IH]; intros [|d r]; rewrite ?str_app_cons; simpl.
  - by intros [= ->].
  - intros [= -> Heq]. destruct r; done.
  - intros [= -> Heq]. destruct s; done.
  - intros [= -> Heq]. by eapply IH.
Qed.

(** The strings that a pattern of the shape of [shard_pattern] matches. *)
Lemma pattern_shape_spec prefix digits suffix s :
  Re.match_ (Re.Seq (Re.lit prefix)
               (Re.Seq (Re.Alt Re.Word (Re.lit digits))
                  (Re.Seq (Re.lit suffix) Re.Dollar))) s = true ↔
    ∃ base tail,
      s = prefix +:+ base +:+ suffix +:+ tail
      ∧ ((∃ c, Re.is_word c = true ∧ base = String c "") ∨ base = digits)
      ∧ (tail = "" ∨ tail = String (ascii_of_nat 10) "").
Proof.
  rewrite match_spec.
  setoid_rewrite elem_of_run_seq. setoid_rewrite elem_of_run_seq.
  setoid_rewrite elem_of_run_seq. setoid_rewrite elem_of_run_alt.
  setoid_rewrite elem_of_run_lit. setoid_rewrite elem_of_run_word.
  setoid_rewrite elem_of_run_dollar.
  split.
  - intros (rest & m1 & -> & m2 & Hbase & m3 & -> & -> & Htail).
    destruct Hbase as [(c & Hword & ->)| ->].
    + exists (String c ""), m3. split; [done|]. split; [|done]. left. by exists c.
    + exists digits, m3. split; [done|]. split; [by right|done].
  - intros (base & tail & -> & Hbase & Htail).
    exists tail, (base +:+ suffix +:+ tail). split; [done|].
    exists (suffix +:+ tail). split; [|by exists tail].
    destruct Hbase as [(c & Hword & ->)| ->]; [left; by exists c|by right].
Qed.

(** The strings that [shard_pattern] matches; [$] lets a line feed
    through after [.json]. *)
Lemma shard_pattern_spec s :
  Re.match_ shard_pattern s = true ↔
    ∃ base tail,
      s = "repository/" +:+ base +:+ ".json" +:+ tail
      ∧ ((∃ c, Re.is_word c = true ∧ base = String c "") ∨ base = "0-9")
      ∧ (tail = "" ∨ tail = String (ascii_of_nat 10) "").
Proof. apply pattern_shape_spec. Qed.

Lemma shard_pattern_json filename :
  Str.endswith filename ".json" = true →
  Re.match_ shard_pattern filename = true ↔
    (∃ c, Re.is_word c = true ∧ filename = "repository/" +:+ String c ".json")
    ∨ filename = "repository/0-9.json".
Proof.
  intros [r Hjson]%endswith_spec. rewrite shard_pattern_spec. split.
  - intros (base & tail & -> & Hbase & [->| ->]).
    + destruct Hbase as [(c & Hword & ->)| ->]; [left|by right]. by exists c.
    + exfalso.
      change (".json") with (".jso" +:+ String "n" "") in Hjson at 2.
      rewrite <- !str_app_assoc in Hjson.
      by apply str_app_inv_last in Hjson.
  - intros [(c & Hword & ->)| ->].
    + exists (String c ""), "". split; [done|]. split; [|by left]. left. by exists c.
    + exists "0-9", "". split; [done|]. split; [by right|by left].
Qed.

(** C10. Among the changed files that end in [.json], the pattern of
    the differ accepts a path below [repository/] only when one word
    character, or the text [0-9], stands between [repository/] and
    [.json]. A changed file [repository/<base>.json] whose base has two
    characters or more and is not [0-9], such as [repository/ab.json],
    is passed over whatever its status: no error is returned for it and
    it is not among the files that are compared. *)
Theorem shard_filter_single_character :
  (∀ filename,
     Str.endswith filename ".json" = true →
     Re.match_ shard_pattern filename = true ↔
       (∃ c, Re.is_word c = true ∧ filename = "repository/" +:+ String c ".json")
       ∨ filename = "repository/0-9.json")
  ∧ (∀ files_changed line lines filenames status base,
       Lines.split_ws line = [status; "repository/" +:+ base +:+ ".json"] →
       (2 ≤ String.length base)%nat →
       base ≠ "0-9" →
       changed_manifests files_changed (line :: lines) filenames
       = changed_manifests files_changed lines filenames)
  ∧ filter_changed_files ("M" +:+ Sample.tab +:+ "repository/ab.json") = Continue []
  ∧ filter_changed_files ("A" +:+ Sample.tab +:+ "repository/ab.json") = Continue []
  ∧ filter_changed_files ("M" +:+ Sample.tab +:+ "repository/a.json")
    = Continue ["repository/a.json"].
Proof.
  split; [exact shard_pattern_json|]. split; [|by repeat split].
  intros files_changed line lines filenames status base Hsplit Hlen Hbase.
  cbn [changed_manifests]. rewrite Hsplit.
  assert (Str.endswith ("repository/" +:+ base +:+ ".json") ".json" = true) as Hjson.
  { rewrite <- str_app_assoc. apply endswith_app. }
  rewrite Hjson. simpl.
  destruct (Re.match_ shard_pattern _) eqn:Hmatch; [|done].
  apply shard_pattern_json in Hmatch as [(c & _ & Heq)|Heq]; [| |done].
  - apply (inj (String.app "repository/")) in Heq.
    change (String c ".json") with (String c "" +:+ ".json") in Heq.
    apply str_app_inv_tail in Heq as ->. simpl in Hlen. lia.
  - apply (inj (String.app "repository/")) in Heq.
    change ("0-9.json") with ("0-9" +:+ ".json") in Heq.
    by apply str_app_inv_tail in Heq.
Qed.

Lemma shard_filter_single_character_witness :
  let line := "A" +:+ Sample.tab +:+ "repository/sublime.json" in
  Lines.split_ws line = ["A"; "repository/" +:+ "sublime" +:+ ".json"]
  ∧ changed_manifests line [line; "M" +:+ Sample.tab +:+ "repository/s.json"] []
    = Continue ["repository/s.json"].
Proof.
  intros line. split; [reflexivity|].
  rewrite (proj1 (proj2 shard_filter_single_character) line line _ [] "A" "sublime");
    [reflexivity|reflexivity|simpl; lia|discriminate].
Defined.

(** ** The message of a failed resolution *)

Section replace_facts.
Implicit Types (s old new pre post : string).

Lemma str_app_eq_inv s r p q :
  s +:+ r = p +:+ q →
  (String.length p ≤ String.length s)%nat →
  ∃ e, s = p +:+ e ∧ q = e +:+ r.
Proof.
  revert s. induction p as [|a p IH]; intros s Heq Hlen.
  - exists s. by rewrite !str_app_nil_l in *.
  - destruct s as [|b s]; [simpl in Hlen; lia|].
    rewrite !str_app_cons in Heq. injection Heq as -> Heq.
    destruct (IH s Heq) as (e & -> & ->); [simpl in Hlen; lia|]. by exists e.
Qed.

Lemma replace_go_skip old new t s :
  Str.replace_go old new (String.length t) (t +:+ s) = Str.replace_go old new 0 s.
Proof.
  induction t as [|a t IH]; [by destruct s|]. by rewrite str_app_cons.
Qed.

Lemma replace_go_hit old new s :
  old ≠ "" →
  Str.replace_go old new 0 (old +:+ s) = new +:+ Str.replace_go old new 0 s.
Proof.
  destruct old as [|c old]; [done|]. intros _.
  rewrite str_app_cons. cbn [Str.replace_go].
  rewrite <- str_app_cons, startswith_app.
  simpl String.length.
  replace (S (String.length old) - 1)%nat with (String.length old) by lia.
  by rewrite replace_go_skip.
Qed.

Lemma replace_go_none old new s :
  (∀ pre post, s ≠ pre +:+ old +:+ post) →
  Str.replace_go old new 0 s = s.
Proof.
  induction s as [|a s IH]; intros Hnone; [done|]. cbn [Str.replace_go].
  destruct (Str.startswith (String a s) old) eqn:Hstart.
  - apply startswith_spec in Hstart as [r Hr]. by destruct (Hnone "" r).
  - rewrite IH; [done|]. intros pre post ->. by destruct (Hnone (String a pre) post).
Qed.

Lemma replace_go_prefix old new pre rest :
  (∀ t1 t2, pre = t1 +:+ t2 → t2 ≠ "" → Str.startswith (t2 +:+ rest) old = false) →
  Str.replace_go old new 0 (pre +:+ rest) = pre +:+ Str.replace_go old new 0 rest.
Proof.
  induction pre as [|a pre IH]; intros Hmiss; [done|].
  rewrite !str_app_cons. cbn [Str.replace_go].
  rewrite <- str_app_cons, (Hmiss "" (String a pre)) by done.
  rewrite IH; [done|]. intros t1 t2 -> Ht2. by apply (Hmiss (String a t1) t2).
Qed.

(** One occurrence of a borderless [old], in a string that has no other,
    is what [replace] removes. *)
Lemma replace_removes_occurrence old pre post :
  old ≠ "" →
  borderless old →
  (∀ p q, pre +:+ post ≠ p +:+ old +:+ q) →
  Str.replace (pre +:+ old +:+ post) old "" = pre +:+ post.
Proof.
  intros Hold Hborder Hnone.
  unfold Str.replace. destruct old as [|c old'] eqn:Hc; [done|]. rewrite <- Hc in *.
  clear Hc c old'.
  rewrite replace_go_prefix.
  - rewrite replace_go_hit, str_app_nil_l by done.
    rewrite replace_go_none; [done|]. intros p q ->.
    apply (Hnone (pre +:+ p) q). by rewrite !str_app_assoc.
  - intros t1 t2 -> Ht2. apply not_true_is_false.
    intros [r Hr]%startswith_spec.
    destruct (decide (String.length old ≤ String.length t2)%nat) as [Hlen|Hlen].
    + destruct (str_app_eq_inv _ _ _ _ Hr Hlen) as (e & -> & _).
      apply (Hnone t1 (e +:+ post)). by rewrite !str_app_assoc.
    + symmetry in Hr.
      destruct (str_app_eq_inv _ _ _ _ Hr ltac:(lia)) as (u & Hold_u & Hu).
      assert (String.length old = String.length t2 + String.length u)%nat as Hsum.
      { rewrite Hold_u at 1. apply str_length_app. }
      assert (0 < String.length t2)%nat by (destruct t2; [done|simpl; lia]).
      destruct (str_app_eq_inv _ _ _ _ Hu ltac:(lia)) as (v & Hold_v & _).
      apply (Hborder (String.length u)); [lia|].
      rewrite Hold_v at 1. rewrite str_take_app.
      replace (String.length old - String.length u)%nat with (String.length t2) by lia.
      rewrite Hold_u. by rewrite str_drop_app.
Qed.

End replace_facts.

Lemma phrase_borderless : borderless phrase.
Proof.
  intros k Hk Heq.
  assert (forallb (λ k, negb (String.eqb (Str.take k phrase)
                                (Str.drop (String.length phrase - k) phrase)))
            (seq 1 (String.length phrase - 1)) = true) as Hall by (vm_compute; reflexivity).
  rewrite forallb_forall in Hall.
  assert (In k (seq 1 (String.length phrase - 1))) as Hin by (apply in_seq; lia).
  apply Hall in Hin. by rewrite Heq, String.eqb_refl in Hin.
Qed.

Lemma contains_false s sub pre post :
  Str.contains s sub = false → s ≠ pre +:+ sub +:+ post.
Proof.
  intros Hnone ->. apply not_true_iff_false in Hnone. apply Hnone, contains_spec. eauto.
Qed.

(** C6, as stated, fails on a message that names the placeholder
    otherwise than in the phrase that is removed: it is returned as it
    is. *)
Lemma failure_message_counterexample :
  let message := "Unable to load the repository https://example.com" in
  let e := Exn "ProviderException" [JStr message] in
  let env := Sample.env_of (ProviderRaises e) in
  fetch_package_metadata env (Sample.spec []) = Ok (Failure message)
  ∧ Str.contains message placeholder = true.
Proof. split; reflexivity. Qed.

(** Removing the phrase can bring the placeholder together from what
    stands around it: what is left has to be looked at, not how often
    the placeholder stands in the message. *)
Example removal_joins_placeholder :
  let message := "https://exam in the repository https://example.comple.com" in
  message = "https://exam" +:+ phrase +:+ "ple.com"
  ∧ Str.replace message phrase "" = placeholder.
Proof. split; reflexivity. Qed.

(** C6, amended. When the resolution fails with an exception whose
    first argument is the str [message] (raised by the provider, or the
    last one of its [failed_sources], or else of its [broken_packages]),
    [fetch_package_metadata] returns the failure with [message] from
    which the occurrences of the phrase
    [ in the repository https://example.com], found from left to right,
    are removed. When the message is [pre], the phrase and [post], and
    [pre] followed by [post] does not hold the placeholder URL, the
    message returned is [pre] followed by [post] and does not hold the
    URL; a message without the phrase is returned as it is. *)
Theorem failure_message_without_phrase env spec e message rest :
  fails_with env spec e →
  exn_args e = JStr message :: rest →
  fetch_package_metadata env spec = Ok (Failure (Str.replace message phrase ""))
  ∧ (∀ pre post,
       message = pre +:+ phrase +:+ post →
       Str.contains (pre +:+ post) placeholder = false →
       Str.replace message phrase "" = pre +:+ post
       ∧ Str.contains (Str.replace message phrase "") placeholder = false)
  ∧ (Str.contains message phrase = false → Str.replace message phrase "" = message).
Proof.
  intros Hfails Hargs. split; [|split].
  - unfold fetch_package_metadata, clean_message.
    destruct Hfails as [->|[(failed & source & broken & ->)|(broken & name & ->)]].
    + simpl. by rewrite Hargs.
    + rewrite last_snoc. simpl. by rewrite Hargs.
    + rewrite last_snoc. simpl. by rewrite Hargs.
  - intros pre post -> Hurl.
    assert (Str.replace (pre +:+ phrase +:+ post) phrase "" = pre +:+ post) as ->;
      [|done].
    apply replace_removes_occurrence; [done|apply phrase_borderless|].
    intros p q Heq. apply (contains_false _ _ (p +:+ " in the repository ") q Hurl).
    rewrite Heq. by rewrite !str_app_assoc.
  - intros Hnone. apply replace_go_none. intros pre post. by apply contains_false.
Qed.

Lemma failure_message_without_phrase_witness :
  let message := "No releases found for the package Foo in the repository https://example.com." in
  let e := Exn "ProviderException" [JStr message] in
  let env := Sample.env_of (Exhausted [] [("Foo", e)]) in
  fails_with env (Sample.spec []) e
  ∧ fetch_package_metadata env (Sample.spec [])
    = Ok (Failure "No releases found for the package Foo.")
  ∧ Str.contains "No releases found for the package Foo." placeholder = false.
Proof.
  intros message e env.
  assert (fails_with env (Sample.spec []) e) as Hfails.
  { right. right. by exists [], "Foo". }
  split; [exact Hfails|].
  destruct (failure_message_without_phrase env (Sample.spec []) e message [] Hfails eq_refl)
    as (Hfetch & Hclean & _).
  destruct (Hclean "No releases found for the package Foo" "." eq_refl eq_refl)
    as [Hmessage Hurl].
  rewrite Hfetch, Hmessage. split; reflexivity.
Defined.

(** ** Reconciliation of a repository manifest *)

Section reconcile_facts.
Implicit Types (packages : list json) (data : json) (st : DiffSet).

Lemma index_first packages s :
  s ∈ Json.dumps <$> packages →
  ∃ i data, index (Json.dumps <$> packages) s = Ok i
            ∧ packages !! i = Some data
            ∧ first_serialized packages s = Some data.
Proof.
  unfold first_serialized.
  induction packages as [|d packages IH]; intros Hin; [by inversion Hin|].
  rewrite fmap_cons. cbn [index list_find].
  destruct (String.eqb_spec (Json.dumps d) s) as [Heq|Hne].
  - exists 0%nat, d. by rewrite decide_True.
  - apply elem_of_cons in Hin as [Heq|Hin]; [done|].
    destruct (IH Hin) as (i & data & -> & Hlookup & Hfind).
    exists (S i), data. rewrite decide_False by done.
    destruct (list_find _ packages) as [[j d']|]; by simplify_eq/=.
Qed.

(** The entries at the indexes that [reconcile] computes for a set of
    serialized entries are the entries classified for that set. *)
Lemma mapM_index packages (l : list string) :
  Forall (λ s, s ∈ Json.dumps <$> packages) l →
  ∃ indexes entries,
    mapM (index (Json.dumps <$> packages)) l = Ok indexes
    ∧ Forall2 (λ i data, packages !! i = Some data) indexes entries
    ∧ Forall2 (λ s data, first_serialized packages s = Some data) l entries.
Proof.
  induction 1 as [|s l Hs _ (indexes & entries & IH & Hitems & Hfirst)].
  - by exists [], [].
  - destruct (index_first _ _ Hs) as (i & data & Hi & Hlookup & Hdata).
    exists (i :: indexes), (data :: entries). simpl. rewrite Hi. simpl. rewrite IH. simpl.
    split; [done|]. split; by constructor.
Qed.

Lemma name_of_str data name :
  name_of data = Ok name →
  ∃ d, data = JObj d ∧ package_name data = Ok (JStr name).
Proof.
  unfold name_of. destruct data as [| | | | |d]; try done.
  destruct (package_name (JObj d)) as [[| | |s| |]|]; simpl; try done.
  intros [= ->]. by exists d.
Qed.

Lemma add_modified_spec packages i data name st :
  packages !! i = Some data →
  name_of data = Ok name →
  add_modified packages i st =
    Ok (DiffSet_ ({[name]} ∪ modified_pkgs st) (added_pkgs st) (removed_pkgs st)
                 (pkg_links st) (added_pkg_data st)).
Proof.
  intros Hi (d & -> & Hname)%name_of_str.
  unfold add_modified, item. rewrite Hi. simpl. by rewrite Hname.
Qed.

Lemma add_removed_spec packages i data name st :
  packages !! i = Some data →
  name_of data = Ok name →
  add_removed packages i st =
    Ok (DiffSet_ (modified_pkgs st) (added_pkgs st) ({[name]} ∪ removed_pkgs st)
                 (pkg_links st) (added_pkg_data st)).
Proof.
  intros Hi (d & -> & Hname)%name_of_str.
  unfold add_removed, item. rewrite Hi. simpl. by rewrite Hname.
Qed.

Lemma add_added_spec packages i data name st :
  packages !! i = Some data →
  name_of data = Ok name →
  (∀ v, details_of data = Some v → ∃ link, v = JStr link) →
  add_added packages i st =
    Ok (DiffSet_ (modified_pkgs st) ({[name]} ∪ added_pkgs st) (removed_pkgs st)
                 (match details_of data with
                  | Some (JStr link) => <[name := link]> (pkg_links st)
                  | _ => pkg_links st
                  end)
                 (<[name := data]> (added_pkg_data st))).
Proof.
  intros Hi (d & -> & Hname)%name_of_str Hdetails.
  unfold add_added, item. rewrite Hi. simpl. rewrite Hname. simpl.
  unfold Py.has_key, Py.getitem. simpl in Hdetails.
  destruct (Py.lookup "details" d) as [v|] eqn:Hlookup; simpl; [|done].
  by destruct (Hdetails v eq_refl) as [link ->].
Qed.

Lemma for_each_add_modified packages indexes entries st :
  Forall2 (λ i data, packages !! i = Some data) indexes entries →
  Forall well_formed_entry entries →
  ∃ st', for_each indexes (add_modified packages) st = Ok st'
    ∧ (∀ n, n ∈ modified_pkgs st' ↔
            n ∈ modified_pkgs st ∨ ∃ data, data ∈ entries ∧ name_of data = Ok n)
    ∧ added_pkgs st' = added_pkgs st
    ∧ removed_pkgs st' = removed_pkgs st
    ∧ pkg_links st' = pkg_links st
    ∧ added_pkg_data st' = added_pkg_data st.
Proof.
  intros Hitems. revert st.
  induction Hitems as [|i data indexes entries Hi _ IH]; intros st Hwf.
  - exists st. split; [done|]. split; [|done]. intros n. split; [by left|].
    intros [?|(data & Hin & _)]; [done|by inversion Hin].
  - apply Forall_cons in Hwf as [[[name Hname] _] Hwf].
    cbn [for_each]. rewrite (add_modified_spec _ _ _ _ _ Hi Hname). simpl.
    destruct (IH (DiffSet_ ({[name]} ∪ modified_pkgs st) (added_pkgs st)
                    (removed_pkgs st) (pkg_links st) (added_pkg_data st)) Hwf)
      as (st' & Hrun & Hmod & ? & ? & ? & ?).
    simpl in *. exists st'. split; [done|]. split; [|done]. intros n. rewrite Hmod.
    rewrite elem_of_union, elem_of_singleton. setoid_rewrite elem_of_cons. split.
    + intros [[->|?]|(data' & ? & ?)]; [right; exists data; split; [by left|done]|by left|right; eauto].
    + intros [?|(data' & [->|?] & Hn)]; [left; by right| |right; eauto].
      left; left. congruence.
Qed.

Lemma for_each_add_removed packages indexes entries st :
  Forall2 (λ i data, packages !! i = Some data) indexes entries →
  Forall well_formed_entry entries →
  ∃ st', for_each indexes (add_removed packages) st = Ok st'
    ∧ (∀ n, n ∈ removed_pkgs st' ↔
            n ∈ removed_pkgs st ∨ ∃ data, data ∈ entries ∧ name_of data = Ok n)
    ∧ modified_pkgs st' = modified_pkgs st
    ∧ added_pkgs st' = added_pkgs st
    ∧ pkg_links st' = pkg_links st
    ∧ added_pkg_data st' = added_pkg_data st.
Proof.
  intros Hitems. revert st.
  induction Hitems as [|i data indexes entries Hi _ IH]; intros st Hwf.
  - exists st. split; [done|]. split; [|done]. intros n. split; [by left|].
    intros [?|(data & Hin & _)]; [done|by inversion Hin].
  - apply Forall_cons in Hwf as [[[name Hname] _] Hwf].
    cbn [for_each]. rewrite (add_removed_spec _ _ _ _ _ Hi Hname). simpl.
    destruct (IH (DiffSet_ (modified_pkgs st) (added_pkgs st)
                    ({[name]} ∪ removed_pkgs st) (pkg_links st) (added_pkg_data st)) Hwf)
      as (st' & Hrun & Hrem & ? & ? & ? & ?).
    simpl in *. exists st'. split; [done|]. split; [|done]. intros n. rewrite Hrem.
    rewrite elem_of_union, elem_of_singleton. setoid_rewrite elem_of_cons. split.
    + intros [[->|?]|(data' & ? & ?)]; [right; exists data; split; [by left|done]|by left|right; eauto].
    + intros [?|(data' & [->|?] & Hn)]; [left; by right| |right; eauto].
      left; left. congruence.
Qed.

Lemma for_each_add_added packages indexes entries st :
  Forall2 (λ i data, packages !! i = Some data) indexes entries →
  Forall well_formed_entry entries →
  ∃ st', for_each indexes (add_added packages) st = Ok st'
    ∧ (∀ n, n ∈ added_pkgs st' ↔
            n ∈ added_pkgs st ∨ ∃ data, data ∈ entries ∧ name_of data = Ok n)
    ∧ modified_pkgs st' = modified_pkgs st
    ∧ removed_pkgs st' = removed_pkgs st
    ∧ (∀ n data, added_pkg_data st' !! n = Some data →
         added_pkg_data st !! n = Some data
         ∨ (data ∈ entries ∧ name_of data = Ok n))
    ∧ (∀ n, is_Some (added_pkg_data st !! n)
            ∨ (∃ data, data ∈ entries ∧ name_of data = Ok n) →
            is_Some (added_pkg_data st' !! n))
    ∧ (∀ n link, pkg_links st' !! n = Some link →
         pkg_links st !! n = Some link
         ∨ ∃ data, data ∈ entries ∧ name_of data = Ok n
                   ∧ details_of data = Some (JStr link))
    ∧ (∀ n, is_Some (pkg_links st !! n)
            ∨ (∃ data link, data ∈ entries ∧ name_of data = Ok n
                            ∧ details_of data = Some (JStr link)) →
            is_Some (pkg_links st' !! n)).
Proof.
  intros Hitems. revert st.
  induction Hitems as [|i data indexes entries Hi _ IH]; intros st Hwf.
  - exists st. split; [done|].
    split; [|split; [done|split; [done|split; [|split; [|split]]]]].
    + intros n. split; [by left|]. intros [?|(data & Hin & _)]; [done|by inversion Hin].
    + intros n data ?. by left.
    + intros n [?|(data & Hin & _)]; [done|by inversion Hin].
    + intros n link ?. by left.
    + intros n [?|(data & link & Hin & _)]; [done|by inversion Hin].
  - apply Forall_cons in Hwf as [[[name Hname] Hdetails] Hwf].
    cbn [for_each]. rewrite (add_added_spec _ _ _ _ _ Hi Hname Hdetails). simpl.
    set (links := match details_of data with
                  | Some (JStr link) => <[name := link]> (pkg_links st)
                  | _ => pkg_links st
                  end).
    destruct (IH (DiffSet_ (modified_pkgs st) ({[name]} ∪ added_pkgs st)
                    (removed_pkgs st) links (<[name := data]> (added_pkg_data st))) Hwf)
      as (st' & Hrun & Hadd & ? & ? & Hdata & Hdata' & Hlinks & Hlinks').
    simpl in *. exists st'. split; [done|].
    split; [|split; [done|split; [done|split; [|split; [|split]]]]].
    + intros n. rewrite Hadd, elem_of_union, elem_of_singleton.
      setoid_rewrite elem_of_cons. split.
      * intros [[->|?]|(data' & ? & ?)]; [right; exists data; split; [by left|done]|by left|right; eauto].
      * intros [?|(data' & [->|?] & Hn)]; [left; by right| |right; eauto].
        left; left. congruence.
    + intros n data' [Hst|[? ?]]%Hdata; [|right; split; [by right|done]].
      apply lookup_insert_Some in Hst as [[<- <-]|[_ ?]]; [|by left].
      right. split; [by left|done].
    + intros n Hn. apply Hdata'.
      destruct Hn as [Hst|(data' & [->|?]%elem_of_cons & Hn)]; [| |right; eauto].
      * left. rewrite lookup_insert_is_Some. destruct (decide (name = n)); auto.
      * left. replace n with name by congruence. by rewrite lookup_insert_eq.
    + intros n link [Hst|(data' & ? & ? & ?)]%Hlinks;
        [|right; exists data'; split; [by right|done]].
      subst links. destruct (details_of data) as [[| | |link'| |]|] eqn:Hd; try by left.
      apply lookup_insert_Some in Hst as [[<- <-]|[_ ?]]; [|by left].
      right. exists data. split; [by left|done].
    + intros n Hn. apply Hlinks'.
      destruct Hn as [Hst|(data' & link & [->|?]%elem_of_cons & Hn & Hd)];
        [| |right; eauto].
      * left. subst links. destruct (details_of data) as [[| | |link'| |]|]; try done.
        rewrite lookup_insert_is_Some. destruct (decide (name = n)); auto.
      * left. subst links. rewrite Hd. replace n with name by congruence.
        by rewrite lookup_insert_eq.
Qed.

Lemma Forall2_elem_of_l {A B} (R : A → B → Prop) l k x :
  Forall2 R l k → x ∈ l → ∃ y, y ∈ k ∧ R x y.
Proof.
  induction 1 as [|x' y l k HR _ IH]; [by inversion 1|].
  intros [->|Hin]%elem_of_cons; [exists y; split; [by left|done]|].
  destruct (IH Hin) as (y' & ? & ?). exists y'. split; [by right|done].
Qed.

Lemma Forall2_elem_of_r {A B} (R : A → B → Prop) l k y :
  Forall2 R l k → y ∈ k → ∃ x, x ∈ l ∧ R x y.
Proof.
  induction 1 as [|x y' l k HR _ IH]; [by inversion 1|].
  intros [->|Hin]%elem_of_cons; [exists x; split; [by left|done]|].
  destruct (IH Hin) as (x' & ? & ?). exists x'. split; [by right|done].
Qed.

Lemma first_serialized_elem_of packages s data :
  first_serialized packages s = Some data → data ∈ packages ∧ Json.dumps data = s.
Proof.
  unfold first_serialized.
  destruct (list_find _ packages) as [[i d]|] eqn:Hfind; [|done].
  intros [= <-]. apply list_find_Some in Hfind as (Hi & Hd & _).
  split; [by eapply list_elem_of_lookup_2|done].
Qed.

(** The indexes that [reconcile] computes for the serialized entries of
    [packages] that [others] does not have. *)
Lemma reconcile_indexes packages others :
  Forall well_formed_entry packages →
  ∃ indexes entries,
    mapM (index (Json.dumps <$> packages))
         (elements (serialized_only_in packages others)) = Ok indexes
    ∧ length indexes = size (serialized_only_in packages others)
    ∧ Forall2 (λ i data, packages !! i = Some data) indexes entries
    ∧ Forall well_formed_entry entries
    ∧ ∀ data, data ∈ entries ↔ classified packages (serialized_only_in packages others) data.
Proof.
  intros Hwf.
  destruct (mapM_index packages (elements (serialized_only_in packages others)))
    as (indexes & entries & Hrun & Hitems & Hfirst).
  { apply Forall_forall. intros s Hs%elem_of_elements.
    unfold serialized_only_in in Hs. apply elem_of_difference in Hs as [Hs _]. by apply elem_of_list_to_set in Hs. }
  exists indexes, entries. split; [done|].
  assert (∀ data, data ∈ entries ↔
                  classified packages (serialized_only_in packages others) data) as Hiff.
  { intros data. split.
    - intros (s & Hs & ?)%(Forall2_elem_of_r _ _ _ _ Hfirst).
      exists s. split; [by apply elem_of_elements|done].
    - intros (s & Hs%elem_of_elements & Hdata).
      destruct (Forall2_elem_of_l _ _ _ _ Hfirst Hs) as (data' & ? & ?). congruence. }
  split; [|split; [done|split; [|done]]].
  - apply Forall2_length in Hitems, Hfirst. unfold size, set_size. simpl. congruence.
  - apply Forall_forall. intros data (s & _ & [Hin _]%first_serialized_elem_of)%Hiff.
    by eapply Forall_forall in Hwf.
Qed.

(** What the additions record: the spec of an added entry under each
    added name, a link under each added name that has one, and nothing
    under the other names. *)
Lemma for_each_add_added_records packages indexes entries st st' :
  Forall2 (λ i data, packages !! i = Some data) indexes entries →
  Forall well_formed_entry entries →
  for_each indexes (add_added packages) st = Ok st' →
  (∀ n, (∃ data, data ∈ entries ∧ name_of data = Ok n) →
        ∃ data, added_pkg_data st' !! n = Some data
                ∧ data ∈ entries ∧ name_of data = Ok n)
  ∧ (∀ n, (∃ data link, data ∈ entries ∧ name_of data = Ok n
                        ∧ details_of data = Some (JStr link)) →
          ∃ data link, pkg_links st' !! n = Some link
                       ∧ data ∈ entries ∧ name_of data = Ok n
                       ∧ details_of data = Some (JStr link))
  ∧ (∀ n, ¬ (∃ data, data ∈ entries ∧ name_of data = Ok n) →
          added_pkg_data st' !! n = added_pkg_data st !! n
          ∧ pkg_links st' !! n = pkg_links st !! n).
Proof.
  intros Hitems. revert st.
  induction Hitems as [|i data indexes entries Hi Hitems IH]; intros st Hwf Hrun.
  - simpl in Hrun. simplify_eq. split; [|split].
    + intros n (data & Hin & _). by inversion Hin.
    + intros n (data & link & Hin & _). by inversion Hin.
    + done.
  - apply Forall_cons in Hwf as [[[name Hname] Hdetails] Hwf].
    cbn [for_each] in Hrun.
    rewrite (add_added_spec _ _ _ _ _ Hi Hname Hdetails) in Hrun. simpl in Hrun.
    set (links := match details_of data with
                  | Some (JStr link) => <[name := link]> (pkg_links st)
                  | _ => pkg_links st
                  end) in Hrun.
    destruct (for_each_add_added packages indexes entries
                (DiffSet_ (modified_pkgs st) ({[name]} ∪ added_pkgs st)
                   (removed_pkgs st) links (<[name := data]> (added_pkg_data st)))
                Hitems Hwf)
      as (st'' & Hrun' & _ & _ & _ & Hdata & Hdata' & Hlinks & Hlinks').
    rewrite Hrun in Hrun'. simplify_eq. rename st'' into st'.
    destruct (IH _ Hwf Hrun) as (IHdata & IHlinks & IHframe). simpl in *.
    split; [|split].
    + intros n (data' & [->|Hin]%elem_of_cons & Hn).
      * assert (n = name) as -> by congruence.
        destruct (Hdata' name) as [data'' Hst']; [left; by rewrite lookup_insert_eq|].
        exists data''. split; [done|].
        destruct (Hdata _ _ Hst') as [Hst|[? ?]]; [|split; [by right|done]].
        rewrite lookup_insert_eq in Hst. simplify_eq. split; [by left|done].
      * destruct (IHdata n) as (data'' & ? & ? & ?); [eauto|].
        exists data''. split; [done|]. split; [by right|done].
    + intros n (data' & link & [->|Hin]%elem_of_cons & Hn & Hd).
      * assert (n = name) as -> by congruence.
        assert (links = <[name := link]> (pkg_links st)) as Hlinks_eq
          by (subst links; by rewrite Hd).
        destruct (Hlinks' name) as [link' Hst'];
          [left; by rewrite Hlinks_eq, lookup_insert_eq|].
        destruct (Hlinks _ _ Hst') as [Hst|(data'' & ? & ? & ?)].
        -- rewrite Hlinks_eq, lookup_insert_eq in Hst. simplify_eq.
           exists data, link'. split; [done|]. split; [by left|done].
        -- exists data'', link'. split; [done|]. split; [by right|done].
      * destruct (IHlinks n) as (data'' & link' & ? & ? & ? & ?); [eauto|].
        exists data'', link'. split; [done|]. split; [by right|done].
    + intros n Hnone.
      assert (name ≠ n) as Hne.
      { intros <-. apply Hnone. exists data. split; [by left|done]. }
      destruct (IHframe n) as [-> ->].
      { intros (data' & ? & ?). apply Hnone. exists data'. split; [by right|done]. }
      rewrite lookup_insert_ne by done. split; [done|].
      subst links. destruct (details_of data) as [[| | |link| |]|]; try done.
      by rewrite lookup_insert_ne.
Qed.

(** What [reconcile] does in each of its three cases. *)
Lemma reconcile_cases old new st :
  Forall well_formed_entry old →
  Forall well_formed_entry new →
  ∃ st', reconcile old new st = Ok st' ∧ classification old new st st'.
Proof.
  intros Hold Hnew. unfold classification.
  set (deleted := serialized_only_in old new).
  set (added := serialized_only_in new old).
  destruct (reconcile_indexes old new Hold)
    as (deleted_indexes & deleted_entries & Hdel & Hdel_len & Hdel_items & Hdel_wf & Hdel_in).
  destruct (reconcile_indexes new old Hnew)
    as (added_indexes & added_entries & Hadd & Hadd_len & Hadd_items & Hadd_wf & Hadd_in).
  fold deleted in Hdel, Hdel_len, Hdel_in. fold added in Hadd, Hadd_len, Hadd_in.
  unfold reconcile. fold (serialized_only_in old new) (serialized_only_in new old).
  fold deleted added. rewrite Hdel, Hadd. simpl. rewrite Hdel_len, Hadd_len.
  assert (∀ packages serialized (entries : list json),
            (∀ data, data ∈ entries ↔ classified packages serialized data) →
            ∀ n, (∃ data, data ∈ entries ∧ name_of data = Ok n) ↔ named packages serialized n)
    as Hnamed.
  { intros packages serialized entries Hin n. unfold named.
    split; intros (data & ? & ?); exists data; split; try done; by apply Hin. }
  destruct (Nat.eqb_spec (size deleted) (size added)) as [Heq|Hne].
  - destruct (for_each_add_modified new added_indexes added_entries st Hadd_items Hadd_wf)
      as (st' & -> & Hmod & ? & ? & ? & ?).
    exists st'. split; [done|]. split; [|split; [done|done]].
    intros _. split; [|done]. intros n. by rewrite Hmod, (Hnamed _ _ _ Hadd_in).
  - destruct (Nat.eqb_spec (size deleted) 0) as [Hzero|Hnonzero].
    + destruct (for_each_add_added new added_indexes added_entries st Hadd_items Hadd_wf)
        as (st' & Hrun & Hadded & ? & ? & _).
      destruct (for_each_add_added_records _ _ _ _ _ Hadd_items Hadd_wf Hrun)
        as (Hdata & Hlinks & Hframe).
      exists st'. split; [done|]. split; [done|]. split; [|done].
      intros _ _. split; [|split; [done|split; [done|split; [|split]]]].
      * intros n. by rewrite Hadded, (Hnamed _ _ _ Hadd_in).
      * intros n Hn%(Hnamed _ _ _ Hadd_in).
        destruct (Hdata n Hn) as (data & ? & ?%Hadd_in & ?). by exists data.
      * intros n data link Hin%Hadd_in Hname Hd.
        destruct (Hlinks n) as (data' & link' & ? & ?%Hadd_in & ? & ?); [eauto|].
        by exists data', link'.
      * intros n Hn. apply Hframe. by rewrite (Hnamed _ _ _ Hadd_in).
    + destruct (for_each_add_removed old deleted_indexes deleted_entries st
                  Hdel_items Hdel_wf)
        as (st' & -> & Hrem & ? & ? & ? & ?).
      exists st'. split; [done|]. split; [done|]. split; [done|].
      intros _ _. split; [|done]. intros n. by rewrite Hrem, (Hnamed _ _ _ Hdel_in).
Qed.

(** An entry added after the others is an addition. *)
Lemma reconcile_addition A B C D name :
  name_of D = Ok name →
  (∀ v, details_of D = Some v → ∃ link, v = JStr link) →
  Json.dumps D ≠ Json.dumps A →
  Json.dumps D ≠ Json.dumps B →
  Json.dumps D ≠ Json.dumps C →
  ∃ st', reconcile [A; B; C] [A; B; C; D] empty_diff = Ok st'
    ∧ added_pkgs st' = {[name]}
    ∧ modified_pkgs st' = ∅
    ∧ removed_pkgs st' = ∅
    ∧ added_pkg_data st' = {[name := D]}.
Proof.
  intros Hname Hdetails HA HB HC. unfold reconcile.
  assert (list_to_set (Json.dumps <$> [A; B; C])
            ∖ list_to_set (Json.dumps <$> [A; B; C; D]) = (∅ : gset string)) as ->
    by set_solver.
  assert (list_to_set (Json.dumps <$> [A; B; C; D])
            ∖ list_to_set (Json.dumps <$> [A; B; C]) = ({[Json.dumps D]} : gset string)) as ->
    by set_solver.
  rewrite elements_empty, elements_singleton. cbn [mapM fmap list_fmap index].
  rewrite !(proj2 (String.eqb_neq _ _)) by done. rewrite String.eqb_refl. simpl.
  rewrite (add_added_spec [A; B; C; D] 3 D name empty_diff eq_refl Hname Hdetails).
  eexists. split; [done|]. simpl. split; [set_solver|]. by rewrite insert_empty.
Qed.

(** An entry that is gone, the others being kept, is a removal. *)
Lemma reconcile_removal A B name :
  name_of B = Ok name →
  Json.dumps B ≠ Json.dumps A →
  reconcile [A; B] [A] empty_diff = Ok (DiffSet_ ∅ ∅ {[name]} ∅ ∅).
Proof.
  intros Hname HB. unfold reconcile.
  assert (list_to_set (Json.dumps <$> [A; B])
            ∖ list_to_set (Json.dumps <$> [A]) = ({[Json.dumps B]} : gset string)) as ->
    by set_solver.
  assert (list_to_set (Json.dumps <$> [A])
            ∖ list_to_set (Json.dumps <$> [A; B]) = (∅ : gset string)) as ->
    by set_solver.
  rewrite elements_empty, elements_singleton. cbn [mapM fmap list_fmap index].
  rewrite !(proj2 (String.eqb_neq _ _)) by done. rewrite String.eqb_refl. simpl.
  rewrite (add_removed_spec [A; B] 1 B name empty_diff eq_refl Hname). simpl.
  by rewrite (right_id_L ∅ (∪)).
Qed.

(** An entry that is edited is a modification, under its new name. *)
Lemma reconcile_modification A A' name :
  name_of A' = Ok name →
  Json.dumps A ≠ Json.dumps A' →
  reconcile [A] [A'] empty_diff = Ok (DiffSet_ {[name]} ∅ ∅ ∅ ∅).
Proof.
  intros Hname HA. unfold reconcile.
  assert (list_to_set (Json.dumps <$> [A])
            ∖ list_to_set (Json.dumps <$> [A']) = ({[Json.dumps A]} : gset string)) as ->
    by set_solver.
  assert (list_to_set (Json.dumps <$> [A'])
            ∖ list_to_set (Json.dumps <$> [A]) = ({[Json.dumps A']} : gset string)) as ->
    by set_solver.
  rewrite !elements_singleton. cbn [mapM fmap list_fmap index].
  rewrite !String.eqb_refl. simpl.
  rewrite (add_modified_spec [A'] 0 A' name empty_diff eq_refl Hname). simpl.
  by rewrite (right_id_L ∅ (∪)).
Qed.

End reconcile_facts.

(** C3. For the old and the new package lists of a modified repository
    manifest whose entries are well formed, with D the number of removed
    and A the number of added serialized entries: when D = A the names of
    the added entries, and nothing else, are added to the modifications;
    else when D = 0 they are added to the additions, each name being
    recorded with the spec of an added entry of that name and, if one has
    a details link, with such a link; else the names of the removed
    entries are added to the removals and the added entries leave no
    trace. So [A,B,C] against [A,B,C,D] gives the addition of D,
    [A,B] against [A] the removal of B, and [A] against [A'] the
    modification of the name of A'. *)
Theorem reconcile_classifies :
  (∀ old new st,
     Forall well_formed_entry old →
     Forall well_formed_entry new →
     ∃ st', reconcile old new st = Ok st' ∧ classification old new st st')
  ∧ (∀ A B C D name,
       name_of D = Ok name →
       (∀ v, details_of D = Some v → ∃ link, v = JStr link) →
       Json.dumps D ≠ Json.dumps A →
       Json.dumps D ≠ Json.dumps B →
       Json.dumps D ≠ Json.dumps C →
       ∃ st', reconcile [A; B; C] [A; B; C; D] empty_diff = Ok st'
         ∧ added_pkgs st' = {[name]}
         ∧ modified_pkgs st' = ∅
         ∧ removed_pkgs st' = ∅
         ∧ added_pkg_data st' = {[name := D]})
  ∧ (∀ A B name,
       name_of B = Ok name →
       Json.dumps B ≠ Json.dumps A →
       reconcile [A; B] [A] empty_diff = Ok (DiffSet_ ∅ ∅ {[name]} ∅ ∅))
  ∧ (∀ A A' name,
       name_of A' = Ok name →
       Json.dumps A ≠ Json.dumps A' →
       reconcile [A] [A'] empty_diff = Ok (DiffSet_ {[name]} ∅ ∅ ∅ ∅)).
Proof.
  split; [exact reconcile_cases|].
  split; [exact reconcile_addition|].
  split; [exact reconcile_removal|exact reconcile_modification].
Qed.

Lemma reconcile_classifies_witness :
  let A := Sample.package "A" in
  let B := Sample.package "B" in
  let C := Sample.package "C" in
  let D := Sample.package "D" in
  (name_of D = Ok "D"
   ∧ ∃ st', reconcile [A; B; C] [A; B; C; D] empty_diff = Ok st'
       ∧ added_pkgs st' = {["D"]}
       ∧ modified_pkgs st' = ∅
       ∧ removed_pkgs st' = ∅
       ∧ added_pkg_data st' = {["D" := D]})
  ∧ (Forall well_formed_entry [A; B; C]
     ∧ Forall well_formed_entry [A; D]
     ∧ ∃ st', reconcile [A; B; C] [A; D] empty_diff = Ok st'
         ∧ classification [A; B; C] [A; D] empty_diff st').
Proof.
  intros A B C D.
  assert (∀ name, well_formed_entry (Sample.package name)) as Hwf.
  { intros name. split; [by exists name|]. intros v [= <-]. by eexists. }
  split.
  - split; [reflexivity|].
    apply (proj1 (proj2 reconcile_classifies) A B C D "D").
    + reflexivity.
    + apply Hwf.
    + discriminate.
    + discriminate.
    + discriminate.
  - assert (Forall well_formed_entry [A; B; C]) as Hold by (repeat constructor; apply Hwf).
    assert (Forall well_formed_entry [A; D]) as Hnew by (repeat constructor; apply Hwf).
    split; [exact Hold|]. split; [exact Hnew|].
    apply (proj1 reconcile_classifies [A; B; C] [A; D] empty_diff Hold Hnew).
Defined.

(** * Further properties

    Properties of the code beyond the statements of the specification:
    of [run_tests] on the file system, of its error paths, and of
    [test_pull_request] from the changed files to the review. *)

(** ** Paths in normal form *)

Section path_facts.
Implicit Types (s p r c : string) (l cs ds : list string).

Lemma slashless_cons a s :
  slashless (String a s) ↔ a ≠ "/"%char ∧ slashless s.
Proof.
  unfold slashless. rewrite <- !not_true_iff_false, !contains_spec. split.
  - intros Hno. split.
    + intros ->. apply Hno. by exists "", s.
    + intros (pre & post & ->). apply Hno. by exists (String a pre), post.
  - intros [Ha Hs] (pre & post & Heq). destruct pre as [|b pre].
    + simpl in Heq. by injection Heq as -> _.
    + rewrite str_app_cons in Heq. injection Heq as -> ->. apply Hs. by exists pre, post.
Qed.

Lemma slashless_nil : slashless "".
Proof. reflexivity. Qed.

Lemma slashless_app s r : slashless s → slashless r → slashless (s +:+ r).
Proof.
  intros Hs Hr. induction s as [|a s IH]; [done|].
  rewrite str_app_cons. apply slashless_cons in Hs as [Ha Hs].
  apply slashless_cons. split; [done|]. by apply IH.
Qed.

Lemma split_nonempty s : Str.split "/" s ≠ [].
Proof.
  induction s as [|a s IH]; simpl; [done|].
  destruct (Ascii.eqb a "/"); [done|]. by destruct (Str.split "/" s).
Qed.

Lemma split_slashless s : slashless s → Str.split "/" s = [s].
Proof.
  induction s as [|a s IH]; [done|]. intros [Ha Hs]%slashless_cons. simpl.
  destruct (Ascii.eqb_spec a "/") as [->|_]; [done|]. by rewrite IH.
Qed.

Lemma split_app s r :
  Str.split "/" (s +:+ "/" +:+ r) = Str.split "/" s ++ Str.split "/" r.
Proof.
  induction s as [|a s IH]; [done|]. rewrite str_app_cons. simpl.
  destruct (Ascii.eqb a "/"); [by rewrite IH|]. rewrite IH.
  pose proof (split_nonempty s). by destruct (Str.split "/" s).
Qed.

Lemma split_all_slashless s : Forall slashless (Str.split "/" s).
Proof.
  induction s as [|a s IH]; simpl; [by repeat constructor|].
  destruct (Ascii.eqb_spec a "/") as [->|Ha]; [by constructor|].
  destruct (Str.split "/" s) as [|w ws].
  - repeat constructor. by apply slashless_cons.
  - apply Forall_cons in IH as [Hw Hws]. constructor; [|done].
    by apply slashless_cons.
Qed.

Lemma join_cons sep w l : l ≠ [] → Str.join sep (w :: l) = w +:+ sep +:+ Str.join sep l.
Proof. by destruct l. Qed.

Lemma join_app sep l1 l2 :
  l1 ≠ [] → l2 ≠ [] →
  Str.join sep (l1 ++ l2) = Str.join sep l1 +:+ sep +:+ Str.join sep l2.
Proof.
  intros H1 H2. induction l1 as [|w l1 IH]; [done|].
  destruct l1 as [|w' l1].
  - simpl app. by rewrite join_cons.
  - rewrite <- app_comm_cons, !join_cons by done. rewrite IH by done.
    by rewrite !str_app_assoc.
Qed.

Lemma split_join l :
  l ≠ [] → Forall slashless l → Str.split "/" (Str.join "/" l) = l.
Proof.
  intros Hne Hall. induction l as [|w l IH]; [done|].
  apply Forall_cons in Hall as [Hw Hl]. destruct l as [|w' l].
  - by apply split_slashless.
  - rewrite join_cons, split_app, split_slashless, IH by done. done.
Qed.

Lemma plain_slashless c : plain c → slashless c.
Proof. by intros (_ & _ & _ & ?). Qed.

End path_facts.

Section normpath_facts.
Implicit Types (s p r c : string) (l cs ds acc : list string).

Lemma plain_eqb c :
  plain c →
  String.eqb c "" = false ∧ String.eqb c "." = false ∧ String.eqb c ".." = false.
Proof. intros (? & ? & ? & _). by rewrite !String.eqb_neq. Qed.

Lemma normpath_comps_plain k acc l rest :
  Forall plain l →
  PosixPath.normpath_comps k acc (l ++ rest)
  = PosixPath.normpath_comps k (rev l ++ acc) rest.
Proof.
  intros Hl. revert acc. induction Hl as [|c l Hc _ IH]; intros acc; [done|].
  destruct (plain_eqb c Hc) as (H1 & H2 & H3).
  simpl. rewrite H1, H2, H3. simpl. rewrite IH. by rewrite <- app_assoc.
Qed.

Lemma normpath_comps_all_plain k acc comps :
  (0 < k)%nat → Forall plain acc → Forall slashless comps →
  Forall plain (PosixPath.normpath_comps k acc comps).
Proof.
  intros Hk Hacc Hcomps. revert acc Hacc.
  induction Hcomps as [|c comps Hc _ IH]; intros acc Hacc; simpl.
  - by apply Forall_rev.
  - destruct (String.eqb_spec c "") as [->|Hne]; simpl; [by apply IH|].
    destruct (String.eqb_spec c ".") as [->|Hdot]; simpl; [by apply IH|].
    destruct (String.eqb_spec c "..") as [->|Hdots]; simpl.
    + replace (k =? 0)%nat with false by (symmetry; apply Nat.eqb_neq; lia). simpl.
      destruct acc as [|last acc]; [by apply IH|].
      apply Forall_cons in Hacc as [(_ & _ & Hlast%String.eqb_neq & _) Hacc].
      rewrite Hlast. by apply IH.
    + apply IH. by constructor.
Qed.

Lemma startswith_double_slash cs :
  Forall plain cs → Str.startswith (path_of cs) "//" = false.
Proof.
  intros Hcs. destruct Hcs as [|c cs (Hne & _ & _ & Hslash) _]; [done|].
  destruct c as [|a c]; [done|]. apply slashless_cons in Hslash as [Ha _].
  apply not_true_iff_false. intros [r Hr]%startswith_spec.
  unfold path_of in Hr. destruct cs; simpl in Hr; by injection Hr as ->.
Qed.

Lemma split_path_of cs :
  cs ≠ [] → Forall plain cs → Str.split "/" (path_of cs) = "" :: cs.
Proof.
  intros Hne Hcs. unfold path_of.
  change ("/" +:+ Str.join "/" cs) with ("" +:+ "/" +:+ Str.join "/" cs).
  rewrite split_app, split_join; [done..|].
  eapply Forall_impl; [done|apply plain_slashless].
Qed.

(** A slash followed by plain components is in normal form. *)
Lemma normpath_path_of cs : Forall plain cs → PosixPath.normpath (path_of cs) = path_of cs.
Proof.
  intros Hcs. unfold PosixPath.normpath.
  rewrite (startswith_double_slash cs Hcs).
  change (String.eqb (path_of cs) "") with false.
  change (Str.startswith (path_of cs) "/") with true. cbn [andb].
  destruct (decide (cs = [])) as [->|Hne]; [done|].
  rewrite split_path_of by done. cbn [PosixPath.normpath_comps String.eqb orb].
  pose proof (normpath_comps_plain 1 [] cs [] Hcs) as Hcomps.
  rewrite !app_nil_r in Hcomps. rewrite Hcomps. simpl. by rewrite rev_involutive.
Qed.

Lemma normpath_absolute p :
  Str.startswith p "/" = true →
  ∃ k cs, (k = 1 ∨ k = 2)%nat ∧ Forall plain cs
          ∧ PosixPath.normpath p = Str.repeat "/" k +:+ Str.join "/" cs.
Proof.
  intros Habs. unfold PosixPath.normpath. rewrite Habs.
  destruct p as [|a p]; [done|]. change (String.eqb (String a p) "") with false. cbv iota.
  set (k := if _ && _ then 2%nat else 1%nat).
  assert (k = 1 ∨ k = 2)%nat as Hk by (unfold k; case_match; auto).
  exists k, (PosixPath.normpath_comps k [] (Str.split "/" (String a p))).
  split; [done|]. split.
  - apply normpath_comps_all_plain; [lia|done|apply split_all_slashless].
  - by destruct Hk as [-> | ->].
Qed.

Lemma path_of_app cs ds :
  cs ≠ [] → ds ≠ [] → path_of (cs ++ ds) = path_of cs +:+ "/" +:+ Str.join "/" ds.
Proof. intros. unfold path_of. by rewrite join_app. Qed.

(** A path in normal form that has a canonical path and a slash for a
    prefix is made of the components of that path and some more. *)
Lemma normpath_below cs0 p rest :
  cs0 ≠ [] → Forall plain cs0 →
  Str.startswith p "/" = true →
  PosixPath.normpath p = path_of cs0 +:+ "/" +:+ rest →
  ∃ ds, ds ≠ [] ∧ Forall plain ds ∧ PosixPath.normpath p = path_of (cs0 ++ ds).
Proof.
  intros Hne Hcs0 Habs Heq.
  destruct (normpath_absolute p Habs) as (k & cs & Hk & Hcs & Hnorm).
  assert (Hsplit := f_equal (Str.split "/") Heq).
  rewrite split_app, split_path_of, Hnorm in Hsplit by done.
  destruct cs0 as [|c0 cs0]; [done|].
  apply Forall_cons in Hcs0 as [(Hc0 & _) Hcs0].
  assert (Forall slashless cs) as Hslash by (eapply Forall_impl; [done|apply plain_slashless]).
  destruct Hk as [-> | ->].
  - change (Str.repeat "/" 1 +:+ Str.join "/" cs)
      with ("" +:+ "/" +:+ Str.join "/" cs) in Hsplit.
    rewrite split_app in Hsplit. simpl in Hsplit. injection Hsplit as Hsplit.
    destruct (decide (cs = [])) as [->|Hcs_ne].
    + simpl in Hsplit. injection Hsplit as _ Hsplit.
      pose proof (split_nonempty rest). by destruct cs0, (Str.split "/" rest).
    + rewrite split_join in Hsplit by done.
      exists (Str.split "/" rest). split; [apply split_nonempty|].
      rewrite Hsplit in Hcs.
      split; [by apply Forall_cons in Hcs as [_ [_ ?]%Forall_app]|].
      rewrite Hnorm. unfold path_of. simpl. by rewrite Hsplit.
  - change (Str.repeat "/" 2 +:+ Str.join "/" cs)
      with ("" +:+ "/" +:+ ("" +:+ "/" +:+ Str.join "/" cs)) in Hsplit.
    rewrite !split_app in Hsplit. simpl in Hsplit. by injection Hsplit as <-.
Qed.

End normpath_facts.

(** ** Parents and last components *)

Section dirname_facts.
Implicit Types (s p r c pre : string) (l cs ds : list string).

Lemma rfind_from_slashless c i : slashless c → Str.rfind_from c "/" i = -1.
Proof.
  revert i. induction c as [|a c IH]; intros i; [done|].
  intros [Ha Hc]%slashless_cons. cbn [Str.rfind_from]. rewrite IH by done.
  cbn [Str.startswith]. by destruct (Ascii.eqb_spec "/" a) as [<-|].
Qed.

Lemma rfind_from_last pre c i :
  0 ≤ i → slashless c → Str.rfind_from (pre +:+ "/" +:+ c) "/" i = i + Str.len pre.
Proof.
  intros Hi Hc. revert i Hi. induction pre as [|a pre IH]; intros i Hi.
  - change ("" +:+ "/" +:+ c) with (String "/" c). cbn [Str.rfind_from Str.startswith].
    rewrite rfind_from_slashless by done. rewrite Ascii.eqb_refl. simpl.
    unfold Str.len. simpl. lia.
  - rewrite str_app_cons. cbn [Str.rfind_from]. rewrite IH by lia.
    unfold Str.len. simpl String.length.
    destruct (Z.ltb_spec (i + 1 + Z.of_nat (String.length pre)) 0); lia.
Qed.

Lemma basename_last pre c : slashless c → PosixPath.basename (pre +:+ "/" +:+ c) = c.
Proof.
  intros Hc. unfold PosixPath.basename, Str.rfind, Str.slice_from.
  rewrite rfind_from_last by done.
  rewrite bound_nonneg by (unfold Str.len; lia).
  replace (_ `min` _)%nat with (String.length (pre +:+ "/"))
    by (unfold Str.len; rewrite !str_length_app; simpl; lia).
  rewrite <- str_app_assoc. apply str_drop_app.
Qed.

Lemma head_last pre c :
  slashless c →
  Str.slice (pre +:+ "/" +:+ c) 0 (Str.rfind (pre +:+ "/" +:+ c) "/" + 1) = pre +:+ "/".
Proof.
  intros Hc. unfold Str.rfind, Str.slice. rewrite rfind_from_last by done.
  rewrite !bound_nonneg by (unfold Str.len; lia).
  rewrite Nat.min_0_l, Nat.sub_0_r. simpl Str.drop.
  replace (_ `min` _)%nat with (String.length (pre +:+ "/"))
    by (unfold Str.len; rewrite !str_length_app; simpl; lia).
  rewrite <- str_app_assoc. apply str_take_app.
Qed.

Lemma rstrip_app_sep s : Str.rstrip_char "/" (s +:+ "/") = Str.rstrip_char "/" s.
Proof. induction s as [|a s IH]; [done|]. rewrite str_app_cons. simpl. by rewrite IH. Qed.

Lemma rstrip_last s x :
  x ≠ "/"%char → Str.rstrip_char "/" (s +:+ String x "") = s +:+ String x "".
Proof.
  intros Hx. induction s as [|a s IH].
  - simpl. by destruct (Ascii.eqb_spec x "/").
  - rewrite str_app_cons. simpl. rewrite IH. by destruct s.
Qed.

Lemma str_last s : s ≠ "" → ∃ s0 x, s = s0 +:+ String x "".
Proof.
  induction s as [|a s IH]; [done|]. intros _. destruct s as [|b s].
  - by exists "", a.
  - destruct IH as (s0 & x & ->); [done|]. by exists (String a s0), x.
Qed.

Lemma slashless_last s x : slashless (s +:+ String x "") → x ≠ "/"%char.
Proof.
  unfold slashless. rewrite <- not_true_iff_false, contains_spec.
  intros Hno ->. apply Hno. by exists s, "".
Qed.

Lemma path_of_snoc cs c : path_of (cs ++ [c]) = before_last cs +:+ "/" +:+ c.
Proof.
  destruct (decide (cs = [])) as [->|Hne]; [done|].
  rewrite path_of_app by done. by destruct cs.
Qed.

(** A canonical path ends with a character that is not a slash. *)
Lemma path_of_last cs :
  cs ≠ [] → Forall plain cs → ∃ s0 x, path_of cs = s0 +:+ String x "" ∧ x ≠ "/"%char.
Proof.
  intros Hne Hcs. destruct (exists_last Hne) as (cs' & c & ->).
  apply Forall_app in Hcs as [_ [(Hc & _ & _ & Hslash) _]%Forall_cons].
  destruct (str_last c Hc) as (c0 & x & ->).
  exists (before_last cs' +:+ "/" +:+ c0), x. split.
  - by rewrite path_of_snoc, !str_app_assoc.
  - by eapply slashless_last.
Qed.

Lemma basename_path_of cs c : slashless c → PosixPath.basename (path_of (cs ++ [c])) = c.
Proof. intros. rewrite path_of_snoc. by apply basename_last. Qed.

Lemma dirname_path_of cs c :
  Forall plain cs → slashless c → PosixPath.dirname (path_of (cs ++ [c])) = path_of cs.
Proof.
  intros Hcs Hc. rewrite path_of_snoc. unfold PosixPath.dirname.
  rewrite head_last by done.
  destruct (decide (cs = [])) as [->|Hne]; [done|].
  destruct (path_of_last cs Hne Hcs) as (s0 & x & Heq & Hx).
  replace (before_last cs) with (path_of cs) by by destruct cs.
  assert (String.eqb (path_of cs +:+ "/") "" = false) as -> by done.
  assert (String.eqb (path_of cs +:+ "/")
            (Str.repeat "/" (String.length (path_of cs +:+ "/"))) = false) as ->.
  { apply String.eqb_neq. intros Hall.
    destruct cs as [|c0 cs]; [done|].
    apply Forall_cons in Hcs as [(Hc0 & _ & _ & Hslash) _].
    destruct c0 as [|a c0]; [done|]. apply slashless_cons in Hslash as [Ha _].
    unfold path_of in Hall. destruct cs; simpl in Hall; by injection Hall as ->. }
  cbn [negb andb]. by rewrite rstrip_app_sep, Heq, rstrip_last.
Qed.

Lemma endswith_path_of cs :
  cs ≠ [] → Forall plain cs → Str.endswith (path_of cs) "/" = false.
Proof.
  intros Hne Hcs. apply not_true_iff_false. intros [r Hr]%endswith_spec.
  destruct (path_of_last cs Hne Hcs) as (s0 & x & Heq & Hx).
  rewrite Heq in Hr. by apply str_app_inv_last in Hr.
Qed.

Lemma slashless_startswith c : slashless c → Str.startswith c "/" = false.
Proof.
  intros Hc. destruct c as [|a c]; [done|]. apply slashless_cons in Hc as [Ha _].
  cbn [Str.startswith]. by destruct (Ascii.eqb_spec "/" a) as [<-|].
Qed.

(** [os.path.join] of a canonical path and a name without a slash. *)
Lemma join_path_of cs c :
  cs ≠ [] → Forall plain cs → slashless c →
  PosixPath.join (path_of cs) c = path_of cs +:+ "/" +:+ c.
Proof.
  intros Hne Hcs Hc. unfold PosixPath.join.
  rewrite (slashless_startswith c Hc), endswith_path_of by done. done.
Qed.

Lemma resolve_path_of fs cs : Forall plain cs → FS.resolve fs (path_of cs) = path_of cs.
Proof. intros. unfold FS.resolve, PosixPath.abspath. simpl. by apply normpath_path_of. Qed.

End dirname_facts.

(** ** What [run_tests] writes *)

Section frame_facts.
Implicit Types (s p r c root : string) (l cs ds : list string) (fs : FS.t).

Lemma changed_within_refl root fs : changed_within root fs fs.
Proof. done. Qed.

Lemma changed_within_trans root fs1 fs2 fs3 :
  changed_within root fs1 fs2 → changed_within root fs2 fs3 → changed_within root fs1 fs3.
Proof.
  intros (Hcwd1 & Hkeep1 & Hout1) (Hcwd2 & Hkeep2 & Hout2). split; [congruence|]. split.
  - intros k Hk. by apply Hkeep2, Hkeep1.
  - intros k Hk. by rewrite Hout2, Hout1.
Qed.

Lemma set_node_within root fs path n :
  FS.within root (FS.resolve fs path) = true →
  changed_within root fs (FS.set_node fs path n).
Proof.
  intros Hin. split; [done|]. split; simpl.
  - intros k Hk. destruct (decide (FS.resolve fs path = k)) as [<-|Hne].
    + by rewrite lookup_insert_eq.
    + by rewrite lookup_insert_ne.
  - intros k Hk. rewrite lookup_insert_ne; [done|]. intros <-. congruence.
Qed.

Lemma mkdir_ok fs path fs' :
  FS.mkdir fs path = Ok fs' → fs' = FS.set_node fs path FS.Dir ∧ FS.exists_ fs path = false.
Proof.
  unfold FS.mkdir. destruct (FS.exists_ fs path); [done|].
  repeat case_match; try done. by intros [= <-].
Qed.

Lemma open_wb_ok fs path fs' :
  FS.open_wb fs path = Ok fs' → fs' = FS.set_node fs path (FS.File []).
Proof. unfold FS.open_wb. repeat case_match; try done; by intros [= <-]. Qed.

Lemma within_self root : FS.within root root = true.
Proof. unfold FS.within. by rewrite String.eqb_refl. Qed.

Lemma within_prefix root rest : FS.within root (root +:+ "/" +:+ rest) = true.
Proof.
  unfold FS.within. rewrite <- str_app_assoc, startswith_app. apply orb_true_r.
Qed.

Lemma within_below cs0 ds :
  cs0 ≠ [] → ds ≠ [] → FS.within (path_of cs0) (path_of (cs0 ++ ds)) = true.
Proof. intros. rewrite path_of_app by done. apply within_prefix. Qed.

Lemma exists_path_of fs cs :
  Forall plain cs → FS.exists_ fs (path_of cs) = true ↔ is_Some (FS.nodes fs !! path_of cs).
Proof.
  intros Hcs. unfold FS.exists_, FS.lookup_node. rewrite resolve_path_of by done.
  apply bool_decide_eq_true.
Qed.

Lemma makedirs_go_eq fuel fs name :
  FS.makedirs_go fuel fs name =
    let '(head, tail) := FS.split name in
    let '(head, tail) :=
      if String.eqb tail "" then FS.split head else (head, tail) in
    if negb (String.eqb head "") && negb (String.eqb tail "")
       && negb (FS.exists_ fs head)
    then
      match fuel with
      | O => raise "RecursionError" name
      | S fuel' =>
          fs' ← match FS.makedirs_go fuel' fs head with
                | Ok fs' => Ok fs'
                | Raise e =>
                    if String.eqb (exn_class e) "FileExistsError"
                    then Ok fs else Raise e
                end;
          if String.eqb tail "." then Ok fs' else FS.mkdir fs' name
      end
    else FS.mkdir fs name.
Proof. by destruct fuel. Qed.

Lemma mkdir_within fs cs0 ds fs' :
  cs0 ≠ [] → ds ≠ [] → Forall plain (cs0 ++ ds) →
  FS.mkdir fs (path_of (cs0 ++ ds)) = Ok fs' →
  changed_within (path_of cs0) fs fs'.
Proof.
  intros Hne Hds Hall [-> _]%mkdir_ok. apply set_node_within.
  rewrite resolve_path_of by done. by apply within_below.
Qed.

(** [os.makedirs] of a path below an existing directory makes nodes
    below that directory only. *)
Lemma makedirs_go_within fuel fs cs0 ds fs' :
  cs0 ≠ [] → ds ≠ [] → Forall plain (cs0 ++ ds) →
  is_Some (FS.nodes fs !! path_of cs0) →
  FS.makedirs_go fuel fs (path_of (cs0 ++ ds)) = Ok fs' →
  changed_within (path_of cs0) fs fs'.
Proof.
  intros Hne. revert fs ds fs'.
  induction fuel as [|fuel IH]; intros fs ds fs' Hds Hall Hroot;
    destruct (exists_last Hds) as (ds' & d & ->);
    rewrite makedirs_go_eq; unfold FS.split;
    rewrite app_assoc in Hall |- *;
    pose proof Hall as [Hhead [Hd _]%Forall_cons]%Forall_app;
    rewrite dirname_path_of, basename_path_of by (done || by apply plain_slashless);
    destruct (plain_eqb d Hd) as (Hempty & Hdot & _);
    rewrite Hempty; cbv iota beta; rewrite Hempty;
    change (String.eqb (path_of (cs0 ++ ds')) "") with false; cbn [negb andb];
    (destruct (FS.exists_ fs (path_of (cs0 ++ ds'))) eqn:Hexists; cbn [negb];
     [rewrite <- app_assoc in Hall |- *; by apply mkdir_within|]); [done|].
  assert (ds' ≠ []) as Hds'.
  { intros ->. rewrite app_nil_r in Hexists.
    apply not_true_iff_false in Hexists. apply Hexists, exists_path_of; [|done].
    by rewrite app_nil_r in Hhead. }
  assert (∃ fs1, changed_within (path_of cs0) fs fs1
                 ∧ ((fs1 ← match FS.makedirs_go fuel fs (path_of (cs0 ++ ds')) with
                          | Ok fs1 => Ok fs1
                          | Raise e => if String.eqb (exn_class e) "FileExistsError"
                                       then Ok fs else Raise e
                          end;
                    if String.eqb d "." then Ok fs1
                    else FS.mkdir fs1 (path_of ((cs0 ++ ds') ++ [d]))) = Ok fs'
                    → FS.mkdir fs1 (path_of ((cs0 ++ ds') ++ [d])) = Ok fs')) as Hrec.
  { destruct (FS.makedirs_go fuel fs (path_of (cs0 ++ ds'))) as [fs1|e] eqn:Hgo.
    - exists fs1. split; [by eapply IH|]. simpl. by rewrite Hdot.
    - exists fs. split; [done|]. destruct (String.eqb (exn_class e) _); simpl; [|done].
      by rewrite Hdot. }
  destruct Hrec as (fs1 & Hfs1 & Hrec). intros Hmk%Hrec.
  eapply changed_within_trans; [done|].
  rewrite <- app_assoc in Hall, Hmk.
  exact (mkdir_within fs1 cs0 (ds' ++ [d]) fs' Hne Hds Hall Hmk).
Qed.

End frame_facts.

Section extract_facts.
Implicit Types (cs ds : list string) (fs : FS.t).

Lemma join_absolute a b :
  Str.startswith a "/" = true → Str.startswith (PosixPath.join a b) "/" = true.
Proof.
  intros [r ->]%startswith_spec. unfold PosixPath.join.
  destruct (Str.startswith b "/") eqn:Hb; [done|]. by case_match.
Qed.

Lemma abspath_absolute cwd p :
  Str.startswith p "/" = true → PosixPath.abspath cwd p = PosixPath.normpath p.
Proof. intros Habs. unfold PosixPath.abspath. by rewrite Habs. Qed.

(** A destination that passes the test of [run_tests] is a canonical
    path below the temporary directory. *)
Lemma destination_below cwd tpd rlp path dest cs0 :
  cs0 ≠ [] → Forall plain cs0 →
  Str.startswith tpd (path_of cs0 +:+ "/") = true →
  destination cwd tpd rlp path = Ok dest →
  Str.startswith dest tpd = true →
  ∃ ds, ds ≠ [] ∧ Forall plain ds ∧ dest = path_of (cs0 ++ ds).
Proof.
  intros Hne Hcs0 [r2 Htpd]%startswith_spec Hdest [r1 Hpre]%startswith_spec.
  rewrite destination_spec in Hdest. injection Hdest as Hdest.
  set (d := if skip_root_dir rlp then _ else _) in Hdest.
  assert (Str.startswith (PosixPath.join tpd d) "/" = true) as Habs.
  { apply join_absolute. by rewrite Htpd. }
  rewrite abspath_absolute in Hdest by done.
  destruct (normpath_below cs0 (PosixPath.join tpd d) (r2 +:+ r1) Hne Hcs0 Habs)
    as (ds & Hds & Hplain & Heq).
  { rewrite Hdest, Hpre, Htpd. by rewrite !str_app_assoc. }
  exists ds. by rewrite <- Hdest, Heq.
Qed.

Lemma set_node_below fs cs0 ds n :
  cs0 ≠ [] → ds ≠ [] → Forall plain (cs0 ++ ds) →
  changed_within (path_of cs0) fs (FS.set_node fs (path_of (cs0 ++ ds)) n).
Proof.
  intros. apply set_node_within. rewrite resolve_path_of by done. by apply within_below.
Qed.

Lemma makedirs_within fs cs0 ds :
  cs0 ≠ [] → Forall plain (cs0 ++ ds) →
  is_Some (FS.nodes fs !! path_of cs0) →
  FS.exists_ fs (path_of (cs0 ++ ds)) = false →
  ∀ fs', FS.makedirs fs (path_of (cs0 ++ ds)) = Ok fs' →
         changed_within (path_of cs0) fs fs'.
Proof.
  intros Hne Hall Hroot Hexists fs'. apply makedirs_go_within; try done.
  intros ->. rewrite app_nil_r in Hexists, Hall.
  apply not_true_iff_false in Hexists. by apply Hexists, exists_path_of.
Qed.

Lemma extract_entry_within zipname archive package_zip path fs fs' r cs0 ds :
  cs0 ≠ [] → ds ≠ [] → Forall plain (cs0 ++ ds) →
  is_Some (FS.nodes fs !! path_of cs0) →
  extract_entry zipname archive package_zip path (path_of (cs0 ++ ds)) fs = (fs', r) →
  changed_within (path_of cs0) fs fs'.
Proof.
  intros Hne Hds Hall Hroot. unfold extract_entry.
  destruct (Str.endswith path "/").
  - destruct (FS.exists_ fs _) eqn:Hexists; cbn [negb]; [by intros [= <-]|].
    destruct (FS.makedirs fs _) as [fs1|e] eqn:Hmk; intros [= <- _]; [|done].
    by eapply makedirs_within.
  - destruct (exists_last Hds) as (ds' & d & ->).
    rewrite app_assoc in Hall |- *.
    pose proof Hall as [Hhead [Hd _]%Forall_cons]%Forall_app.
    rewrite dirname_path_of by (done || by apply plain_slashless).
    set (made := if negb _ then _ else _).
    assert (∀ fs1, made = Ok fs1 →
              changed_within (path_of cs0) fs fs1) as Hmade.
    { intros fs1. unfold made.
      destruct (FS.exists_ fs _) eqn:Hexists; cbn [negb]; [by intros [= <-]|].
      by apply makedirs_within. }
    destruct made as [fs1|e]; [|by intros [= <- _]].
    specialize (Hmade fs1 eq_refl).
    rewrite <- app_assoc in Hall |- *.
    destruct (FS.open_wb fs1 _) as [fs2|e] eqn:Hopen; [|by intros [= <- _]].
    apply open_wb_ok in Hopen as ->.
    assert (changed_within (path_of cs0) fs
              (FS.set_node fs1 (path_of (cs0 ++ ds' ++ [d])) (FS.File []))) as Hfs2.
    { eapply changed_within_trans; [done|]. by apply set_node_below. }
    destruct (zip_read _ _ _ _ _) as [content|e]; intros [= <- _]; [|done].
    eapply changed_within_trans; [done|]. unfold FS.write. by apply set_node_below.
Qed.

Lemma extract_within tpd zipname archive package_zip rlp errors warnings names fs fs' r cs0 :
  cs0 ≠ [] → Forall plain cs0 →
  Str.startswith tpd (path_of cs0 +:+ "/") = true →
  is_Some (FS.nodes fs !! path_of cs0) →
  extract tpd zipname archive package_zip rlp errors warnings names fs = (fs', r) →
  changed_within (path_of cs0) fs fs'.
Proof.
  intros Hne Hcs0 Htpd. revert fs.
  induction names as [|path names IH]; intros fs Hroot; simpl; [by intros [= <- _]|].
  destruct (destination _ _ _ _) as [dest|e] eqn:Hdest; [|by intros [= <- _]].
  destruct (Str.startswith dest tpd) eqn:Hprefix; cbn [negb]; [|by intros [= <- _]].
  destruct (destination_below _ _ _ _ _ cs0 Hne Hcs0 Htpd Hdest Hprefix)
    as (ds & Hds & Hplain & ->).
  destruct (extract_entry _ _ _ _ _ _) as [fs1 [[]|e]] eqn:Hentry.
  - apply extract_entry_within in Hentry; [|done|done|by apply Forall_app|done].
    intros Hrest. eapply changed_within_trans; [done|].
    apply IH; [|done]. by apply Hentry.
  - intros [= <- _]. apply extract_entry_within in Hentry; [done..|by apply Forall_app|done].
Qed.

Lemma test_archive_within env spec info tpd zipname archive package_zip errors warnings
    fs fs' r cs0 :
  cs0 ≠ [] → Forall plain cs0 →
  Str.startswith tpd (path_of cs0 +:+ "/") = true →
  is_Some (FS.nodes fs !! path_of cs0) →
  test_archive env spec info tpd zipname archive package_zip errors warnings fs = (fs', r) →
  changed_within (path_of cs0) fs fs'.
Proof.
  intros Hne Hcs0 Htpd Hroot. unfold test_archive.
  destruct (root_level _ _ _) as [[rlp|res]|e]; [|by intros [= <- _]..].
  destruct (extract _ _ _ _ _ _ _ _ _) as [fs1 r1] eqn:Hextract.
  apply extract_within with (cs0 := cs0) in Hextract; [|done..].
  destruct r1 as [[[]|res]|e]; by intros [= <- _].
Qed.

End extract_facts.

Section run_tests_frame.
Implicit Types (cs ds : list string) (fs : FS.t).

Lemma startswith_double_slash_app cs rest :
  cs ≠ [] → Forall plain cs → Str.startswith (path_of cs +:+ rest) "//" = false.
Proof.
  intros Hne Hcs. destruct Hcs as [|c cs (Hc & _ & _ & Hslash) _]; [done|].
  destruct c as [|a c]; [done|]. apply slashless_cons in Hslash as [Ha _].
  apply not_true_iff_false. intros [r Hr]%startswith_spec.
  unfold path_of in Hr. destruct cs; simpl in Hr; by injection Hr as ->.
Qed.

Lemma normpath_child cs name :
  cs ≠ [] → Forall plain cs → slashless name →
  PosixPath.normpath (path_of cs +:+ "/" +:+ name) =
    "/" +:+ Str.join "/" (PosixPath.normpath_comps 1 (rev cs) [name]).
Proof.
  intros Hne Hcs Hname. unfold PosixPath.normpath.
  rewrite startswith_double_slash_app by done.
  rewrite split_app, split_path_of, (split_slashless name) by done.
  change (String.eqb (path_of cs +:+ _) "") with false.
  change (Str.startswith (path_of cs +:+ _) "/") with true.
  cbv iota. cbn [andb]. rewrite <- app_comm_cons.
  cbn [PosixPath.normpath_comps String.eqb orb].
  rewrite normpath_comps_plain by done. rewrite app_nil_r.
  done.
Qed.

(** The names that stand for no directory of their own: below a
    canonical path, the empty name and [.] resolve to that path and
    [..] resolves to its parent. *)
Lemma normpath_dot_names cs c name :
  Forall plain (cs ++ [c]) →
  name = "" ∨ name = "." ∨ name = ".." →
  PosixPath.normpath (path_of (cs ++ [c]) +:+ "/" +:+ name) =
    if String.eqb name ".." then path_of cs else path_of (cs ++ [c]).
Proof.
  intros Hall Hname.
  rewrite normpath_child; [|by destruct cs|done|by destruct Hname as [->|[->| ->]]].
  rewrite rev_unit.
  apply Forall_app in Hall as [_ [(_ & _ & Hc%String.eqb_neq & _) _]%Forall_cons].
  destruct Hname as [->|[->| ->]]; simpl; rewrite ?Hc; simpl;
    by rewrite rev_involutive.
Qed.

Lemma plain_dec name : slashless name → plain name ∨ name = "" ∨ name = "." ∨ name = "..".
Proof.
  intros Hslash.
  destruct (decide (name = "")); [auto|]. destruct (decide (name = ".")); [auto|].
  destruct (decide (name = "..")); [auto|]. by left.
Qed.

Lemma plain_package_file name : slashless name → plain (name +:+ ".sublime-package").
Proof.
  intros Hname. repeat split.
  - by destruct name.
  - intros Heq%(f_equal String.length). rewrite str_length_app in Heq. simpl in Heq. lia.
  - intros Heq%(f_equal String.length). rewrite str_length_app in Heq. simpl in Heq. lia.
  - by apply slashless_app.
Qed.

Lemma path_of_child cs c :
  cs ≠ [] → path_of (cs ++ [c]) = path_of cs +:+ "/" +:+ c.
Proof. intros. by rewrite path_of_app. Qed.

(** From [tempfile.mkdtemp()] to the end of the [try] block, [run_tests]
    changes the file system within its temporary directory only. *)
Lemma test_download_within env spec info name url errors warnings fs fs' r cs0 :
  mkdtemp env = path_of cs0 → cs0 ≠ [] → Forall plain cs0 →
  slashless name →
  FS.lookup_node fs (PosixPath.dirname (mkdtemp env)) = Some FS.Dir →
  test_download env spec info name url errors warnings fs = (fs', r) →
  changed_within (path_of cs0) fs fs' ∧ is_Some (FS.nodes fs' !! path_of cs0).
Proof.
  intros Htmp Hne Hcs0 Hname Hparent Hrun.
  cut (changed_within (path_of cs0) (FS.set_node fs (path_of cs0) FS.Dir) fs').
  { intros Hfs'. split.
    - eapply changed_within_trans; [|done]. apply set_node_within.
      rewrite resolve_path_of by done. apply within_self.
    - apply Hfs'. simpl. rewrite resolve_path_of by done. by rewrite lookup_insert_eq. }
  revert Hrun. unfold test_download. rewrite Htmp.
  change (String.eqb (path_of cs0) "") with false. cbv iota.
  set (fs0 := FS.set_node fs (path_of cs0) FS.Dir).
  assert (is_Some (FS.nodes fs0 !! path_of cs0)) as Hroot0.
  { simpl. rewrite resolve_path_of by done. by rewrite lookup_insert_eq. }
  rewrite !join_path_of by (done || by apply plain_package_file).
  destruct (FS.mkdir fs0 _) as [fs1|e] eqn:Hmkdir; [|by intros [= <- _]].
  apply mkdir_ok in Hmkdir as [-> Hexists].
  assert (plain name) as Hplain.
  { destruct (plain_dec name Hname) as [|Hdots]; [done|]. exfalso.
    apply not_true_iff_false in Hexists. apply Hexists.
    unfold FS.exists_, FS.lookup_node, FS.resolve. apply bool_decide_eq_true.
    rewrite abspath_absolute by done.
    destruct (exists_last Hne) as (cs & c & ->).
    rewrite normpath_dot_names by done.
    destruct Hdots as [->|[->| ->]]; simpl; [done..|].
    assert (is_Some (FS.nodes fs !! path_of cs)) as Hsome.
    { apply Forall_app in Hcs0 as [Hcs [Hc%plain_slashless _]%Forall_cons].
      rewrite Htmp in Hparent. unfold FS.lookup_node in Hparent.
      rewrite dirname_path_of in Hparent by done.
      rewrite resolve_path_of in Hparent by done. by rewrite Hparent. }
    unfold fs0. simpl.
    destruct (decide (FS.resolve fs (path_of (cs ++ [c])) = path_of cs)) as [->|?].
    - by rewrite lookup_insert_eq.
    - by rewrite lookup_insert_ne. }
  rewrite <- !path_of_child by done.
  assert (Forall plain (cs0 ++ [name])) as Hdir by (apply Forall_app; auto).
  assert (Forall plain (cs0 ++ [name +:+ ".sublime-package"])) as Hzip.
  { apply Forall_app. split; [done|]. repeat constructor; by apply plain_package_file. }
  set (fs1 := FS.set_node fs0 _ FS.Dir).
  assert (changed_within (path_of cs0) fs0 fs1) as Hfs1 by by apply set_node_below.
  destruct (FS.open_wb fs1 _) as [fs2|e] eqn:Hopen; [|by intros [= <- _]].
  apply open_wb_ok in Hopen as ->.
  set (fs2 := FS.set_node fs1 _ _).
  assert (changed_within (path_of cs0) fs0 fs2) as Hfs2.
  { eapply changed_within_trans; [done|]. by apply set_node_below. }
  destruct (fetch env url) as [archive|str_e|e]; [|by intros [= <- _]..].
  set (fs3 := FS.write fs2 _ _).
  assert (changed_within (path_of cs0) fs0 fs3) as Hfs3.
  { eapply changed_within_trans; [done|]. by apply set_node_below. }
  destruct (open_zip env archive) as [package_zip|e]; [|by intros [= <- _]].
  intros Harchive. eapply changed_within_trans; [done|].
  eapply test_archive_within; [done..| |by apply Hfs3|done].
  rewrite path_of_child by done. rewrite <- str_app_assoc. apply startswith_app.
Qed.

End run_tests_frame.

Section fresh_facts.
Implicit Types (cs : list string) (fs : FS.t).

Lemma path_of_child_ne cs c : cs ≠ [] → path_of (cs ++ [c]) ≠ path_of cs.
Proof.
  intros Hne Heq%(f_equal String.length). rewrite path_of_child in Heq by done.
  rewrite !str_length_app in Heq. simpl in Heq. lia.
Qed.

Lemma path_of_child_inj cs c c' : cs ≠ [] → path_of (cs ++ [c]) = path_of (cs ++ [c']) → c = c'.
Proof.
  intros Hne. rewrite !path_of_child by done. rewrite <- !str_app_assoc.
  apply (inj (String.app _)).
Qed.

Lemma cleanup_fresh cs fs fs' :
  cs ≠ [] → Forall plain cs →
  fresh (path_of cs) fs →
  changed_within (path_of cs) fs fs' →
  is_Some (FS.nodes fs' !! path_of cs) →
  cleanup (path_of cs) fs' = fs.
Proof.
  intros Hne Hcs Hfresh (Hcwd & _ & Hout) Hroot. unfold cleanup.
  change (String.eqb (path_of cs) "") with false. cbn [negb andb].
  rewrite (proj2 (exists_path_of fs' cs Hcs) Hroot).
  unfold FS.rmtree. rewrite resolve_path_of by done. rewrite Hcwd.
  destruct fs as [cwd nodes]. simpl in *. f_equal.
  apply map_eq. intros k. apply option_eq. intros n.
  rewrite map_lookup_filter_Some. simpl. split.
  - intros [Hk Hwithin]. by rewrite <- Hout.
  - intros Hk. destruct (FS.within (path_of cs) k) eqn:Hwithin.
    + by rewrite Hfresh in Hk.
    + by rewrite Hout.
Qed.

(** In a fresh temporary directory the directory of the package and the
    file of the archive are made, and all depends on the download. *)
Lemma test_download_fresh env spec info name url errors warnings fs cs :
  mkdtemp env = path_of cs → cs ≠ [] → Forall plain cs → plain name →
  fresh (path_of cs) fs →
  test_download env spec info name url errors warnings fs =
    let tmp_package_dir := path_of (cs ++ [name]) in
    let tmp_package_path := path_of (cs ++ [name +:+ ".sublime-package"]) in
    let fs := FS.set_node (FS.set_node (FS.set_node fs (path_of cs) FS.Dir)
                                       tmp_package_dir FS.Dir)
                          tmp_package_path (FS.File []) in
    match fetch env url with
    | FetchRaises e => (fs, Raise e)
    | DownloaderException str_e =>
        (fs, Ok (build_result (errors ++ [msg str_e]) warnings))
    | Fetched archive =>
        let fs := FS.write fs tmp_package_path archive in
        match open_zip env archive with
        | Raise e => (fs, Raise e)
        | Ok package_zip =>
            test_archive env spec info tmp_package_dir tmp_package_path archive
                         package_zip errors warnings fs
        end
    end.
Proof.
  intros Htmp Hne Hcs Hname Hfresh. unfold test_download. rewrite Htmp.
  change (String.eqb (path_of cs) "") with false. cbv iota.
  pose proof (plain_slashless _ Hname) as Hslash.
  pose proof (plain_package_file _ Hslash) as Hfile.
  rewrite !join_path_of by (done || by apply plain_slashless).
  rewrite <- !path_of_child by done.
  assert (Forall plain (cs ++ [name])) as Hdir by (apply Forall_app; auto).
  assert (Forall plain (cs ++ [name +:+ ".sublime-package"])) as Hzip
    by (apply Forall_app; auto).
  set (fs0 := FS.set_node fs (path_of cs) FS.Dir).
  assert (FS.mkdir fs0 (path_of (cs ++ [name]))
          = Ok (FS.set_node fs0 (path_of (cs ++ [name])) FS.Dir)) as ->.
  { unfold FS.mkdir, FS.exists_, FS.lookup_node.
    rewrite resolve_path_of, dirname_path_of, resolve_path_of by done.
    unfold fs0 at 1 2. simpl. rewrite resolve_path_of by done.
    rewrite lookup_insert_ne by (symmetry; by apply path_of_child_ne).
    rewrite Hfresh by (by apply within_below).
    rewrite bool_decide_eq_false_2 by (by intros []). by rewrite lookup_insert_eq. }
  set (fs1 := FS.set_node fs0 _ FS.Dir).
  assert (FS.open_wb fs1 (path_of (cs ++ [name +:+ ".sublime-package"]))
          = Ok (FS.set_node fs1 (path_of (cs ++ [name +:+ ".sublime-package"]))
                            (FS.File []))) as ->; [|done].
  unfold FS.open_wb, FS.lookup_node.
  rewrite resolve_path_of, dirname_path_of, resolve_path_of
    by (done || by apply plain_slashless).
  unfold fs1 at 1 2, fs0. simpl. rewrite !resolve_path_of by done.
  assert (path_of (cs ++ [name]) ≠ path_of (cs ++ [name +:+ ".sublime-package"])) as Hdiff.
  { intros Heq%path_of_child_inj%(f_equal String.length); [|done].
    rewrite str_length_app in Heq. simpl in Heq. lia. }
  rewrite (lookup_insert_ne _ _ _ _ Hdiff).
  rewrite (lookup_insert_ne _ (path_of cs) (path_of (cs ++ [_])))
    by (symmetry; by apply path_of_child_ne).
  rewrite Hfresh by (by apply within_below).
  rewrite (lookup_insert_ne _ (path_of (cs ++ [name])) (path_of cs))
    by (by apply path_of_child_ne).
  by rewrite lookup_insert_eq.
Qed.

End fresh_facts.

Lemma run_tests_restores env spec fs fs' r :
  canonical (mkdtemp env) →
  fresh (mkdtemp env) fs →
  FS.lookup_node fs (PosixPath.dirname (mkdtemp env)) = Some FS.Dir →
  run_tests env spec fs = (fs', r) →
  fs' = fs.
Proof.
  intros (cs0 & Hne & Hcs0 & Htmp) Hfresh Hparent. unfold run_tests.
  destruct (fetch_package_metadata env spec) as [[|info|message]|e];
    [by intros [= <- _]| |by intros [= <- _]..].
  destruct (info_name info) as [| | |name| |]; try by intros [= <- _].
  destruct (_ || _) eqn:Hname; [by intros [= <- _]|].
  apply orb_false_elim in Hname as [Hname _].
  destruct (structural_rules spec info name) as [[errors warnings]|e];
    [|by intros [= <- _]].
  destruct (info_releases info) as [|release releases]; [by intros [= <- _]|].
  destruct (release_url release) as [| | |url| |]; try by intros [= <- _].
  destruct (negb _); [by intros [= <- _]|].
  destruct (test_download _ _ _ _ _ _ _ _) as [fs1 r1] eqn:Hrun.
  apply test_download_within with (cs0 := cs0) in Hrun as [Hchanged Hroot]; [|done..].
  intros [= <- _]. rewrite Htmp in *. by apply cleanup_fresh.
Qed.

Lemma sample_fs_fresh root :
  Forall (λ path, FS.within root path = false) ["/"; "/tmp"; "/home"; "/home/runner"] →
  fresh root Sample.fs.
Proof.
  intros Hout path Hwithin.
  destruct (FS.nodes Sample.fs !! path) as [n|] eqn:Hnode; [|done].
  apply elem_of_list_to_map_2 in Hnode.
  rewrite Forall_forall in Hout.
  assert (FS.within root path = false) as Hpath; [|congruence].
  apply Hout. set_unfold. naive_solver.
Qed.

Lemma canonical_sample : canonical "/tmp/tmpab12cd34".
Proof. exists ["tmp"; "tmpab12cd34"]. split; [done|]. split; [|done]. by repeat constructor. Qed.

(** X1. [run_tests] leaves the file system as it found it. When
    [tempfile.mkdtemp()] gives a canonical path in a directory that
    exists, with nothing within that path yet, the file system that
    [run_tests] leaves is the one it was started on, whatever the spec,
    the provider, the download, the archive and the checkers are, and
    whether it returns or raises: what it has written lies within the
    temporary directory, which its [finally] clause removes. (The
    checkers read the file system and do not write to it.) *)
Theorem run_tests_restores_file_system env spec fs fs' r :
  canonical (mkdtemp env) →
  fresh (mkdtemp env) fs →
  FS.lookup_node fs (PosixPath.dirname (mkdtemp env)) = Some FS.Dir →
  run_tests env spec fs = (fs', r) →
  fs' = fs.
Proof. apply run_tests_restores. Qed.

Lemma run_tests_restores_file_system_witness :
  let data := [Byte.x65; Byte.x76; Byte.x69; Byte.x6c] in
  let url := "https://codeload.github.com/someone/Foo/zip/1.0.0" in
  let info := Sample.info "Foo" [Sample.release url] (Some "README.md") in
  let env := Sample.env info [("b//tmp/tmpab12cd34/Foobar", data)] in
  (run_tests env (Sample.spec [Sample.tags]) Sample.fs).1 = Sample.fs.
Proof.
  intros data url info env.
  apply (run_tests_restores_file_system env (Sample.spec [Sample.tags]) Sample.fs _
           (run_tests env (Sample.spec [Sample.tags]) Sample.fs).2).
  - apply canonical_sample.
  - apply sample_fs_fresh. by repeat constructor.
  - reflexivity.
  - apply surjective_pairing.
Defined.

(** X2. From [tempfile.mkdtemp()] to the end of its [try] block,
    [run_tests] writes within its temporary directory only: for a
    package name without a slash and a canonical temporary directory in
    a directory that exists, the download and the extraction of any
    archive leave every node outside of the temporary directory as it
    was, and no node is gone. The test of a destination, which a sibling
    of the destination directory passes (C1), keeps the entries within
    the temporary directory. *)
Theorem extraction_stays_in_temporary_directory
    env spec info name url errors warnings fs fs' r :
  canonical (mkdtemp env) →
  Str.contains name "/" = false →
  FS.lookup_node fs (PosixPath.dirname (mkdtemp env)) = Some FS.Dir →
  test_download env spec info name url errors warnings fs = (fs', r) →
  FS.cwd fs' = FS.cwd fs
  ∧ (∀ path, is_Some (FS.nodes fs !! path) → is_Some (FS.nodes fs' !! path))
  ∧ (∀ path, FS.within (mkdtemp env) path = false →
       FS.nodes fs' !! path = FS.nodes fs !! path).
Proof.
  intros (cs & Hne & Hcs & Htmp) Hname Hparent Hrun. rewrite Htmp.
  by eapply test_download_within.
Qed.

Lemma extraction_stays_in_temporary_directory_witness :
  let data := [Byte.x65; Byte.x76; Byte.x69; Byte.x6c] in
  let url := "https://codeload.github.com/someone/Foo/zip/1.0.0" in
  let info := Sample.info "Foo" [Sample.release url] (Some "README.md") in
  let env := Sample.env info [("b//tmp/tmpab12cd34/Foobar", data)] in
  let fs' := (test_download env (Sample.spec [Sample.tags]) info "Foo" url [] []
                            Sample.fs).1 in
  FS.nodes fs' !! "/tmp/tmpab12cd34/Foobar" = Some (FS.File data)
  ∧ FS.nodes fs' !! "/tmp/Foobar" = None
  ∧ FS.nodes fs' !! "/tmp" = Some FS.Dir.
Proof.
  intros data url info env fs'.
  destruct (extraction_stays_in_temporary_directory
              env (Sample.spec [Sample.tags]) info "Foo" url [] [] Sample.fs fs'
              (test_download env (Sample.spec [Sample.tags]) info "Foo" url [] []
                             Sample.fs).2)
    as (_ & _ & Hout).
  - apply canonical_sample.
  - reflexivity.
  - reflexivity.
  - apply surjective_pairing.
  - split; [by vm_compute|]. split; by rewrite Hout.
Defined.

(** X3. When the download of the primary release fails with a
    DownloaderException, [run_tests] returns the errors and the warnings
    of the structural rules, with the text of the exception as one more
    error after them, and the temporary directory is removed: the file
    system is as it was. (With a url that is not https the findings of
    the structural rules are dropped instead, C9.) *)
Theorem failed_download_keeps_findings
    env spec fs yielded info name release rest url errors warnings str_e :
  provider env spec = Yields yielded info →
  info_name info = JStr name →
  plain name →
  Str.contains name backslash = false →
  info_releases info = release :: rest →
  release_url release = JStr url →
  Str.startswith url "https://" = true →
  structural_rules spec info name = Ok (errors, warnings) →
  canonical (mkdtemp env) →
  fresh (mkdtemp env) fs →
  fetch env url = DownloaderException str_e →
  run_tests env spec fs = (fs, Ok (build_result (errors ++ [msg str_e]) warnings)).
Proof.
  intros Hrun Hname Hplain Hback Hreleases Hurl Hhttps Hrules (cs & Hne & Hcs & Htmp)
         Hfresh Hfetch.
  rewrite (run_tests_valid_name _ _ _ _ _ _ Hrun Hname (plain_slashless _ Hplain) Hback).
  rewrite Hrules, Hreleases, Hurl, Hhttps. cbn [negb].
  rewrite (test_download_fresh _ _ _ _ _ _ _ _ cs Htmp Hne Hcs Hplain)
    by by rewrite <- Htmp.
  rewrite Hfetch. cbv zeta. rewrite Htmp in Hfresh |- *. f_equal.
  assert (Forall plain (cs ++ [name])) as Hdir by (apply Forall_app; auto).
  pose proof (plain_package_file _ (plain_slashless _ Hplain)) as Hfile.
  assert (Forall plain (cs ++ [name +:+ ".sublime-package"])) as Hzip
    by (apply Forall_app; auto).
  apply cleanup_fresh; try done.
  - eapply changed_within_trans; [|by apply set_node_below].
    eapply changed_within_trans; [|by apply set_node_below].
    apply set_node_within. rewrite resolve_path_of by done. apply within_self.
  - simpl. rewrite !resolve_path_of by done.
    rewrite !lookup_insert_ne by (by apply path_of_child_ne).
    by rewrite lookup_insert_eq.
Qed.

Lemma failed_download_keeps_findings_witness :
  let url := "https://codeload.github.com/someone/Foo/zip/1.0.0" in
  let info := Sample.info "Foo" [Sample.release url] None in
  let env := Env_ (λ _, Yields "Foo" info) "/tmp/tmpab12cd34"
                  (λ _, DownloaderException "HTTP error 404 downloading package")
                  (λ _, Ok (Sample.zip [])) [] in
  let spec := Sample.spec [JObj [("branch", JStr "master")]] in
  run_tests env spec Sample.fs
  = (Sample.fs,
     Ok (build_result
           [msg ("Branch-based releases are not supported for new packages; please use "
                 +:+ dq +:+ "tags" +:+ dq +:+ ": true");
            msg "HTTP error 404 downloading package"]
           [msg "Creating a readme for your package will help users understand what it does and how to use it"])).
Proof.
  intros url info env spec.
  apply (failed_download_keeps_findings env spec Sample.fs "Foo" info "Foo"
           (Sample.release url) [] url
           [msg ("Branch-based releases are not supported for new packages; please use "
                 +:+ dq +:+ "tags" +:+ dq +:+ ": true")]);
    try reflexivity.
  - by repeat split.
  - apply canonical_sample.
  - apply sample_fs_fresh. by repeat constructor.
Defined.

(** ** The error paths of [run_tests] *)

Section keeps_facts.

Lemma keeps_build_result errors more warnings :
  keeps errors (build_result (errors ++ more) warnings).
Proof. by exists more. Qed.

Lemma scan_namelist_keeps errors warnings names root_level_paths last_path r :
  scan_namelist errors warnings names root_level_paths last_path = Ok (Return r) →
  keeps errors r.
Proof.
  revert root_level_paths last_path.
  induction names as [|path names IH]; intros rlp lp; simpl; [done|].
  destruct (Str.head _) as [c|]; simpl; [|done].
  case_match; [intros [= <-]; apply keeps_build_result|]. apply IH.
Qed.

Lemma root_level_keeps errors warnings names r :
  root_level errors warnings names = Ok (Return r) → keeps errors r.
Proof.
  unfold root_level.
  destruct (scan_namelist _ _ _ _ _) as [[[rlp lp]|r']|] eqn:Hscan; simpl; [| |done].
  - repeat case_match; done.
  - intros [= <-]. by eapply scan_namelist_keeps.
Qed.

Lemma extract_keeps dir zipname archive package_zip rlp errors warnings names fs fs' r :
  extract dir zipname archive package_zip rlp errors warnings names fs
    = (fs', Ok (Return r)) →
  keeps errors r.
Proof.
  revert fs. induction names as [|path names IH]; intros fs; simpl; [done|].
  destruct (destination _ _ _ _); [|done].
  case_match; [intros [= _ <-]; apply keeps_build_result|].
  destruct (extract_entry _ _ _ _ _ _) as [fs1 [[]|]]; [apply IH|done].
Qed.

Lemma run_checkers_keeps spec info fs dir checkers errors warnings errors' warnings' :
  run_checkers spec info fs dir checkers errors warnings = Ok (errors', warnings') →
  ∃ more, errors' = errors ++ more.
Proof.
  revert errors warnings.
  induction checkers as [|checker checkers IH]; intros errors warnings; simpl.
  - intros [= <- _]. exists []. by rewrite app_nil_r.
  - destruct (configure _ _ _); simpl; [|done].
    destruct (perform_check _ _ _ _) as [[failures checker_warnings]|]; simpl; [|done].
    intros [more ->]%IH. eexists. by rewrite <- app_assoc.
Qed.

Lemma test_archive_keeps env spec info dir zipname archive package_zip errors warnings
    fs fs' r :
  test_archive env spec info dir zipname archive package_zip errors warnings fs
    = (fs', Ok r) →
  keeps errors r.
Proof.
  unfold test_archive.
  destruct (root_level _ _ _) as [[rlp|r']|] eqn:Hroot; [| |done].
  - destruct (extract _ _ _ _ _ _ _ _ _) as [fs1 [[[]|r']|]] eqn:Hextract; [| |done].
    + destruct (run_checkers _ _ _ _ _ _ _) as [[errors' warnings']|] eqn:Hcheck;
        simpl; [|done].
      apply run_checkers_keeps in Hcheck as [more ->].
      intros [= _ <-]. apply keeps_build_result.
    + intros [= _ <-]. by eapply extract_keeps.
  - intros [= _ <-]. by eapply root_level_keeps.
Qed.

Lemma test_download_keeps env spec info name url errors warnings fs fs' r :
  test_download env spec info name url errors warnings fs = (fs', Ok r) →
  tr_errors r = [msg "Could not create temp dir"] ∨ keeps errors r.
Proof.
  unfold test_download. case_match; [intros [= _ <-]; by left|]. right. revert H0.
  destruct (FS.mkdir _ _); [|done].
  destruct (FS.open_wb _ _); [|done].
  destruct (fetch _ _); [|intros [= _ <-]; apply keeps_build_result|done].
  destruct (open_zip _ _); [|done].
  apply test_archive_keeps.
Qed.

Lemma release_sources_rules_keeps release_sources errors warnings errors' warnings' :
  release_sources_rules release_sources errors warnings = Ok (errors', warnings') →
  ∃ more, errors' = errors ++ more.
Proof.
  revert errors warnings.
  induction release_sources as [|release_source rest IH]; intros errors warnings; simpl.
  - intros [= <- _]. exists []. by rewrite app_nil_r.
  - unfold release_source_rules.
    destruct (Py.contains _ _) as [has_branch|]; simpl; [|done].
    destruct (Py.get _ _ _) as [platforms|]; simpl; [|done].
    destruct (Py.set_eq_strs _ _) as [all_platforms|]; simpl; [|done].
    intros [more ->]%IH. destruct has_branch; [|by eexists].
    eexists. by rewrite <- app_assoc.
Qed.

Lemma structural_rules_keeps spec info name errors warnings :
  structural_rules spec info name = Ok (errors, warnings) →
  Str.contains (Str.lower name) "sublime" = true →
  ∃ more, errors = Raw ("Package name contains the word " +:+ dq +:+ "sublime" +:+ dq)
                   :: more.
Proof.
  unfold structural_rules. intros Hrules Hsublime. rewrite Hsublime in Hrules.
  revert Hrules.
  destruct (info_releases info).
  - destruct (Py.getitem _ _); simpl; [|done].
    destruct (Py.truthy _), (info_readme info); simpl; intros [= <- _]; by eexists.
  - destruct (Py.getitem _ _); simpl; [|done].
    destruct (Py.iter _); simpl; [|done].
    destruct (release_sources_rules _ _ _) as [[errors' warnings']|] eqn:Hrel;
      simpl; [|done].
    apply release_sources_rules_keeps in Hrel as [more ->].
    destruct (info_readme info); intros [= <- _]; by eexists.
Qed.

End keeps_facts.

(** X4. The error of the rule on the word sublime is appended as a
    str, not as a formatted finding. So for a package whose name holds
    that word, in any case of its letters, every result that [run_tests]
    returns, the three results apart that replace the findings collected
    so far (the invalid name, the url that is not https, the temporary
    directory that could not be made), has that str for its first error,
    and the loop of [test_pull_request] over the added packages raises a
    TypeError when it reads the message of that error. *)
Theorem sublime_name_breaks_review env spec fs fs' r yielded info name :
  provider env spec = Yields yielded info →
  info_name info = JStr name →
  Str.contains (Str.lower name) "sublime" = true →
  run_tests env spec fs = (fs', Ok r) →
  tr_errors r = [msg "Invalid package name"]
  ∨ tr_errors r = [msg "Primary release URL does not begin with https://"]
  ∨ tr_errors r = [msg "Could not create temp dir"]
  ∨ ∀ package st, ∃ e, add_test_results package r st = Raise e
                       ∧ exn_class e = "TypeError".
Proof.
  intros Hrun Hname Hsublime. unfold run_tests, fetch_package_metadata.
  rewrite Hrun, Hname. simpl.
  destruct (_ || _); [intros [= _ <-]; by left|].
  destruct (structural_rules spec info name) as [[errors warnings]|] eqn:Hrules; [|done].
  destruct (structural_rules_keeps _ _ _ _ _ Hrules Hsublime) as [more ->].
  assert (∀ r, built r → keeps (Raw ("Package name contains the word " +:+ dq
                                     +:+ "sublime" +:+ dq) :: more) r →
            ∀ package st, ∃ e, add_test_results package r st = Raise e
                               ∧ exn_class e = "TypeError") as Hcrash.
  { intros r' Hbuilt [more' Herrors] package st. unfold add_test_results.
    assert (Hres := build_result_verdict (tr_errors r') (tr_warnings r')).
    rewrite <- Hbuilt in Hres. rewrite Hres, Herrors. simpl. by eexists. }
  destruct (info_releases info) as [|release releases].
  { intros [= _ <-]. do 3 right. apply Hcrash; [done|]. exists []. by rewrite app_nil_r. }
  destruct (release_url release); try (intros [= _ <-]; right; by left).
  destruct (negb _); [intros [= _ <-]; right; by left|].
  destruct (test_download _ _ _ _ _ _ _ _) as [fs1 r1] eqn:Hdl.
  intros [= _ ->].
  destruct (test_download_keeps _ _ _ _ _ _ _ _ _ _ Hdl) as [Htmp|Hkeeps]; [auto|].
  do 3 right. apply Hcrash; [|done]. by eapply test_download_built.
Qed.

Lemma sublime_name_breaks_review_witness :
  let env := Sample.env (Sample.info "Sublime Foo" [] (Some "README.md")) [] in
  ∃ r, run_tests env (Sample.spec []) Sample.fs = (Sample.fs, Ok r)
       ∧ ∃ e, add_test_results "Sublime Foo" r (Review_ [] false false) = Raise e
              ∧ exn_class e = "TypeError".
Proof.
  intros env. eexists. split; [reflexivity|].
  destruct (sublime_name_breaks_review env (Sample.spec []) Sample.fs Sample.fs _
              "Foo" (Sample.info "Sublime Foo" [] (Some "README.md")) "Sublime Foo"
              eq_refl eq_refl eq_refl eq_refl)
    as [?|[?|[?|Hcrash]]]; [done..|].
  apply Hcrash.
Defined.

(** X5. [clean_message] reads the first argument of the exception as
    a str. An exception without arguments, or whose first argument is
    not a str, that the provider raises makes
    [fetch_package_metadata], and [run_tests] with it, raise an
    IndexError or an AttributeError from the handler, and no result is
    returned; the same exception as the last of the provider's
    [failed_sources] is raised within the [try] block, and the handler
    returns the text of the second exception as the message of a
    failure. *)
Theorem exception_without_message env spec fs e :
  (∀ message rest, exn_args e ≠ JStr message :: rest) →
  (provider env spec = ProviderRaises e →
     ∃ e', fetch_package_metadata env spec = Raise e'
           ∧ run_tests env spec fs = (fs, Raise e')
           ∧ (exn_class e' = "IndexError" ∨ exn_class e' = "AttributeError"))
  ∧ (∀ failed_sources source broken_packages,
       provider env spec = Exhausted (failed_sources ++ [(source, e)]) broken_packages →
       ∃ message, fetch_package_metadata env spec = Ok (Failure message)
                  ∧ run_tests env spec fs = (fs, Ok (build_result [msg message] []))).
Proof.
  intros Hargs.
  assert (∃ e', clean_message e = Raise e'
                ∧ (exn_class e' = "IndexError" ∨ exn_class e' = "AttributeError")
                ∧ ∃ message, clean_message e' = Ok message) as (e' & Hclean & Hclass & Hagain).
  { unfold clean_message. destruct (exn_args e) as [|[| | |message| |] rest] eqn:Hargs';
      try (by destruct (Hargs message rest)); eexists; (split; [done|]); simpl;
      (split; [auto|]); by eexists. }
  split.
  - intros Hrun. exists e'. unfold run_tests, fetch_package_metadata.
    by rewrite Hrun, Hclean.
  - intros failed_sources source broken_packages Hrun.
    destruct Hagain as [message Hagain]. exists message.
    unfold run_tests, fetch_package_metadata.
    by rewrite Hrun, last_snoc, Hclean; simpl; rewrite Hagain.
Qed.

Lemma exception_without_message_witness :
  let e := Exn "OSError" [JInt 2; JStr "No such file or directory"] in
  (∃ e', run_tests (Sample.env_of (ProviderRaises e)) (Sample.spec []) Sample.fs
         = (Sample.fs, Raise e') ∧ exn_class e' = "AttributeError")
  ∧ ∃ message,
      run_tests (Sample.env_of (Exhausted [("https://example.com", e)] []))
                (Sample.spec []) Sample.fs
      = (Sample.fs, Ok (build_result [msg message] [])).
Proof.
  intros e. split.
  - destruct (proj1 (exception_without_message
                       (Sample.env_of (ProviderRaises e)) (Sample.spec []) Sample.fs e
                       ltac:(done)) eq_refl)
      as (e' & Hfetch & Hrun & Hclass).
    exists e'. split; [done|]. injection Hfetch as <-. reflexivity.
  - destruct (proj2 (exception_without_message
                       (Sample.env_of (Exhausted [("https://example.com", e)] []))
                       (Sample.spec []) Sample.fs e ltac:(done))
                [] "https://example.com" [] eq_refl)
      as (message & _ & Hrun).
    by exists message.
Defined.

(** X6. A spec without the key [releases], whose resolved record has a
    valid name, makes [run_tests] raise KeyError('releases'), whether
    the record has releases or not: both branches of the rules read
    [spec['releases']]. The file system is left as it was. *)
Theorem spec_without_releases env spec fs yielded info name :
  provider env spec = Yields yielded info →
  info_name info = JStr name →
  Str.contains name "/" = false →
  Str.contains name backslash = false →
  Py.lookup "releases" spec = None →
  run_tests env spec fs = (fs, raise "KeyError" "releases").
Proof.
  intros Hrun Hname Hslash Hback Hspec.
  rewrite (run_tests_valid_name _ _ _ _ _ _ Hrun Hname Hslash Hback).
  unfold structural_rules, Py.getitem. rewrite Hspec.
  by destruct (info_releases info).
Qed.

Lemma spec_without_releases_witness :
  let info := Sample.info "Foo" [] (Some "README.md") in
  let spec := [("details", JStr "https://github.com/someone/Foo")] in
  run_tests (Sample.env info []) spec Sample.fs = (Sample.fs, raise "KeyError" "releases").
Proof.
  intros info spec.
  apply (spec_without_releases (Sample.env info []) spec Sample.fs "Foo" info "Foo");
    reflexivity.
Defined.

Lemma scan_namelist_empty_name errors warnings before after root_level_paths last_path :
  Forall accepted before →
  scan_namelist errors warnings (before ++ "" :: after) root_level_paths last_path
  = raise "IndexError" "string index out of range".
Proof.
  intros Hbefore. revert root_level_paths last_path.
  induction Hbefore as [|path before (Hne & Habs & Hup) _ IH]; intros rlp lp; [done|].
  rewrite <- app_comm_cons. cbn [scan_namelist]. fold (normalize path).
  destruct (normalize path) as [|c rest] eqn:Hpath; [done|]. simpl Str.head. simpl.
  destruct (Ascii.eqb_spec c "/") as [->|_].
  { cbn [Str.startswith] in Habs. by rewrite Ascii.eqb_refl in Habs. }
  rewrite Hup. simpl. apply IH.
Qed.

(** X7. An archive with an entry whose name is empty, after entries
    that the first loop lets through, makes the block of the archive
    raise an IndexError at [path[0]], whatever follows that entry:
    nothing is extracted and no checker is run. *)
Theorem empty_entry_name env spec info dir zipname archive package_zip errors warnings
    fs before after :
  namelist package_zip = before ++ "" :: after →
  Forall accepted before →
  test_archive env spec info dir zipname archive package_zip errors warnings fs
  = (fs, raise "IndexError" "string index out of range").
Proof.
  intros Hnames Hbefore. unfold test_archive, root_level.
  by rewrite Hnames, scan_namelist_empty_name.
Qed.

Lemma empty_entry_name_witness :
  let package_zip := Sample.zip [("Foo/", []); ("", []); ("Foo/a.py", [])] in
  test_archive (Sample.env (Sample.info "Foo" [] None) []) (Sample.spec [])
               (Sample.info "Foo" [] None) "/tmp/tmpab12cd34/Foo"
               "/tmp/tmpab12cd34/Foo.sublime-package" Sample.archive package_zip [] []
               Sample.fs
  = (Sample.fs, raise "IndexError" "string index out of range").
Proof.
  intros package_zip.
  apply (empty_entry_name _ _ _ _ _ _ package_zip [] [] Sample.fs ["Foo/"] ["Foo/a.py"]);
    [reflexivity|]. repeat constructor. discriminate.
Defined.

(** ** The changed files and the names of the packages *)

Lemma is_manifest_spec filename : is_manifest filename = true ↔ manifest filename.
Proof.
  unfold is_manifest, manifest. split.
  - intros [Hjson Hname]%andb_prop.
    apply orb_prop in Hname as [[Hshard|Heq%String.eqb_eq]%orb_prop|Heq%String.eqb_eq];
      [|auto..].
    apply shard_pattern_json in Hshard as [(c & Hc & ->)| ->]; [| |done].
    + right; right; right. by exists c.
    + auto.
  - intros [->|[->|[->|(c & Hc & ->)]]]; try done.
    assert (Str.endswith ("repository/" +:+ String c ".json") ".json" = true) as Hjson.
    { change ("repository/" +:+ String c ".json")
        with (("repository/" +:+ String c "") +:+ ".json"). apply endswith_app. }
    rewrite Hjson. simpl. apply orb_true_iff. left. apply orb_true_iff. left.
    apply shard_pattern_json; [done|]. left. by exists c.
Qed.

Lemma manifests_of_cons status filename entries :
  manifests_of ((status, filename) :: entries)
  = (if is_manifest filename then [filename] else []) ++ manifests_of entries.
Proof.
  unfold manifests_of. rewrite fmap_cons, filter_cons. simpl.
  destruct (is_manifest filename); by case_decide.
Qed.

Lemma changed_manifests_spec files_changed lines acc filenames :
  changed_manifests files_changed lines acc = Continue filenames ↔
    ∃ entries,
      Forall2 (λ line entry, Lines.split_ws line = [entry.1; entry.2]) lines entries
      ∧ (∀ status filename, (status, filename) ∈ entries →
           is_manifest filename = true → status = "M")
      ∧ filenames = acc ++ manifests_of entries.
Proof.
  revert acc filenames. induction lines as [|line lines IH]; intros acc filenames.
  - simpl. split.
    + intros [= <-]. exists []. split; [constructor|]. split; [by intros ?? ?%elem_of_nil|].
      by rewrite app_nil_r.
    + intros (entries & Hlines%Forall2_nil_inv_l & _ & ->). subst entries.
      by rewrite app_nil_r.
  - cbn [changed_manifests]. split.
    + destruct (Lines.split_ws line) as [|status [|filename [|]]] eqn:Hsplit; try done.
      assert (is_manifest filename
              = Str.endswith filename ".json"
                && negb (negb (Re.match_ shard_pattern filename)
                         && negb (String.eqb filename "repository.json")
                         && negb (String.eqb filename "channel.json"))) as Hm.
      { unfold is_manifest. by rewrite <- !negb_orb, negb_involutive. }
      destruct (Str.endswith filename ".json"); cbn [negb andb] in *.
      * destruct (negb (Re.match_ _ _) && _ && _); cbn [negb] in Hm.
        -- intros (entries & Hlines & Hstatus & ->)%IH.
           exists ((status, filename) :: entries). split; [by constructor|]. split.
           ++ intros s f [[= -> ->]|Hin]%elem_of_cons; [congruence|by eapply Hstatus].
           ++ by rewrite manifests_of_cons, Hm.
        -- destruct (String.eqb_spec status "M") as [->|]; [|done]. cbn [negb].
           intros (entries & Hlines & Hstatus & ->)%IH.
           exists (("M", filename) :: entries). split; [by constructor|]. split.
           ++ intros s f [[= -> ->]|Hin]%elem_of_cons; [done|by eapply Hstatus].
           ++ by rewrite manifests_of_cons, Hm, <- app_assoc.
      * intros (entries & Hlines & Hstatus & ->)%IH.
        exists ((status, filename) :: entries). split; [by constructor|]. split.
        -- intros s f [[= -> ->]|Hin]%elem_of_cons; [congruence|by eapply Hstatus].
        -- by rewrite manifests_of_cons, Hm.
    + intros (entries & Hlines & Hstatus & ->).
      apply Forall2_cons_inv_l in Hlines as ([status filename] & entries' & Hsplit & Hlines & ->).
      simpl in Hsplit. rewrite Hsplit. rewrite manifests_of_cons, app_assoc.
      assert (is_manifest filename
              = Str.endswith filename ".json"
                && negb (negb (Re.match_ shard_pattern filename)
                         && negb (String.eqb filename "repository.json")
                         && negb (String.eqb filename "channel.json"))) as Hm.
      { unfold is_manifest. by rewrite <- !negb_orb, negb_involutive. }
      assert (is_manifest filename = true → status = "M") as HM.
      { apply Hstatus. by left. }
      assert (changed_manifests files_changed lines
                (acc ++ if is_manifest filename then [filename] else [])
              = Continue ((acc ++ if is_manifest filename then [filename] else [])
                          ++ manifests_of entries')) as Hrest.
      { apply IH. exists entries'. split; [done|]. split; [|done].
        intros s f Hin. apply Hstatus. by right. }
      destruct (Str.endswith filename ".json"); cbn [negb andb] in *.
      * destruct (negb (Re.match_ _ _) && _ && _); cbn [negb] in Hm; rewrite Hm in *.
        -- by rewrite app_nil_r in Hrest |- *.
        -- by rewrite HM.
      * rewrite Hm in *. by rewrite app_nil_r in Hrest |- *.
Qed.

(** X8. The filter on the output of [git diff --name-status] goes on
    with a list of files exactly when every line has a status and a file
    name, separated by white space, and every line that names a manifest
    has the status M; the list is then made of the manifests named, in
    the order of the lines. The manifests are [repository.json],
    [channel.json], [repository/0-9.json] and [repository/c.json] for
    one word character [c]. *)
Theorem changed_files_filter files_changed filenames :
  (filter_changed_files files_changed = Continue filenames ↔
     ∃ entries,
       Forall2 (λ line entry, Lines.split_ws line = [entry.1; entry.2])
               (Lines.splitlines files_changed) entries
       ∧ (∀ status filename, (status, filename) ∈ entries →
            manifest filename → status = "M")
       ∧ filenames = manifests_of entries)
  ∧ (∀ filename, is_manifest filename = true ↔ manifest filename).
Proof.
  split; [|apply is_manifest_spec].
  unfold filter_changed_files. rewrite changed_manifests_spec.
  by setoid_rewrite is_manifest_spec.
Qed.

Lemma changed_files_filter_witness :
  filter_changed_files ("M" +:+ Sample.tab +:+ "channel.json" +:+ String (ascii_of_nat 10)
                          ("A" +:+ Sample.tab +:+ "README.md"))
  = Continue ["channel.json"].
Proof.
  apply (proj1 (changed_files_filter _ _)).
  exists [("M", "channel.json"); ("A", "README.md")].
  split; [by repeat constructor|]. split; [|reflexivity].
  intros status filename Hin Hmanifest. set_unfold.
  destruct Hin as [?|[?|[]]]; simplify_eq; [done|].
  destruct Hmanifest as [|[|[|(c & _ & ?)]]]; simplify_eq/=.
Defined.

Section basename_facts.
Implicit Types (s pre c : string).

Lemma last_slash s :
  ¬ slashless s → ∃ pre c, s = pre +:+ "/" +:+ c ∧ slashless c.
Proof.
  induction s as [|a s IH]; [by intros []|]. intros Hs.
  destruct (decide (slashless s)) as [Hslash|Hrest].
  - destruct (Ascii.eqb_spec a "/") as [->|Ha].
    + by exists "", s.
    + destruct Hs. by apply slashless_cons.
  - destruct (IH Hrest) as (pre & c & -> & Hc). by exists (String a pre), c.
Qed.

Lemma basename_slashless s : slashless s → PosixPath.basename s = s.
Proof.
  intros Hs. unfold PosixPath.basename, Str.rfind. rewrite rfind_from_slashless by done.
  unfold Str.slice_from. by rewrite bound_nonneg by done.
Qed.

(** [os.path.basename]: what follows the last slash. *)
Lemma basename_spec s :
  slashless (PosixPath.basename s)
  ∧ ∃ pre, s = pre +:+ PosixPath.basename s
           ∧ (pre = "" ∨ Str.endswith pre "/" = true).
Proof.
  destruct (decide (slashless s)) as [Hs|Hs].
  - rewrite basename_slashless by done. split; [done|]. exists "". auto.
  - destruct (last_slash s Hs) as (pre & c & -> & Hc).
    rewrite basename_last by done. split; [done|].
    exists (pre +:+ "/"). split; [by rewrite str_app_assoc|].
    right. apply endswith_app.
Qed.

End basename_facts.

(** X9. The name of a package entry without the key [name] is what
    follows the last slash of its [details]: a str without a slash, all
    of [details] when it has no slash, and the empty str when [details]
    ends with a slash. *)
Theorem package_name_from_details d details :
  Py.lookup "name" d = None →
  Py.lookup "details" d = Some (JStr details) →
  let name := PosixPath.basename details in
  package_name (JObj d) = Ok (JStr name)
  ∧ Str.contains name "/" = false
  ∧ ∃ pre, details = pre +:+ name ∧ (pre = "" ∨ Str.endswith pre "/" = true).
Proof.
  intros Hname Hdetails name. split.
  - unfold package_name, Py.has_key, Py.getitem. rewrite Hname, Hdetails.
    by rewrite bool_decide_eq_false_2 by by intros [].
  - apply basename_spec.
Qed.

Lemma package_name_from_details_witness :
  package_name (JObj (Sample.spec [])) = Ok (JStr "Foo").
Proof.
  apply (package_name_from_details (Sample.spec []) "https://github.com/someone/Foo");
    reflexivity.
Defined.

(** ** The differ and the review *)

Section differ_facts.

Lemma for_each_invariant {A S} (P : S → Prop) (body : A → S → result S) l s s' :
  (∀ x s s', body x s = Ok s' → P s → P s') →
  for_each l body s = Ok s' → P s → P s'.
Proof.
  intros Hbody. revert s. induction l as [|x l IH]; intros s; simpl.
  - by intros [= <-].
  - destruct (body x s) as [s1|] eqn:Hx; simpl; [|done].
    intros Hrest Hs. eapply IH; [done|]. by eapply Hbody.
Qed.

Implicit Types (st : DiffSet) (packages : list json).

Lemma mapM_ok_length {A B} (f : A → result B) l k :
  mapM f l = Ok k → length k = length l.
Proof.
  revert k. induction l as [|x l IH]; intros k; simpl; [by intros [= <-]|].
  destruct (f x); simpl; [|done]. destruct (mapM f l); simpl; [|done].
  intros [= <-]. simpl. by rewrite (IH _ eq_refl).
Qed.

Lemma package_name_dict data name :
  package_name data = Ok name → ∃ d, data = JObj d.
Proof. destruct data; try done. by eexists. Qed.

Lemma coherent_empty : coherent empty_diff.
Proof.
  split; [set_solver|]. intros name. unfold empty_diff. simpl.
  rewrite lookup_empty. by intros [].
Qed.

Lemma add_modified_frame packages i st st' :
  add_modified packages i st = Ok st' →
  added_pkgs st' = added_pkgs st ∧ removed_pkgs st' = removed_pkgs st
  ∧ pkg_links st' = pkg_links st ∧ added_pkg_data st' = added_pkg_data st.
Proof.
  unfold add_modified. destruct (item _ _); simpl; [|done].
  destruct (package_name _); simpl; [|done]. destruct (str_key _); simpl; [|done].
  by intros [= <-].
Qed.

Lemma add_removed_frame packages i st st' :
  add_removed packages i st = Ok st' →
  added_pkgs st' = added_pkgs st ∧ modified_pkgs st' = modified_pkgs st
  ∧ pkg_links st' = pkg_links st ∧ added_pkg_data st' = added_pkg_data st.
Proof.
  unfold add_removed. destruct (item _ _); simpl; [|done].
  destruct (package_name _); simpl; [|done]. destruct (str_key _); simpl; [|done].
  by intros [= <-].
Qed.

Lemma coherent_frame st st' :
  added_pkgs st' = added_pkgs st → pkg_links st' = pkg_links st →
  added_pkg_data st' = added_pkg_data st →
  coherent st → coherent st'.
Proof. unfold coherent. by intros -> -> ->. Qed.

Lemma coherent_insert st name d (links : gmap string string) modified removed :
  coherent st →
  (links = pkg_links st ∨ ∃ link, links = <[name := link]> (pkg_links st)) →
  coherent (DiffSet_ modified ({[name]} ∪ added_pkgs st) removed links
                     (<[name := JObj d]> (added_pkg_data st))).
Proof.
  intros [Hdata Hlinks] Hnew. split; simpl.
  - intros n [->%elem_of_singleton|Hn]%elem_of_union.
    + exists d. by rewrite lookup_insert_eq.
    + destruct (decide (name = n)) as [->|Hne].
      * exists d. by rewrite lookup_insert_eq.
      * rewrite lookup_insert_ne by done. by apply Hdata.
  - intros n Hn. destruct Hnew as [->|[link ->]]; [set_solver|].
    destruct (decide (name = n)) as [->|Hne]; [set_solver|].
    rewrite lookup_insert_ne in Hn by done. set_solver.
Qed.

Lemma add_added_coherent packages i st st' :
  add_added packages i st = Ok st' → coherent st → coherent st'.
Proof.
  unfold add_added. destruct (item _ _) as [data|]; simpl; [|done].
  destruct (package_name data) as [name|] eqn:Hname; simpl; [|done].
  destruct (package_name_dict _ _ Hname) as [d ->].
  destruct (str_key name) as [pkg_name|]; simpl; [|done].
  destruct (Py.has_key "details" d); simpl.
  - destruct (Py.getitem d "details") as [[| | |link| |]|]; simpl; try done.
    intros [= <-] Hst. apply coherent_insert; [done|]. right. by eexists.
  - intros [= <-] Hst. apply coherent_insert; [done|]. by left.
Qed.

Lemma reconcile_coherent old new st st' :
  reconcile old new st = Ok st' → coherent st → coherent st'.
Proof.
  unfold reconcile.
  destruct (mapM (index (Json.dumps <$> old)) _) as [deleted_indexes|]; simpl; [|done].
  destruct (mapM (index (Json.dumps <$> new)) _) as [added_indexes|]; simpl; [|done].
  destruct (_ =? _)%nat; [|destruct (_ =? _)%nat];
    apply (for_each_invariant coherent).
  - intros i st1 st2 (? & _ & ? & ?)%add_modified_frame. by apply coherent_frame.
  - intros i st1 st2. apply add_added_coherent.
  - intros i st1 st2 (? & _ & ? & ?)%add_removed_frame. by apply coherent_frame.
Qed.

(** With as many removed as added serialized entries, [reconcile] files
    names under the modified packages and leaves the rest as it was. *)
Lemma reconcile_modifications old new st st' :
  size (serialized_only_in old new) = size (serialized_only_in new old) →
  reconcile old new st = Ok st' →
  added_pkgs st' = added_pkgs st ∧ removed_pkgs st' = removed_pkgs st
  ∧ pkg_links st' = pkg_links st ∧ added_pkg_data st' = added_pkg_data st.
Proof.
  unfold reconcile, serialized_only_in. intros Hsize.
  destruct (mapM (index (Json.dumps <$> old)) _) as [deleted_indexes|] eqn:Hdel;
    simpl; [|done].
  destruct (mapM (index (Json.dumps <$> new)) _) as [added_indexes|] eqn:Hadd;
    simpl; [|done].
  apply mapM_ok_length in Hdel, Hadd. rewrite Hdel, Hadd.
  unfold size, set_size in Hsize. simpl in Hsize. rewrite Hsize, Nat.eqb_refl.
  intros Hrun.
  eapply (for_each_invariant
            (λ st', added_pkgs st' = added_pkgs st ∧ removed_pkgs st' = removed_pkgs st
                    ∧ pkg_links st' = pkg_links st
                    ∧ added_pkg_data st' = added_pkg_data st)); [|exact Hrun|done].
  intros i st1 st2 (H1 & H2 & H3 & H4)%add_modified_frame (G1 & G2 & G3 & G4).
  repeat split; congruence.
Qed.

End differ_facts.

Section review_facts.
Implicit Types (env : PullRequestEnv) (st : Review * DiffSet) (changes : Changes).

Lemma add_repository_package_coherent pkg_info packages num packages' num' :
  add_repository_package pkg_info (packages, num) = Ok (packages', num') →
  coherent packages → coherent packages'.
Proof.
  unfold add_repository_package.
  destruct (package_name pkg_info) as [name|] eqn:Hname; simpl; [|done].
  destruct (package_name_dict _ _ Hname) as [d ->].
  destruct (str_key name) as [pkg_name|]; simpl; [|done].
  intros [= <- _] Hst. apply coherent_insert; [done|]. by left.
Qed.

Lemma process_repository_coherent env repo st st' :
  process_repository env repo st = Ok st' → coherent st.2 → coherent st'.2.
Proof.
  destruct st as [review packages]. unfold process_repository.
  destruct (negb _ && negb _); [by intros [= <-]|].
  destruct (if Str.startswith repo "http://" then _ else _) as [output errors].
  destruct (fetch_repository env repo) as [raw_data| |str_e|e];
    [|by intros [= <-]..|done].
  destruct (json_loads env raw_data) as [repo_json|e].
  2: { destruct (_ || _); [by intros [= <-]|done]. }
  destruct (Py.contains "schema_version" repo_json) as [has_schema_version|];
    simpl; [|done].
  destruct (Py.contains "packages" repo_json) as [has_packages|]; simpl; [|done].
  destruct (negb has_schema_version || negb has_packages); [by intros [= <-]|].
  destruct (subscript repo_json "schema_version") as [schema_version|]; simpl; [|done].
  destruct (negb (Py.eq_str schema_version "3.0.0")); [by intros [= <-]|].
  destruct (subscript repo_json "packages") as [pkgs|]; simpl; [|done].
  destruct (Py.iter pkgs) as [pkg_infos|]; simpl; [|done].
  destruct (for_each pkg_infos _ _) as [[packages' num_pkgs]|] eqn:Hloop; simpl; [|done].
  intros [= <-] Hst. simpl in *.
  eapply (for_each_invariant (λ s, coherent s.1)) in Hloop; [done| |done].
  intros pkg_info [p n] [p' n']. apply add_repository_package_coherent.
Qed.

Lemma compare_manifest_coherent env old_rev current_rev filename changes changes' :
  compare_manifest env old_rev current_rev filename changes = Ok changes' →
  coherent (pkgs changes) → coherent (pkgs changes').
Proof.
  unfold compare_manifest.
  destruct (git_show env old_rev filename) as [old_version|]; simpl; [|done].
  destruct (git_show env current_rev filename) as [new_version|]; simpl; [|done].
  destruct (json_loads env old_version) as [old_json|]; simpl; [|done].
  destruct (json_loads env new_version) as [new_json|]; simpl; [|done].
  destruct (String.eqb filename "channel.json").
  - destruct (subscript old_json _ ≫= set_of); simpl; [|done].
    destruct (subscript new_json _ ≫= set_of); simpl; [|done].
    by intros [= <-].
  - destruct (subscript old_json _ ≫= package_list); simpl; [|done].
    destruct (subscript new_json _ ≫= package_list); simpl; [|done].
    destruct (reconcile _ _ _) as [packages'|] eqn:Hrec; simpl; [|done].
    intros [= <-]. simpl. by eapply reconcile_coherent.
Qed.

End review_facts.

(** X11. The differ keeps its sets and dicts coherent. After the loop
    over the changed manifests and the loop over the added
    repositories, every name in [added_pkgs] has its data in
    [added_pkg_data], and these data are a dict, so that the lookup
    [added_pkg_data[name]] of the loop over the added packages raises no
    KeyError; and every name with a link in [pkg_links] is in
    [added_pkgs]. *)
Theorem added_packages_have_data
    env old_rev current_rev filenames changes repositories review review' packages' :
  for_each filenames (compare_manifest env old_rev current_rev) no_changes = Ok changes →
  for_each repositories (process_repository env) (review, pkgs changes)
    = Ok (review', packages') →
  (∀ name, name ∈ added_pkgs packages' →
     ∃ data, added_pkg_data packages' !! name = Some (JObj data))
  ∧ (∀ name, is_Some (pkg_links packages' !! name) → name ∈ added_pkgs packages').
Proof.
  intros Hcompare Hprocess.
  eapply (for_each_invariant (λ s, coherent s.2)) in Hprocess; [done| |].
  - intros repo st st'. apply process_repository_coherent.
  - eapply (for_each_invariant (λ c, coherent (pkgs c))) in Hcompare;
      [done| |apply coherent_empty].
    intros filename c c'. apply compare_manifest_coherent.
Qed.

Lemma added_packages_have_data_witness :
  let old := SampleReview.repository [Sample.package "A"] in
  let new := SampleReview.repository [Sample.package "A"; Sample.package "Foo"] in
  let env := SampleReview.env old new ("M" +:+ Sample.tab +:+ "repository/f.json") in
  let packages :=
    DiffSet_ ∅ {["Foo"]} ∅ {["Foo" := "https://github.com/someone/Foo"]}
             {["Foo" := Sample.package "Foo"]} in
  for_each ["repository/f.json"] (compare_manifest env "old" "new") no_changes
  = Ok (Changes_ packages ∅ ∅)
  ∧ ∀ name, name ∈ added_pkgs packages →
            ∃ data, added_pkg_data packages !! name = Some (JObj data).
Proof.
  intros old new env packages.
  assert (for_each ["repository/f.json"] (compare_manifest env "old" "new") no_changes
          = Ok (Changes_ packages ∅ ∅)) as Hcompare by (vm_compute; reflexivity).
  split; [exact Hcompare|].
  apply (added_packages_have_data env "old" "new" ["repository/f.json"] _ []
           (Review_ [] false false) (Review_ [] false false) packages Hcompare eq_refl).
Defined.

(** X10. [run_tests] is called for the added packages only. When no
    repository and no package is added, the report lists the removed
    repositories and the removed and modified packages, no test is run,
    the file system is not touched and neither flag is set: the status
    of the review is SUCCESS. This is so of a manifest with as many
    removed as added serialized entries, which [reconcile] files under
    the modified packages: an entry that is edited, or replaced by
    another, is not tested. *)
Theorem replaced_entries_are_not_tested env fs :
  (∀ changes,
     added_repositories changes = ∅ →
     added_pkgs (pkgs changes) = ∅ →
     review_changes env changes fs
     = (fs, Ok (Review_
                  (listing "Packages modified:" (modified_pkgs (pkgs changes))
                     (listing "Packages removed:" (removed_pkgs (pkgs changes))
                        (if bool_decide (removed_repositories changes = ∅) then []
                         else "Repositories removed:"
                              :: bullets (removed_repositories changes))))
                  false false,
                pkgs changes))
     ∧ review_status (verdict false false) = "SUCCESS")
  ∧ (∀ old new packages,
       size (serialized_only_in old new) = size (serialized_only_in new old) →
       reconcile old new empty_diff = Ok packages →
       review_changes env (Changes_ packages ∅ ∅) fs
       = (fs, Ok (Review_ (listing "Packages modified:" (modified_pkgs packages) [])
                          false false,
                  packages))).
Proof.
  assert (∀ changes,
            added_repositories changes = ∅ →
            added_pkgs (pkgs changes) = ∅ →
            review_changes env changes fs
            = (fs, Ok (Review_
                         (listing "Packages modified:" (modified_pkgs (pkgs changes))
                            (listing "Packages removed:" (removed_pkgs (pkgs changes))
                               (if bool_decide (removed_repositories changes = ∅) then []
                                else "Repositories removed:"
                                     :: bullets (removed_repositories changes))))
                         false false,
                       pkgs changes))) as Hquiet.
  { intros changes Hrepos Hadded. unfold review_changes.
    rewrite Hrepos. unfold listing at 1.
    rewrite !(bool_decide_eq_true_2 (∅ = ∅)) by done. cbv iota beta zeta.
    rewrite Hadded. unfold listing at 1.
    rewrite !(bool_decide_eq_true_2 (∅ = ∅)) by done.
    unfold sorted. rewrite elements_empty. reflexivity. }
  split.
  - intros changes Hrepos Hadded. by rewrite Hquiet.
  - intros old new packages Hsize Hreconcile.
    destruct (reconcile_modifications _ _ _ _ Hsize Hreconcile) as (Hadded & Hremoved & _).
    rewrite Hquiet by done. simpl. rewrite Hremoved. simpl.
    unfold listing at 2. by rewrite !bool_decide_eq_true_2.
Qed.

Lemma replaced_entries_are_not_tested_witness :
  let old := [Sample.package "A"; Sample.package "Foo"] in
  let new := [Sample.package "A"; Sample.package "Bar"] in
  let env := SampleReview.env (SampleReview.repository old) (SampleReview.repository new)
                              ("M" +:+ Sample.tab +:+ "repository/b.json") in
  ∃ packages,
    reconcile old new empty_diff = Ok packages
    ∧ review_changes env (Changes_ packages ∅ ∅) Sample.fs
      = (Sample.fs, Ok (Review_ ["Packages modified:"; "  - Bar"] false false, packages)).
Proof.
  intros old new env. exists (DiffSet_ {["Bar"]} ∅ ∅ ∅ ∅).
  assert (reconcile old new empty_diff = Ok (DiffSet_ {["Bar"]} ∅ ∅ ∅ ∅)) as Hreconcile
    by (vm_compute; reflexivity).
  split; [exact Hreconcile|].
  rewrite (proj2 (replaced_entries_are_not_tested env Sample.fs) old new _
             ltac:(vm_compute; reflexivity) Hreconcile).
  reflexivity.
Defined.

Section flags_facts.

Lemma process_repository_errors env repo st st' :
  process_repository env repo st = Ok st' →
  (errors st.1 = true ∨ Str.startswith repo "http://" = true) →
  errors st'.1 = true.
Proof.
  destruct st as [review packages]. unfold process_repository. intros Hrun Hflag.
  destruct (Str.startswith repo "http://") eqn:Hhttp.
  - revert Hrun. cbn [negb andb].
    destruct (fetch_repository env repo) as [raw_data| |str_e|e];
      [|by intros [= <-]..|done].
    destruct (json_loads env raw_data) as [repo_json|e].
    2: { destruct (_ || _); [by intros [= <-]|done]. }
    destruct (Py.contains "schema_version" repo_json) as [has_schema_version|];
      simpl; [|done].
    destruct (Py.contains "packages" repo_json) as [has_packages|]; simpl; [|done].
    destruct (negb has_schema_version || negb has_packages); [by intros [= <-]|].
    destruct (subscript repo_json "schema_version") as [schema_version|]; simpl; [|done].
    destruct (negb (Py.eq_str schema_version "3.0.0")); [by intros [= <-]|].
    destruct (subscript repo_json "packages") as [pkgs|]; simpl; [|done].
    destruct (Py.iter pkgs) as [pkg_infos|]; simpl; [|done].
    destruct (for_each pkg_infos _ _) as [[packages' num_pkgs]|]; simpl; [|done].
    by intros [= <-].
  - destruct Hflag as [Hflag|?]; [|done]. simpl in Hflag. revert Hrun. cbn [negb andb].
    destruct (negb (Str.startswith repo "https://")); [by intros [= <-]|].
    destruct (fetch_repository env repo) as [raw_data| |str_e|e];
      [|by intros [= <-]..|done].
    destruct (json_loads env raw_data) as [repo_json|e].
    2: { destruct (_ || _); [by intros [= <-]|done]. }
    destruct (Py.contains "schema_version" repo_json) as [has_schema_version|];
      simpl; [|done].
    destruct (Py.contains "packages" repo_json) as [has_packages|]; simpl; [|done].
    destruct (negb has_schema_version || negb has_packages); [by intros [= <-]|].
    destruct (subscript repo_json "schema_version") as [schema_version|]; simpl; [|done].
    destruct (negb (Py.eq_str schema_version "3.0.0")); [by intros [= <-]|].
    destruct (subscript repo_json "packages") as [pkgs|]; simpl; [|done].
    destruct (Py.iter pkgs) as [pkg_infos|]; simpl; [|done].
    destruct (for_each pkg_infos _ _) as [[packages' num_pkgs]|]; simpl; [|done].
    by intros [= <-].
Qed.

Lemma process_repositories_errors env repositories repo st st' :
  for_each repositories (process_repository env) st = Ok st' →
  (errors st.1 = true ∨ (repo ∈ repositories ∧ Str.startswith repo "http://" = true)) →
  errors st'.1 = true.
Proof.
  revert st. induction repositories as [|repo' repositories IH]; intros st; simpl.
  - intros [= <-] [?|[?%elem_of_nil _]]; done.
  - destruct (process_repository env repo' st) as [st1|] eqn:Hrepo; simpl; [|done].
    intros Hrest Hflag. apply (IH st1 Hrest).
    destruct Hflag as [Hflag|[[->|Hin]%elem_of_cons Hhttp]].
    + left. eapply process_repository_errors; eauto.
    + left. eapply process_repository_errors; eauto.
    + right. done.
Qed.

Lemma add_test_results_errors name r st st' :
  add_test_results name r st = Ok st' → errors st = true → errors st' = true.
Proof.
  unfold add_test_results. destruct (String.eqb _ _); [by intros [= <-]|].
  destruct (negb (bool_decide (tr_errors r = []))); simpl.
  - destruct (report_lines "ERROR" _); simpl; [|done].
    destruct (negb (bool_decide (tr_warnings r = []))); simpl.
    + destruct (report_lines "WARNING" _); simpl; [|done]. by intros [= <-].
    + by intros [= <-].
  - destruct (negb (bool_decide (tr_warnings r = []))); simpl.
    + destruct (report_lines "WARNING" _); simpl; [|done]. by intros [= <-].
    + by intros [= <-].
Qed.

Lemma test_packages_errors env data names fs fs' st st' :
  test_packages env data names fs st = (fs', Ok st') →
  errors st = true → errors st' = true.
Proof.
  revert fs st. induction names as [|name names IH]; intros fs st; simpl.
  - by intros [= _ <-].
  - destruct (data !! name) as [[| | | | |d]|]; try done.
    destruct (run_tests env d fs) as [fs1 [r|]]; [|done].
    destruct (add_test_results name r st) as [st1|] eqn:Hadd; [|done].
    intros Hrest Herrors. eapply IH; [done|]. by eapply add_test_results_errors.
Qed.

End flags_facts.

(** X12. A repository added to the channel that is served over
    [http://] makes the status of the review ERROR, whenever the report
    is completed: whatever the download of that repository and of the
    others gives, and whatever the tests of the added packages find. The
    loop over the set of the added repositories goes through all of
    them, in any order. *)
Theorem insecure_repository_is_an_error env changes fs fs' review packages repo :
  set_order env (added_repositories changes) ≡ₚ elements (added_repositories changes) →
  repo ∈ added_repositories changes →
  Str.startswith repo "http://" = true →
  review_changes env changes fs = (fs', Ok (review, packages)) →
  review_status (verdict (errors review) (warnings review)) = "ERROR".
Proof.
  intros Horder Hin Hhttp. unfold review_changes.
  rewrite bool_decide_eq_false_2 by set_solver.
  destruct (for_each _ _ _) as [[[output errors warnings] packages']|] eqn:Hrepos;
    [|done].
  apply process_repositories_errors with (repo := repo) in Hrepos.
  2: { right. split; [|done]. rewrite Horder. by apply elem_of_elements. }
  simpl in Hrepos. subst errors.
  destruct (test_packages _ _ _ _ _) as [fs1 [review1|]] eqn:Htests; [|done].
  intros [= _ <- _]. by rewrite (test_packages_errors _ _ _ _ _ _ _ Htests).
Qed.

Lemma insecure_repository_is_an_error_witness :
  let env := SampleReview.env (SampleReview.channel [])
                              (SampleReview.channel ["http://example.org/r.json"])
                              ("M" +:+ Sample.tab +:+ "channel.json") in
  let changes := Changes_ empty_diff {["http://example.org/r.json"]} ∅ in
  match (review_changes env changes Sample.fs).2 with
  | Ok (review, _) => review_status (verdict (errors review) (warnings review)) = "ERROR"
  | Raise _ => False
  end.
Proof.
  intros env changes.
  destruct (review_changes env changes Sample.fs) as [fs' [[review packages]|e]] eqn:Hrun;
    simpl.
  - apply (insecure_repository_is_an_error env changes Sample.fs fs' review packages
             "http://example.org/r.json"); [done|set_solver|reflexivity|exact Hrun].
  - vm_compute in Hrun. discriminate.
Defined.

(** X13. The flags of the review after the loop over the added
    packages are the flags before it, or-ed with the findings of the
    packages tested: [errors] is set exactly when it was set or the
    result of some package holds an error, and [warnings] exactly when
    it was set or the result of some package holds a warning. Every
    name in the list was tested, with the data the differ has for it. *)
Theorem review_flags env data names fs fs' st st' :
  test_packages env data names fs st = (fs', Ok st') →
  ∃ results,
    Forall2 (λ name r, ∃ d fs1 fs2, data !! name = Some (JObj d)
                                    ∧ run_tests env d fs1 = (fs2, Ok r))
            names results
    ∧ errors st' =
        errors st || existsb (λ r, negb (bool_decide (tr_errors r = []))) results
    ∧ warnings st' =
        warnings st || existsb (λ r, negb (bool_decide (tr_warnings r = []))) results.
Proof.
  revert fs st. induction names as [|name names IH]; intros fs st; simpl.
  - intros [= _ <-]. exists []. split; [constructor|]. by rewrite !orb_false_r.
  - destruct (data !! name) as [[| | | | |d]|] eqn:Hdata; try done.
    destruct (run_tests env d fs) as [fs1 [r|]] eqn:Hrun; [|done].
    destruct (add_test_results name r st) as [st1|] eqn:Hadd; [|done].
    intros (results & Hresults & Herrors & Hwarnings)%IH.
    destruct (add_test_results_flags _ _ _ _ (run_tests_built _ _ _ _ _ Hrun) Hadd)
      as [Herrors1 Hwarnings1].
    exists (r :: results). split.
    + constructor; [|done]. by exists d, fs, fs1.
    + simpl. by rewrite Herrors, Hwarnings, Herrors1, Hwarnings1, !orb_assoc.
Qed.

Lemma review_flags_witness :
  let env := Sample.env (Sample.info "Foo" [] None) [] in
  let data : gmap string json := {["Foo" := Sample.package "Foo"]} in
  match (test_packages env data ["Foo"] Sample.fs (Review_ [] false false)).2 with
  | Ok st' => errors st' = true ∧ warnings st' = true
  | Raise _ => False
  end.
Proof.
  intros env data.
  destruct (test_packages env data ["Foo"] Sample.fs (Review_ [] false false))
    as [fs' [st'|e]] eqn:Hrun; simpl.
  - destruct (review_flags env data ["Foo"] Sample.fs fs' _ st' Hrun)
      as (results & Hresults & Herrors & Hwarnings).
    revert Hrun. vm_compute. by intros [= _ <-].
  - vm_compute in Hrun. discriminate.
Defined.

Section comment_facts.

Lemma elem_of_comment_links line v (pkg_links : gmap string string)
    (added_pkgs : gset string) st :
  (match map_to_list pkg_links with
   | [(name, link)] => line = "Repo link: [" +:+ name +:+ "](" +:+ link +:+ ")"
   | _ => line ∈ omap (λ name, (λ link, "  - [" +:+ name +:+ "](" +:+ link +:+ ")")
                               <$> pkg_links !! name)
                      (merge_sort String.le (elements added_pkgs))
   end) →
  pkg_links ≠ ∅ →
  line ∈ comment v pkg_links added_pkgs st.
Proof.
  intros Hline Hne. unfold comment.
  assert (size pkg_links ≠ 0%nat) as Hsize%Nat.eqb_neq by by rewrite map_size_non_empty_iff.
  rewrite Hsize. cbn [negb].
  set (links := match map_to_list pkg_links with
                | [(name, link)] => _
                | _ => _
                end).
  assert (line ∈ links) as Hlinks.
  { unfold links. destruct (map_to_list pkg_links) as [|[name link] [|]];
      subst; set_solver. }
  destruct (errors st || warnings st), (negb (bool_decide (output st = [])));
    set_solver.
Qed.

End comment_facts.

(** X14. Every link that the differ has recorded is shown in the
    comment of the review: as the line [Repo link] when it is the only
    one, else in the list [Repo links], which goes through the added
    packages. *)
Theorem links_are_shown
    env old_rev current_rev filenames changes repositories review review' packages'
    v st name link :
  for_each filenames (compare_manifest env old_rev current_rev) no_changes = Ok changes →
  for_each repositories (process_repository env) (review, pkgs changes)
    = Ok (review', packages') →
  pkg_links packages' !! name = Some link →
  ("Repo link: [" +:+ name +:+ "](" +:+ link +:+ ")")
    ∈ comment v (pkg_links packages') (added_pkgs packages') st
  ∨ ("  - [" +:+ name +:+ "](" +:+ link +:+ ")")
      ∈ comment v (pkg_links packages') (added_pkgs packages') st.
Proof.
  intros Hcompare Hprocess Hlink.
  assert (coherent packages') as [_ Hlinks].
  { eapply (for_each_invariant (λ s, coherent s.2)) in Hprocess; [done| |].
    - intros repo s s'. apply process_repository_coherent.
    - eapply (for_each_invariant (λ c, coherent (pkgs c))) in Hcompare;
        [done| |apply coherent_empty].
      intros filename c c'. apply compare_manifest_coherent. }
  assert (pkg_links packages' ≠ ∅) as Hne.
  { intros Hempty. by rewrite Hempty, lookup_empty in Hlink. }
  destruct (map_to_list (pkg_links packages')) as [|[name1 link1] [|]] eqn:Hlist.
  - by apply map_to_list_empty_iff in Hlist.
  - left. apply elem_of_comment_links; [|done]. rewrite Hlist.
    apply elem_of_map_to_list in Hlink. rewrite Hlist in Hlink.
    apply list_elem_of_singleton in Hlink. by injection Hlink as -> ->.
  - right. apply elem_of_comment_links; [|done]. rewrite Hlist.
    apply list_elem_of_omap. exists name. split.
    + rewrite merge_sort_Permutation. apply elem_of_elements, Hlinks. by eexists.
    + by rewrite Hlink.
Qed.

Lemma links_are_shown_witness :
  let old := SampleReview.repository [Sample.package "A"] in
  let new := SampleReview.repository [Sample.package "A"; Sample.package "Foo"] in
  let env := SampleReview.env old new ("M" +:+ Sample.tab +:+ "repository/f.json") in
  let packages :=
    DiffSet_ ∅ {["Foo"]} ∅ {["Foo" := "https://github.com/someone/Foo"]}
             {["Foo" := Sample.package "Foo"]} in
  "Repo link: [Foo](https://github.com/someone/Foo)"
    ∈ comment (verdict false false) (pkg_links packages) (added_pkgs packages)
              (Review_ [] false false).
Proof.
  intros old new env packages.
  assert (for_each ["repository/f.json"] (compare_manifest env "old" "new") no_changes
          = Ok (Changes_ packages ∅ ∅)) as Hcompare by (vm_compute; reflexivity).
  destruct (links_are_shown env "old" "new" ["repository/f.json"] _ []
              (Review_ [] false false) (Review_ [] false false) packages
              (verdict false false) (Review_ [] false false)
              "Foo" "https://github.com/someone/Foo" Hcompare eq_refl)
    as [Hone|Hmany]; [by vm_compute|exact Hone|].
  revert Hmany. vm_compute. set_unfold. naive_solver.
Defined.

(** ** [test_pull_request] as a whole *)

Section pull_request_facts.

Lemma changed_manifests_return files_changed lines acc r :
  changed_manifests files_changed lines acc = Return r → status_code r = Some 500.
Proof.
  revert acc. induction lines as [|line lines IH]; intros acc; simpl; [done|].
  destruct (Lines.split_ws line) as [|status [|filename [|]]]; try by intros [= <-].
  repeat case_match; try apply IH; by intros [= <-].
Qed.

Lemma test_packages_restores env data names fs st fs' r :
  (∀ d fs1 r1, run_tests env d fs = (fs1, r1) → fs1 = fs) →
  test_packages env data names fs st = (fs', r) → fs' = fs.
Proof.
  intros Hrestores. revert st. induction names as [|name names IH]; intros st; simpl.
  - by intros [= <- _].
  - destruct (data !! name) as [[| | | | |d]|]; try by intros [= <- _].
    destruct (run_tests env d fs) as [fs1 r1] eqn:Hrun.
    apply Hrestores in Hrun as ->.
    destruct r1 as [test_results|]; [|by intros [= <- _]].
    destruct (add_test_results name test_results st); [apply IH|by intros [= <- _]].
Qed.

Lemma review_changes_restores env changes fs fs' r :
  (∀ d fs1 r1, run_tests (tests env) d fs = (fs1, r1) → fs1 = fs) →
  review_changes env changes fs = (fs', r) → fs' = fs.
Proof.
  intros Hrestores. unfold review_changes.
  destruct (if bool_decide (added_repositories changes = ∅) then _ else _)
    as [[[output errors warnings] packages]|]; [|by intros [= <- _]].
  destruct (test_packages _ _ _ _ _) as [fs1 r1] eqn:Htests.
  apply test_packages_restores in Htests as ->; [|done].
  destruct r1; by intros [= <- _].
Qed.

Lemma review_pull_request_restores env pr_url old_rev current_rev token fs fs' sent r :
  (∀ d fs1 r1, run_tests (tests env) d fs = (fs1, r1) → fs1 = fs) →
  review_pull_request env pr_url old_rev current_rev token fs = (fs', sent, r) →
  fs' = fs.
Proof.
  intros Hrestores. unfold review_pull_request.
  destruct (run env _) as [[code files_changed]|]; [|by intros [= <- _ _]].
  destruct (negb _); [by intros [= <- _ _]|].
  destruct (filter_changed_files _); [|by intros [= <- _ _]].
  destruct (for_each _ _ _) as [changes|]; [|by intros [= <- _ _]].
  destruct (review_changes env changes fs) as [fs1 r1] eqn:Hreview.
  apply review_changes_restores in Hreview as ->; [|done].
  destruct r1 as [[review packages]|]; [|by intros [= <- _ _]].
  destruct (github_api_request _ _ _ _ _); by intros [= <- _ _].
Qed.

End pull_request_facts.

(** X15. [test_pull_request] opens one request at most. When it
    opens none, it raises or returns an error with the status code 500.
    The request it opens is one that [Request] has made without raising:
    a POST to the [reviews] of the pull request, with the token as
    bearer, the [user_agent] of the settings, the JSON content type, and
    for its data the JSON text of a body and the event REQUEST_CHANGES.
    The result is "completed" exactly when the answer is a response
    with the code 200; any other result returned is an error with the
    status code 500; and [test_pull_request] raises exactly when
    [urlopen] raises an exception that is not a URLError, which is the
    one raised, or gives a response without a code, whose formatting is
    a TypeError. *)
Theorem review_is_posted env pr_url old_rev current_rev token fs fs' sent r :
  test_pull_request env pr_url old_rev current_rev token fs = (fs', sent, r) →
  (sent = [] ∧ ∀ res, r = Ok res → status_code res = Some 500)
  ∨ ∃ req user_agent text,
      sent = [req]
      ∧ Py.lookup "user_agent" (downloader_settings env) = Some user_agent
      ∧ req = Request_ (pr_url +:+ "/reviews")
                (Some (Json.dumps (JObj [("body", JStr text);
                                         ("event", JStr "REQUEST_CHANGES")])))
                [("Authorization", JStr ("Bearer " +:+ token));
                 ("User-Agent", user_agent);
                 ("Content-Type", JStr "application/vnd.github.v3+json")]
                "POST"
      ∧ request_raises env req = None
      ∧ (r = Ok (PullRequestResult_ None "completed" "Checks ran successfully")
         ↔ urlopen env req = Response (Some 200))
      ∧ (∀ res, r = Ok res → urlopen env req ≠ Response (Some 200) →
           status_code res = Some 500)
      ∧ (∀ e, r = Raise e ↔
           urlopen env req = OtherException e
           ∨ (urlopen env req = Response None
              ∧ e = Exn "TypeError"
                        [JStr "%d format: a real number is required, not NoneType"])).
Proof.
  unfold test_pull_request.
  destruct (String.eqb _ _); [intros [= _ <- <-]; left; by split|].
  destruct (review_pull_request _ _ _ _ _ _) as [[fs1 sent1] r1] eqn:Hreview.
  intros [= _ <- <-]. revert Hreview. unfold review_pull_request.
  destruct (run env _) as [[code files_changed]|];
    [|intros [= _ <- <-]; left; by split].
  destruct (negb _); [intros [= _ <- <-]; left; split; [done|]; by intros ? [= <-]|].
  destruct (filter_changed_files _) as [filenames|res] eqn:Hfilter.
  2: { intros [= _ <- <-]. left. split; [done|]. intros ? [= <-].
       by eapply changed_manifests_return. }
  destruct (for_each _ _ _) as [changes|]; [|intros [= _ <- <-]; left; by split].
  destruct (review_changes env changes _) as [fs2 [[review packages]|]];
    [|intros [= _ <- <-]; left; by split].
  unfold github_api_request, Py.getitem.
  destruct (Py.lookup "user_agent" _) as [user_agent|] eqn:Hagent; simpl;
    [|intros [= _ <- <-]; left; by split].
  match goal with |- context [request_raises env ?x] => set (req := x) end.
  destruct (request_raises env req) eqn:Hreq; [intros [= _ <- <-]; left; by split|].
  intros [= _ <- <-]. right. eexists req, user_agent, _.
  split; [done|]. split; [done|]. split; [done|]. split; [done|].
  unfold publish. destruct (urlopen env req) as [[code'|]|error|e'].
  - destruct (Z.eqb_spec code' 200) as [->|Hcode]; simpl.
    + split; [done|]. split; [done|]. intros e. split; [done|]. by intros [|[]].
    + split; [split; [done|intros [=]; done]|]. split; [by intros ? [= <-]|].
      intros e. split; [done|]. by intros [|[]].
  - split; [done|]. split; [done|]. intros e. split.
    + intros [= <-]. by right.
    + intros [|[_ ->]]; done.
  - split; [done|]. split; [by intros ? [= <-]|]. intros e. split; [done|].
    by intros [|[]].
  - split; [done|]. split; [done|]. intros e. split.
    + intros [= <-]. by left.
    + intros [[= <-]|[]]; done.
Qed.

Lemma review_is_posted_witness :
  let old := SampleReview.repository [Sample.package "A"] in
  let new := SampleReview.repository [Sample.package "A"; Sample.package "Foo"] in
  let env := SampleReview.env old new ("M" +:+ Sample.tab +:+ "repository/f.json") in
  ∃ fs' req,
    test_pull_request env SampleReview.pr_url "old" "new" "TOKEN" Sample.fs
    = (fs', [req], Ok (PullRequestResult_ None "completed" "Checks ran successfully"))
    ∧ req_method req = "POST".
Proof.
  intros old new env.
  destruct (test_pull_request env SampleReview.pr_url "old" "new" "TOKEN" Sample.fs)
    as [[fs' sent] r] eqn:Hrun.
  destruct (review_is_posted env SampleReview.pr_url "old" "new" "TOKEN"
              Sample.fs fs' sent r Hrun)
    as [[-> _]|(req & user_agent & text & -> & _ & -> & _ & Hok & _)].
  - vm_compute in Hrun. discriminate.
  - eexists fs', _. split; [by rewrite (proj2 Hok eq_refl)|reflexivity].
Defined.

(** The review that is not posted. For a pull request whose URL has no
    scheme, [Request] raises a ValueError and nothing is opened; when
    the answer is cut off, [urlopen] raises an exception that is not a
    URLError, and [test_pull_request] raises it after the request was
    opened. The temporary directory is removed in both runs. *)
Example review_not_posted :
  let old := SampleReview.repository [Sample.package "A"] in
  let new := SampleReview.repository [Sample.package "A"; Sample.package "Foo"] in
  let files_changed := "M" +:+ Sample.tab +:+ "repository/f.json" in
  let tests := Sample.env (Sample.info "Foo" [] None) [] in
  let e := Exn "RemoteDisconnected"
               [JStr "Remote end closed connection without response"] in
  test_pull_request (SampleReview.env old new files_changed)
                    "api.github.com/repos/wbond/channel/pulls/1" "old" "new" "TOKEN"
                    Sample.fs
  = (Sample.fs, [], raise "ValueError" "unknown url type")
  ∧ ∃ req,
      test_pull_request (SampleReview.env_of tests (OtherException e) old new files_changed)
                        SampleReview.pr_url "old" "new" "TOKEN" Sample.fs
      = (Sample.fs, [req], Raise e).
Proof. split; [reflexivity|]. eexists. reflexivity. Qed.

(** X16. [test_pull_request] leaves the file system as it found it,
    whether it returns or raises: when its temporary directory and the
    one of [run_tests] are canonical paths with nothing within them
    yet, the first not lying within the second, which is in a directory
    that exists, every run of [run_tests] removes what it has written
    and the [finally] clause removes the temporary directory of
    [test_pull_request]. *)
Theorem pull_request_restores_file_system
    env pr_url old_rev current_rev token fs fs' sent r :
  canonical (pr_mkdtemp env) →
  canonical (mkdtemp (tests env)) →
  fresh (pr_mkdtemp env) fs →
  fresh (mkdtemp (tests env)) fs →
  FS.within (mkdtemp (tests env)) (pr_mkdtemp env) = false →
  FS.lookup_node fs (PosixPath.dirname (mkdtemp (tests env))) = Some FS.Dir →
  test_pull_request env pr_url old_rev current_rev token fs = (fs', sent, r) →
  fs' = fs.
Proof.
  intros (cs1 & Hne1 & Hcs1 & Htmp1) Htests Hfresh1 Hfresh2 Hapart Hparent.
  unfold test_pull_request. rewrite Htmp1 in *.
  change (String.eqb (path_of cs1) "") with false. cbv iota.
  set (fs0 := FS.set_node fs (path_of cs1) FS.Dir).
  destruct (review_pull_request _ _ _ _ _ fs0) as [[fs1 sent1] r1] eqn:Hreview.
  intros [= <- _ _].
  apply review_pull_request_restores in Hreview as ->.
  - apply cleanup_fresh; try done.
    + apply set_node_within. rewrite resolve_path_of by done. apply within_self.
    + simpl. rewrite resolve_path_of by done. by rewrite lookup_insert_eq.
  - intros d fs1' r1'. apply run_tests_restores; [done| |].
    + intros path Hwithin. unfold fs0. simpl. rewrite resolve_path_of by done.
      rewrite lookup_insert_ne by (intros <-; congruence). by apply Hfresh2.
    + unfold FS.lookup_node, fs0 in *. simpl. rewrite resolve_path_of by done.
      change (FS.resolve (FS.set_node fs (path_of cs1) FS.Dir))
        with (FS.resolve fs).
      destruct (decide (path_of cs1
                        = FS.resolve fs (PosixPath.dirname (mkdtemp (tests env)))))
        as [<-|Hne].
      * by rewrite lookup_insert_eq.
      * by rewrite lookup_insert_ne.
Qed.

Lemma pull_request_restores_file_system_witness :
  let old := SampleReview.repository [Sample.package "A"] in
  let new := SampleReview.repository [Sample.package "A"; Sample.package "Foo"] in
  let env := SampleReview.env old new ("M" +:+ Sample.tab +:+ "repository/f.json") in
  (test_pull_request env SampleReview.pr_url "old" "new" "TOKEN" Sample.fs).1.1
  = Sample.fs.
Proof.
  intros old new env.
  destruct (test_pull_request env SampleReview.pr_url "old" "new" "TOKEN" Sample.fs)
    as [[fs' sent] r] eqn:Hrun. simpl.
  apply (pull_request_restores_file_system env SampleReview.pr_url "old" "new" "TOKEN"
           Sample.fs fs' sent r); [| | | |reflexivity|reflexivity|exact Hrun].
  - exists ["tmp"; "tmpzz99yy88"]. split; [done|]. split; [|done]. by repeat constructor.
  - apply canonical_sample.
  - apply sample_fs_fresh. by repeat constructor.
  - apply sample_fs_fresh. by repeat constructor.
Defined.
